(** * Chalk CLI: the agentic chat loop, the tool dispatcher, the slash
    commands and the raw-terminal primitives of [src/index.js]

    [src/index.js] holds two listings of the program.  The second one
    (from line 891 on: raw-mode line input, boxed dialogs) is the one
    embedded below; the part of the first listing that differs in a way
    that matters here, the typed-slash branch of its [repl], is embedded
    in [Module Listing1].

    Conventions of the embedding.
    - A JavaScript string is a sequence of UTF-16 code units.  The
      embedding uses [string], that is the code units below 256; every
      delimiter, command name and answer the program compares against
      lies in that range.
    - JavaScript numbers that count things (token counts, lengths) are
      integers; they are [Z] or [nat] here.
    - [chalk.dim], [chalk.red] and the like only wrap a text in colour
      codes; the console log below records the text.
    - Everything the program obtains from outside (the user's answers,
      the shell, the file system, [JSON.parse], the remote model) is an
      explicit input: a field of [Runtime], a script of fetch outcomes or
      a list of key events.
    - A response body has the shape of the chat-completion protocol: an
      object with [choices], each choice with a [message] object, each
      tool call with an [id] and a [function] object.  The arguments of a
      tool call are free: any JSON text or value. *)

From Stdlib Require Import String Ascii List ZArith NArith Lia Bool Arith.
From Stdlib Require Import DecimalString.
Import ListNotations.

Set Warnings "-register-all".

Local Open Scope list_scope.
Local Open Scope string_scope.

(** ** JavaScript string primitives *)

Module Text.

(** [String.prototype.trim] strips WhiteSpace and LineTerminator code
    units; below 256 these are TAB, LF, VT, FF, CR, SPACE and NBSP. *)
Definition isWhiteSpace (c : ascii) : bool :=
  let n := N_of_ascii c in
  (((9 <=? n) && (n <=? 13)) || (n =? 32) || (n =? 160))%N.

Fixpoint trimStart (s : string) : string :=
  match s with
  | EmptyString => EmptyString
  | String c s' => if isWhiteSpace c then trimStart s' else s
  end.

Fixpoint trimEnd (s : string) : string :=
  match s with
  | EmptyString => EmptyString
  | String c s' =>
      match trimEnd s' with
      | EmptyString => if isWhiteSpace c then EmptyString else String c EmptyString
      | t => String c t
      end
  end.

Definition trim (s : string) : string := trimEnd (trimStart s).

(** [String.prototype.toLowerCase] on code units below 256: A-Z and the
    Latin-1 capitals U+00C0..U+00DE (U+00D7 excepted) move up by 32. *)
Definition lowerChar (c : ascii) : ascii :=
  let n := N_of_ascii c in
  if (((65 <=? n) && (n <=? 90))
      || ((192 <=? n) && (n <=? 222) && negb (n =? 215)))%N
  then ascii_of_N (n + 32) else c.

Fixpoint toLowerCase (s : string) : string :=
  match s with
  | EmptyString => EmptyString
  | String c s' => String (lowerChar c) (toLowerCase s')
  end.

(** [s.startsWith(p)] *)
Fixpoint startsWith (s p : string) {struct p} : bool :=
  match p with
  | EmptyString => true
  | String a p' =>
      match s with
      | EmptyString => false
      | String b s' => Ascii.eqb a b && startsWith s' p'
      end
  end.

(** [s.indexOf(p)], [None] for -1 *)
Fixpoint indexOf (s p : string) : option nat :=
  if startsWith s p then Some 0
  else match s with
       | EmptyString => None
       | String _ s' => option_map S (indexOf s' p)
       end.

(** [s.includes(p)] *)
Definition includes (s p : string) : bool :=
  match indexOf s p with Some _ => true | None => false end.

(** [s.slice(n)] for [0 <= n] *)
Fixpoint sliceFrom (n : nat) (s : string) : string :=
  match n, s with
  | O, _ => s
  | S k, EmptyString => EmptyString
  | S k, String _ s' => sliceFrom k s'
  end.

(** [s.slice(0, -1)] *)
Fixpoint dropLast (s : string) : string :=
  match s with
  | EmptyString => EmptyString
  | String c EmptyString => EmptyString
  | String c s' => String c (dropLast s')
  end.

(** [parts.join(sep)] *)
Fixpoint join (sep : string) (parts : list string) : string :=
  match parts with
  | [] => EmptyString
  | [p] => p
  | p :: rest => p ++ sep ++ join sep rest
  end.

(** [s.split("\n").length]: one more than the number of line feeds *)
Fixpoint lineCount (s : string) : nat :=
  match s with
  | EmptyString => 1
  | String c s' =>
      if Ascii.eqb c (ascii_of_nat 10) then S (lineCount s') else lineCount s'
  end.

(** a number interpolated into a template literal *)
Definition decimal (n : nat) : string := NilZero.string_of_uint (Nat.to_uint n).

(** *** The thinking-delimiter strip of [chat]

    [content.replace(/<think>[\s\S]*?<\/think>/g, "")
            .replace(/<think>[\s\S]*/g, "").trim()] *)

Definition OPEN : string := "<think>".
Definition CLOSE : string := "</think>".

(** Length of the match of [/<think>[\s\S]*?<\/think>/] anchored at the
    start of [s]: the opening delimiter, the shortest run of code units
    that is followed by the closing delimiter, and that delimiter. *)
Definition matchClosed (s : string) : option nat :=
  if startsWith s OPEN then
    match indexOf (sliceFrom 7 s) CLOSE with
    | Some i => Some (7 + i + 8)
    | None => None
    end
  else None.

(** The global replace by the empty string: at each position, leftmost
    first, a match is dropped and the scan resumes behind it; where
    nothing matches the code unit is kept.  [skip] counts the code units
    of the current match that are still to be dropped. *)
Fixpoint removeClosed (skip : nat) (s : string) : string :=
  match s with
  | EmptyString => EmptyString
  | String c s' =>
      match skip with
      | S k => removeClosed k s'
      | O =>
          match matchClosed s with
          | Some (S k) => removeClosed k s'
          | _ => String c (removeClosed 0 s')
          end
      end
  end.

(** [.replace(/<think>[\s\S]*/g, "")]: the first opening delimiter and
    everything behind it go. *)
Fixpoint removeOpen (s : string) : string :=
  match s with
  | EmptyString => EmptyString
  | String c s' => if startsWith s OPEN then EmptyString else String c (removeOpen s')
  end.

Definition stripThinking (content : string) : string :=
  trim (removeOpen (removeClosed 0 content)).

End Text.

(** *** A content with its thinking spans set apart

    A content read as regular text [t0], then well-formed spans, each an
    opening delimiter, a body, a closing delimiter and the regular text
    behind it, then possibly an opening delimiter that is never closed
    with the text behind it. *)
Module Spans.

Definition openTail (tail : option string) : string :=
  match tail with
  | Some rest => Text.OPEN ++ rest
  | None => EmptyString
  end.

Fixpoint renderSpans (spans : list (string * string)) (tail : option string)
  : string :=
  match spans with
  | [] => openTail tail
  | (body, after) :: more =>
      Text.OPEN ++ body ++ Text.CLOSE ++ after ++ renderSpans more tail
  end.

Definition render (t0 : string) (spans : list (string * string))
  (tail : option string) : string :=
  t0 ++ renderSpans spans tail.

(** the regular text, in order *)
Fixpoint visibleSpans (spans : list (string * string)) : string :=
  match spans with
  | [] => EmptyString
  | (_, after) :: more => after ++ visibleSpans more
  end.

Definition visible (t0 : string) (spans : list (string * string)) : string :=
  t0 ++ visibleSpans spans.

(** [p] does not occur in [s] *)
Definition absent (p s : string) : Prop := Text.indexOf s p = None.

(** nothing behind an unterminated opening delimiter closes it *)
Definition unclosed (tail : option string) : Prop :=
  match tail with
  | Some rest => absent Text.CLOSE rest
  | None => True
  end.

(** every code unit of [q] differs from [c] *)
Fixpoint noneIs (c : ascii) (q : string) : bool :=
  match q with
  | EmptyString => true
  | String a q' => negb (Ascii.eqb a c) && noneIs c q'
  end.

End Spans.

(** ** Data model *)

(** A JSON value, as [JSON.parse] returns it or as the remote model sends
    it already structured.  The lexeme of a number is kept; the program
    never inspects it.  The keys of an object are distinct. *)
Inductive json : Type :=
| JNull
| JBool (b : bool)
| JNum (lexeme : string)
| JStr (s : string)
| JArr (items : list json)
| JObj (fields : list (string * json)).

(** A JavaScript value drawn from JSON; [None] is [undefined]. *)
Definition value : Type := option json.

(** [tc.function.arguments]: a JSON-encoded text or a structured value *)
Inductive Arguments : Type :=
| ArgText (text : string)
| ArgValue (v : value).

(** A tool call [{id, function: {name, arguments}}] *)
Record ToolCall : Type := {
  tc_id : string;
  function_name : string;
  function_arguments : Arguments;
}.

(** What the tool dispatcher returns: [{output, success}] *)
Record ToolResult : Type := {
  output : string;
  success : bool;
}.

(** An entry of [ctx.messages]: [{role, content}] *)
Record Msg : Type := {
  role : string;
  content : string;
}.

(** The Session [ctx] of [repl] *)
Record Session : Type := {
  messages : list Msg;
  totalTokens : Z;
  promptTokens : Z;
  completionTokens : Z;
}.

(** An entry of [apiMessages], the transcript sent to the model.  The
    code builds three shapes of object. *)
Inductive ApiMessage : Type :=
| Plain (role content : string)
| AssistantCalls (content : option string) (tool_calls : list ToolCall)
| ToolEntry (content : string) (tool_call_id : string).

(** The part of the request body that varies: [{model, messages}] *)
Record Request : Type := {
  req_model : string;
  req_messages : list ApiMessage;
}.

(** [data.usage]; a field is [None] when absent or null. *)
Record Usage : Type := {
  prompt_tokens : option Z;
  completion_tokens : option Z;
  total_tokens : option Z;
}.

(** [choice.message]: [content] is [None] when null or absent;
    [msg_tool_calls] is the empty list when the field is absent (the code
    tests [message.tool_calls && message.tool_calls.length > 0]). *)
Record ModelMessage : Type := {
  msg_content : option string;
  msg_tool_calls : list ToolCall;
}.

Record Choice : Type := {
  message : ModelMessage;
  finish_reason : option string;
}.

(** The response body.  [choices] is [data.choices], an absent array
    read as the empty one (the code only reads [data.choices?.[0]]);
    [usage] is [None] when absent or null. *)
Record Data : Type := {
  choices : list Choice;
  usage : option Usage;
}.

(** One round trip of [fetch] inside the [try] of [chat] *)
Inductive FetchOutcome : Type :=
| Rejected (message : string)
    (* fetch or res.json() rejected: network failure, timeout *)
| NotOk (status : nat) (errText : string)
    (* !res.ok; errText is empty when res.text() fails *)
| Json (data : Data).

(** What [chat] returns when it returns an object *)
Record ChatResult : Type := {
  res_content : string;
  res_promptTokens : Z;
  res_completionTokens : Z;
  res_totalTokens : Z;
}.

Record Config : Type := {
  apiKey : string;
  model : string;
  baseUrl : string;
}.

(** ** The world outside the program *)

(** What [execSync] does with a command *)
Inductive ExecOutcome : Type :=
| Completed (stdout : string)
| Failed (stdout stderr : option string) (message : string).
    (* non-zero exit or timeout: err.stdout, err.stderr, err.message *)

(** What reaches the terminal.  Texts the program builds from
    collaborators that are not embedded (help screen, configuration,
    file tree, agents dialog) are recorded as events. *)
Inductive Out : Type :=
| Line (text : string)          (* console.log *)
| Question (text : string)      (* the question of rl.question *)
| HelpScreen
| ScreenCleared
| AgentsDialog
| ConfigScreen
| ModelLine
| TreeScreen
| SystemStatus.

Record World : Type := {
  console : list Out;                   (* oldest first *)
  prompts : nat;                        (* confirmation questions asked *)
  executed : list string;               (* commands run by execSync *)
  written : list (string * string);     (* files written: path, content *)
  requests : list Request;              (* bodies POSTed, oldest first *)
}.

(** The runtime services the program calls. *)
Class Runtime : Type := {
  (** [JSON.parse]; [None] when it throws *)
  JSON_parse : string -> option json;
  (** the line the user types at the n-th confirmation question *)
  typed : nat -> string;
  (** [execSync] of a command, after the commands run before it *)
  execSync : list string -> string -> ExecOutcome;
  (** the message of the TypeError [execSync] throws for a command that
      is not a string *)
  invalidCommand : value -> string;
  (** a value that is not a string, interpolated into a template literal *)
  toText : value -> string;
  (** [path.resolve] of a string *)
  path_resolve : string -> string;
  (** [existsSync]/[mkdirSync]/[writeFileSync] of the [try] block of
      [execToolEdit], after the files written before: [None] on success,
      the [err.message] otherwise *)
  fs_write : list (string * string) -> string -> string -> option string;
}.

(** An uncaught exception ends the process through [main().catch]. *)
Inductive Completion (A : Type) : Type :=
| Normal (a : A)
| Throws (site : string).
Arguments Normal {A} a.
Arguments Throws {A} site.

Definition LF : string := String (ascii_of_nat 10) EmptyString.

Definition log (o : Out) (w : World) : World :=
  {| console := (console w ++ [o])%list; prompts := prompts w;
     executed := executed w; written := written w; requests := requests w |}.

Definition println (text : string) (w : World) : World := log (Line text) w.

(** ** Tool execution with y/n confirmation *)

Section Tools.
Context {RT : Runtime}.

(** [ask(question)]: the answer trimmed and lower-cased *)
Definition ask (question : string) (w : World) : string * World :=
  let w1 := log (Question question) w in
  (Text.toLowerCase (Text.trim (typed (prompts w))),
   {| console := console w1; prompts := S (prompts w1);
      executed := executed w1; written := written w1; requests := requests w1 |}).

(** a value interpolated into a template literal *)
Definition interpolate (v : value) : string :=
  match v with
  | Some (JStr s) => s
  | _ => toText v
  end.

(** [text.split("\n").join("\n  ")] *)
Fixpoint indent (text : string) : string :=
  match text with
  | EmptyString => EmptyString
  | String c s' =>
      if Ascii.eqb c (ascii_of_nat 10)
      then String c ("  " ++ indent s')
      else String c (indent s')
  end.

(** [err.stdout?.toString().trim() || ""] *)
Definition trimmedOrEmpty (o : option string) : string :=
  match o with
  | Some s => Text.trim s
  | None => EmptyString
  end.

Definition nonEmpty (s : string) : bool :=
  match s with EmptyString => false | _ => true end.

(** [a || b] on strings *)
Definition orElse (a b : string) : string := if nonEmpty a then a else b.

Definition denied (answer : string) : bool :=
  String.eqb answer "n" || String.eqb answer "no".

Definition execToolRun (command : value) (w : World) : ToolResult * World :=
  let w1 := println (LF ++ "  $ " ++ interpolate command) w in
  let (answer, w2) := ask "  Run this command? (Y/n) " w1 in
  if denied answer then
    ({| output := "User denied command execution."; success := false |}, w2)
  else
    match command with
    | Some (JStr cmd) =>
        let w3 := {| console := console w2; prompts := prompts w2;
                     executed := (executed w2 ++ [cmd])%list;
                     written := written w2; requests := requests w2 |} in
        match execSync (executed w2) cmd with
        | Completed result =>
            let trimmed := Text.trim result in
            let w4 := if nonEmpty trimmed
                      then println ("  " ++ indent trimmed) w3
                      else println "  (completed, no output)" w3 in
            ({| output := orElse trimmed "(completed, no output)";
                success := true |}, w4)
        | Failed out err message =>
            let stderr := trimmedOrEmpty err in
            let stdout := trimmedOrEmpty out in
            let msg := orElse (Text.join LF (filter nonEmpty [stdout; stderr]))
                              message in
            ({| output := msg; success := false |},
             println ("  " ++ indent msg) w3)
        end
    | _ =>
        (* execSync rejects the command before running anything *)
        let msg := invalidCommand command in
        ({| output := msg; success := false |},
         println ("  " ++ indent msg) w2)
    end.

Definition execToolEdit (filepath content : value) (w : World)
  : Completion ToolResult * World :=
  match filepath with
  | Some (JStr fp) =>
      let resolved := path_resolve fp in
      match content with
      | Some (JStr text) =>
          let lineCount := Text.lineCount text in
          let w1 := println (LF ++ "  Write: " ++ resolved ++ " ("
                             ++ Text.decimal lineCount ++ " lines)") w in
          let (answer, w2) := ask "  Write this file? (Y/n) " w1 in
          if denied answer then
            (Normal {| output := "User denied file write."; success := false |},
             w2)
          else
            match fs_write (written w2) resolved text with
            | None =>
                let msg := "File written: " ++ resolved ++ " ("
                           ++ Text.decimal lineCount ++ " lines)" in
                let w3 := {| console := console w2; prompts := prompts w2;
                             executed := executed w2;
                             written := (written w2 ++ [(resolved, text)])%list;
                             requests := requests w2 |} in
                (Normal {| output := msg; success := true |},
                 println ("  " ++ msg) w3)
            | Some errMessage =>
                let msg := "Failed to write: " ++ errMessage in
                (Normal {| output := msg; success := false |},
                 println ("  " ++ msg) w2)
            end
      | _ => (Throws "content.split", w)
      end
  | _ => (Throws "path.resolve(filepath)", w)
  end.

(** [args.key]: reading a property of null or undefined throws; a value
    that is not an object has none of the properties read here. *)
Fixpoint lookup (key : string) (fields : list (string * json)) : value :=
  match fields with
  | [] => None
  | (k, v) :: rest => if String.eqb k key then Some v else lookup key rest
  end.

Definition getProperty (args : value) (key : string) : Completion value :=
  match args with
  | None | Some JNull => Throws ("args." ++ key)
  | Some (JObj fields) => Normal (lookup key fields)
  | Some _ => Normal None
  end.

Definition dispatchTool (name : string) (args : value) (w : World)
  : Completion ToolResult * World :=
  if String.eqb name "tool_run" then
    match getProperty args "command" with
    | Normal command =>
        let (r, w') := execToolRun command w in (Normal r, w')
    | Throws site => (Throws site, w)
    end
  else if String.eqb name "tool_edit" then
    match getProperty args "filepath" with
    | Normal filepath =>
        match getProperty args "content" with
        | Normal content => execToolEdit filepath content w
        | Throws site => (Throws site, w)
        end
    | Throws site => (Throws site, w)
    end
  else
    (Normal {| output := "Unknown tool: " ++ name; success := false |}, w).

End Tools.

(** ** Slash commands *)

Record SlashCommand : Type := {
  name : string;
  description : string;
}.

Definition SLASH_COMMANDS : list SlashCommand := [
  {| name := "/help";    description := "Show available commands and usage" |};
  {| name := "/clear";   description := "Clear the terminal screen" |};
  {| name := "/agents";  description := "Show system status and health" |};
  {| name := "/config";  description := "Show configuration and paths" |};
  {| name := "/model";   description := "Show current AI model" |};
  {| name := "/tree";    description := "Show project file tree" |};
  {| name := "/cost";    description := "Show token usage this session" |};
  {| name := "/compact"; description := "Truncate conversation to save context" |};
  {| name := "/new";     description := "Start a new conversation" |};
  {| name := "/exit";    description := "Exit Chalk" |}
].

(** A handler either comes back to the REPL or ends the process with
    [process.exit]. *)
Inductive Flow (A : Type) : Type :=
| Continue (a : A)
| Exit (code : nat).
Arguments Continue {A} a.
Arguments Exit {A} code.

(** [list.slice(-n)] *)
Definition lastN {A : Type} (n : nat) (l : list A) : list A :=
  skipn (length l - n) l.

Definition decimalZ (z : Z) : string := NilZero.string_of_int (Z.to_int z).

Definition setMessages (ctx : Session) (msgs : list Msg) : Session :=
  {| messages := msgs; totalTokens := totalTokens ctx;
     promptTokens := promptTokens ctx;
     completionTokens := completionTokens ctx |}.

Definition handleSlashCommand (command : string) (ctx : Session) (w : World)
  : Flow Session * World :=
  if String.eqb command "/help" then (Continue ctx, log HelpScreen w)
  else if String.eqb command "/clear" then (Continue ctx, log ScreenCleared w)
  else if String.eqb command "/agents" then (Continue ctx, log AgentsDialog w)
  else if String.eqb command "/config" then (Continue ctx, log ConfigScreen w)
  else if String.eqb command "/model" then (Continue ctx, log ModelLine w)
  else if String.eqb command "/tree" then (Continue ctx, log TreeScreen w)
  else if String.eqb command "/cost" then
    (Continue ctx,
     println ("  Session tokens: " ++ decimalZ (totalTokens ctx)
              ++ " (prompt: " ++ decimalZ (promptTokens ctx)
              ++ ", completion: " ++ decimalZ (completionTokens ctx) ++ ")") w)
  else if String.eqb command "/compact" then
    if (6 <? length (messages ctx))%nat then
      let kept := lastN 4 (messages ctx) in
      (Continue (setMessages ctx kept),
       println ("  Compacted. Kept last " ++ Text.decimal (length kept)
                ++ " messages.") w)
    else
      (Continue ctx, println "  Conversation is already short." w)
  else if String.eqb command "/new" then
    (Continue {| messages := []; totalTokens := 0%Z; promptTokens := 0%Z;
                 completionTokens := 0%Z |},
     println "  New conversation started." w)
  else if String.eqb command "/exit" then
    (Exit 0, println "  Goodbye!" w)
  else
    (Continue ctx, println ("  Unknown command: " ++ command) w).

(** The branch of [repl] for a text that starts with the command
    prefix (second listing, "Direct slash command typed fully"). *)
Definition repl_slash (text : string) (ctx : Session) (w : World)
  : Flow Session * World :=
  match find (fun c => String.eqb (name c) text) SLASH_COMMANDS with
  | Some found => handleSlashCommand (name found) ctx w
  | None =>
      let partial :=
        filter (fun c => Text.startsWith (name c) text) SLASH_COMMANDS in
      match partial with
      | [only] => handleSlashCommand (name only) ctx w
      | _ =>
          (Continue ctx,
           println ("  Unknown command: " ++ text ++ ". Type / to see all.") w)
      end
  end.

(** The first listing of [src/index.js] (lines 1 to 890).  Its
    [handleSlashCommand] differs from the second one in the [/agents]
    case only, which prints a status table. *)
Module Listing1.

Definition handleSlashCommand (command : string) (ctx : Session) (w : World)
  : Flow Session * World :=
  if String.eqb command "/agents" then (Continue ctx, log SystemStatus w)
  else handleSlashCommand command ctx w.

(** The [else] branch of the slash trigger in [repl]: [input] starts
    with the command prefix and is not the prefix alone. *)
Definition repl_slash (input : string) (ctx : Session) (w : World)
  : Flow Session * World :=
  match find (fun c => String.eqb (name c) input) SLASH_COMMANDS with
  | Some found => handleSlashCommand (name found) ctx w
  | None =>
      let partial :=
        filter (fun c => Text.startsWith (name c) input) SLASH_COMMANDS in
      match partial with
      | [only] => handleSlashCommand (name only) ctx w
      | _ :: _ :: _ =>
          (Continue ctx,
           println ("  Ambiguous. Did you mean: "
                    ++ Text.join ", " (map name partial) ++ "?") w)
      | [] =>
          (Continue ctx,
           println ("  Unknown command: " ++ input
                    ++ ". Type / to see all commands.") w)
      end
  end.

End Listing1.

(** ** The agentic chat loop *)

Section Chat.
Context {RT : Runtime}.

(** The [try]/[catch] around the argument parse of a tool call *)
Definition parseArguments (a : Arguments) : value :=
  match a with
  | ArgText text =>
      match JSON_parse text with
      | Some j => Some j
      | None => Some (JObj [])
      end
  | ArgValue v => v
  end.

(** The [for] loop over [message.tool_calls] *)
Fixpoint executeTools (tcs : list ToolCall) (apiMessages : list ApiMessage)
  (w : World) : Completion (list ApiMessage) * World :=
  match tcs with
  | [] => (Normal apiMessages, w)
  | tc :: rest =>
      let args := parseArguments (function_arguments tc) in
      match dispatchTool (function_name tc) args w with
      | (Normal result, w') =>
          executeTools rest
            (apiMessages ++ [ToolEntry (output result) (tc_id tc)])%list w'
      | (Throws site, w') => (Throws site, w')
      end
  end.

(** [data.usage?.field || 0] *)
Definition usageOr0 (field : Usage -> option Z) (u : option Usage) : Z :=
  match u with
  | Some u' => match field u' with Some n => n | None => 0%Z end
  | None => 0%Z
  end.

(** [message.content || null] *)
Definition orNull (c : option string) : option string :=
  match c with
  | Some EmptyString => None
  | other => other
  end.

(** [message.content || ""] *)
Definition orEmpty (c : option string) : string :=
  match c with
  | Some s => s
  | None => EmptyString
  end.

Definition isStop (reason : option string) : bool :=
  match reason with
  | Some r => String.eqb r "stop" || String.eqb r "end_turn"
  | None => false
  end.

Definition send (config : Config) (apiMessages : list ApiMessage) (w : World)
  : World :=
  {| console := console w; prompts := prompts w; executed := executed w;
     written := written w;
     requests := (requests w
                  ++ [{| req_model := model config;
                         req_messages := apiMessages |}])%list |}.

(** [println] when the text is not empty *)
Definition printReply (cleaned : string) (w : World) : World :=
  if nonEmpty cleaned then println (LF ++ "Chalk: " ++ cleaned) w else w.

(** How a call of [chat] ends: it returns an object or null, an
    exception escapes it, or it is still awaiting the model when the
    script of fetch outcomes is used up. *)
Inductive ChatOutcome : Type :=
| Returned (result : option ChatResult)
| Escaped (site : string)
| AwaitingModel.

(** The [while (!done)] loop; one fetch outcome is consumed per pass. *)
Fixpoint chatLoop (config : Config) (script : list FetchOutcome)
  (apiMessages : list ApiMessage) (w : World) : ChatOutcome * World :=
  let w0 := send config apiMessages w in
  match script with
  | [] => (AwaitingModel, w0)
  | Rejected errMessage :: _ =>
      (Returned None, println (LF ++ "  [error] " ++ errMessage) w0)
  | NotOk status errText :: _ =>
      (Returned None,
       println (LF ++ "  [error] " ++ "API " ++ Text.decimal status ++ ": "
                ++ errText) w0)
  | Json data :: rest =>
      match choices data with
      | [] => (Returned None, println (LF ++ "  [error] No response from model.") w0)
      | choice :: _ =>
          let message := message choice in
          match msg_tool_calls message with
          | [] =>
              let cleaned := Text.stripThinking (orEmpty (msg_content message)) in
              (Returned (Some {|
                 res_content := cleaned;
                 res_promptTokens := usageOr0 prompt_tokens (usage data);
                 res_completionTokens := usageOr0 completion_tokens (usage data);
                 res_totalTokens := usageOr0 total_tokens (usage data) |}),
               printReply cleaned w0)
          | tcs =>
              let w1 :=
                match orNull (msg_content message) with
                | Some text => printReply (Text.stripThinking text) w0
                | None => w0
                end in
              let apiMessages1 :=
                (apiMessages
                 ++ [AssistantCalls (orNull (msg_content message)) tcs])%list in
              match executeTools tcs apiMessages1 w1 with
              | (Normal apiMessages2, w2) =>
                  if isStop (finish_reason choice) then (Returned None, w2)
                  else chatLoop config rest apiMessages2 w2
              | (Throws site, w2) => (Escaped site, w2)
              end
          end
      end
  end.

Definition chat (config : Config) (systemPrompt : string) (messages : list Msg)
  (script : list FetchOutcome) (w : World) : ChatOutcome * World :=
  chatLoop config script
    (Plain "system" systemPrompt
     :: map (fun m => Plain (role m) (content m)) messages) w.

(** The message path of one [repl] iteration: the user text is pushed,
    [chat] runs, and its result, when there is one, is folded into the
    Session. *)
Inductive TurnOutcome : Type :=
| TurnDone (ctx : Session)
| TurnEscaped (site : string) (ctx : Session)
| TurnAwaiting (ctx : Session).

Definition absorb (ctx : Session) (result : ChatResult) : Session :=
  {| messages :=
       if nonEmpty (res_content result)
       then (messages ctx
             ++ [{| role := "assistant"; content := res_content result |}])%list
       else messages ctx;
     totalTokens := (totalTokens ctx + res_totalTokens result)%Z;
     promptTokens := (promptTokens ctx + res_promptTokens result)%Z;
     completionTokens :=
       (completionTokens ctx + res_completionTokens result)%Z |}.

Definition repl_message (config : Config) (systemPrompt userText : string)
  (script : list FetchOutcome) (ctx : Session) (w : World)
  : TurnOutcome * World :=
  let ctx1 :=
    setMessages ctx
      (messages ctx ++ [{| role := "user"; content := userText |}])%list in
  match chat config systemPrompt (messages ctx1) script w with
  | (Returned (Some result), w') => (TurnDone (absorb ctx1 result), w')
  | (Returned None, w') => (TurnDone ctx1, w')
  | (Escaped site, w') => (TurnEscaped site ctx1, w')
  | (AwaitingModel, w') => (TurnAwaiting ctx1, w')
  end.

End Chat.

(** ** Raw-terminal primitives

    [process.stdin] as the primitives see it.  [isRaw] is a boolean on a
    terminal stream, so [wasRaw ?? false] is [wasRaw].  What the
    primitives paint (prompt glyph, echo, menu and box repaints) has no
    bearing on the mode or on the value they resolve with and is not
    recorded. *)

Record Terminal : Type := {
  isTTY : bool;
  isRaw : bool;
}.

Definition setRawMode (mode : bool) (t : Terminal) : Terminal :=
  {| isTTY := isTTY t; isRaw := mode |}.

(** A chunk delivered to a ["data"] listener is a run of bytes;
    [byteAt i data] is [data[i]], [None] when out of range.  For the
    7-bit chunks a keyboard sends, [data.toString()] is the chunk. *)
Fixpoint byteAt (i : nat) (data : string) : option nat :=
  match data, i with
  | EmptyString, _ => None
  | String c _, O => Some (nat_of_ascii c)
  | String _ rest, S k => byteAt k rest
  end.

Definition isByte (b : option nat) (n : nat) : bool :=
  match b with Some m => Nat.eqb m n | None => false end.

Definition printable (b : option nat) : bool :=
  match b with Some m => (32 <=? m)%nat && (m <? 127)%nat | None => false end.

(** A promise under construction: still listening, or resolved. *)
Inductive Step (S R : Type) : Type :=
| Listening (st : S) (t : Terminal)
| Resolved (r : R) (t : Terminal).
Arguments Listening {S R} st t.
Arguments Resolved {S R} r t.

(** The chunks arrive one by one; [cleanup] removes the listener, so
    nothing is read past the resolving chunk. *)
Fixpoint feed {S R : Type} (onKey : S -> Terminal -> string -> Step S R)
  (st : S) (t : Terminal) (keys : list string) : Step S R :=
  match keys with
  | [] => Listening st t
  | data :: rest =>
      match onKey st t data with
      | Listening st' t' => feed onKey st' t' rest
      | Resolved r t' => Resolved r t'
      end
  end.

(** *** [rawInput] *)

Record LineInput : Type := {
  text : string;
  isSlash : bool;
}.

Definition rawInput_cleanup (t : Terminal) : Terminal :=
  if isTTY t then setRawMode false t else t.

Definition rawInput_onKey (buf : string) (t : Terminal) (data : string)
  : Step string (option LineInput) :=
  let code := byteAt 0 data in
  if isByte code 4 then Resolved None (rawInput_cleanup t)
  else if isByte code 3 then
    Resolved (Some {| text := EmptyString; isSlash := false |})
             (rawInput_cleanup t)
  else if isByte code 13 then
    Resolved (Some {| text := Text.trim buf; isSlash := false |})
             (rawInput_cleanup t)
  else if isByte code 127 || isByte code 8 then
    Listening (if nonEmpty buf then Text.dropLast buf else buf) t
  else if isByte code 27 then Listening buf t
  else if isByte code 9 then Listening buf t
  else if printable code then
    let buf' := buf ++ data in
    if String.eqb buf' "/" then
      Resolved (Some {| text := "/"; isSlash := true |}) (rawInput_cleanup t)
    else Listening buf' t
  else Listening buf t.

(** The fallback for piped input: the calls of [resolve] in the order
    they are made, the first one apart.  [piped] is the next line of the
    input, [None] at its end.  On a line the ["line"] listener calls
    [rl.close()] before anything else; [close] emits ["close"] at once, so
    the ["close"] listener resolves with null before the ["line"]
    listener reaches its own [resolve]. *)
Definition rawInput_piped (piped : option string)
  : option LineInput * list (option LineInput) :=
  match piped with
  | Some line => (None, [Some {| text := Text.trim line; isSlash := false |}])
  | None => (None, [])
  end.

(** A promise keeps the value of the first [resolve]; the calls after
    it have no effect. *)
Definition rawInput (t : Terminal) (piped : option string) (keys : list string)
  : Step string (option LineInput) :=
  if negb (isTTY t) then Resolved (fst (rawInput_piped piped)) t
  else feed rawInput_onKey EmptyString (setRawMode true t) keys.

(** *** [showSlashMenu] *)

Record Menu : Type := {
  menu_wasRaw : bool;
  menu_filter : string;
  menu_selected : Z;
  menu_filtered : list SlashCommand;
}.

(** [list[i] || null] for an integer index *)
Definition at_ {A : Type} (l : list A) (i : Z) : option A :=
  if (i <? 0)%Z then None else nth_error l (Z.to_nat i).

Definition restore (wasRaw : bool) (t : Terminal) : Terminal :=
  if isTTY t then setRawMode wasRaw t else t.

Definition updateFilter (m : Menu) (filter : string) : Menu :=
  let term := Text.toLowerCase filter in
  {| menu_wasRaw := menu_wasRaw m;
     menu_filter := filter;
     menu_selected := 0;
     menu_filtered :=
       List.filter
         (fun c => Text.includes (Text.sliceFrom 1 (name c)) term
                   || Text.includes (Text.toLowerCase (description c)) term)
         SLASH_COMMANDS |}.

Definition arrow (data : string) (count : nat) (selected : Z) : Z :=
  let up :=
    if isByte (byteAt 2 data) 65 then Z.max 0 (selected - 1) else selected in
  if isByte (byteAt 2 data) 66
  then Z.min (Z.of_nat count - 1) (up + 1) else up.

Definition showSlashMenu_onKey (m : Menu) (t : Terminal) (data : string)
  : Step Menu (option string) :=
  let code := byteAt 0 data in
  if (isByte code 27 && Nat.eqb (String.length data) 1) || isByte code 3 then
    Resolved None (restore (menu_wasRaw m) t)
  else if isByte code 13 then
    Resolved (option_map name (at_ (menu_filtered m) (menu_selected m)))
             (restore (menu_wasRaw m) t)
  else if isByte code 127 || isByte code 8 then
    if nonEmpty (menu_filter m)
    then Listening (updateFilter m (Text.dropLast (menu_filter m))) t
    else Resolved None (restore (menu_wasRaw m) t)
  else if isByte code 27 && (3 <=? String.length data)%nat then
    Listening
      {| menu_wasRaw := menu_wasRaw m; menu_filter := menu_filter m;
         menu_selected :=
           arrow data (length (menu_filtered m)) (menu_selected m);
         menu_filtered := menu_filtered m |} t
  else if printable code then
    Listening (updateFilter m (menu_filter m ++ data)) t
  else Listening m t.

Definition showSlashMenu (t : Terminal) (keys : list string)
  : Step Menu (option string) :=
  if negb (isTTY t) then Resolved None t
  else feed showSlashMenu_onKey
         {| menu_wasRaw := isRaw t; menu_filter := EmptyString;
            menu_selected := 0; menu_filtered := SLASH_COMMANDS |}
         (setRawMode true t) keys.

(** *** [boxSelect] and [boxTextInput] *)

Record Selector : Type := {
  sel_wasRaw : bool;
  sel_selected : Z;
}.

Definition boxSelect_onKey (items : list string) (st : Selector) (t : Terminal)
  (data : string) : Step Selector Z :=
  let code := byteAt 0 data in
  if (isByte code 27 && Nat.eqb (String.length data) 1) || isByte code 3 then
    Resolved (-1)%Z (restore (sel_wasRaw st) t)
  else if isByte code 13 then
    Resolved (sel_selected st) (restore (sel_wasRaw st) t)
  else if isByte code 27 && (3 <=? String.length data)%nat then
    Listening {| sel_wasRaw := sel_wasRaw st;
                 sel_selected := arrow data (length items) (sel_selected st) |} t
  else Listening st t.

Definition boxSelect (title subtitle : string) (items : list string)
  (footer : string) (t : Terminal) (keys : list string) : Step Selector Z :=
  if negb (isTTY t) then Resolved 0%Z t
  else feed (boxSelect_onKey items)
         {| sel_wasRaw := isRaw t; sel_selected := 0 |}
         (setRawMode true t) keys.

Record TextField : Type := {
  fld_wasRaw : bool;
  fld_buf : string;
}.

Definition boxTextInput_onKey (st : TextField) (t : Terminal) (data : string)
  : Step TextField (option string) :=
  let code := byteAt 0 data in
  if (isByte code 27 && Nat.eqb (String.length data) 1) || isByte code 3 then
    Resolved None (restore (fld_wasRaw st) t)
  else if isByte code 13 then
    Resolved (Some (fld_buf st)) (restore (fld_wasRaw st) t)
  else if isByte code 127 || isByte code 8 then
    Listening (if nonEmpty (fld_buf st)
               then {| fld_wasRaw := fld_wasRaw st;
                       fld_buf := Text.dropLast (fld_buf st) |}
               else st) t
  else if printable code then
    Listening {| fld_wasRaw := fld_wasRaw st; fld_buf := fld_buf st ++ data |} t
  else Listening st t.

Definition boxTextInput (title subtitle placeholder : string) (t : Terminal)
  (keys : list string) : Step TextField (option string) :=
  if negb (isTTY t) then Resolved None t
  else feed boxTextInput_onKey
         {| fld_wasRaw := isRaw t; fld_buf := EmptyString |}
         (setRawMode true t) keys.

(** *** The key wait of [showAgentsDialog]

    The promise that waits for Enter or Escape under the agents screen:
    the first chunk resolves it. *)

Definition showAgentsDialog_onKey (wasRaw : bool) (t : Terminal)
  (data : string) : Step bool string :=
  let code := byteAt 0 data in
  Resolved (if isByte code 13 then "enter" else "esc") (restore wasRaw t).

Definition showAgentsDialog_action (t : Terminal) (keys : list string)
  : Step bool string :=
  if negb (isTTY t) then Resolved "esc" t
  else feed showAgentsDialog_onKey (isRaw t) (setRawMode true t) keys.

(** The terminal a resolved primitive leaves behind *)
Definition terminalOf {S R : Type} (s : Step S R) : Terminal :=
  match s with
  | Listening _ t => t
  | Resolved _ t => t
  end.

Definition resolved {S R : Type} (s : Step S R) : bool :=
  match s with
  | Listening _ _ => false
  | Resolved _ _ => true
  end.

Definition resultOf {S R : Type} (s : Step S R) : option R :=
  match s with
  | Listening _ _ => None
  | Resolved r _ => Some r
  end.

(** *** The primitives in succession

    [repl], [handleSlashCommand] and [showAgentsDialog] await the
    primitives one after the other: each has resolved before the next is
    called. *)

Inductive Primitive : Type :=
| RawInput (piped : option string)
| SlashMenu
| BoxSelect (title subtitle : string) (items : list string) (footer : string)
| BoxTextInput (title subtitle placeholder : string)
| AgentsKeyWait.

(** The terminal a primitive leaves when it resolves; [None] while it
    is still listening. *)
Definition released {S R : Type} (s : Step S R) : option Terminal :=
  match s with
  | Listening _ _ => None
  | Resolved _ t => Some t
  end.

Definition acquire (p : Primitive) (t : Terminal) (keys : list string)
  : option Terminal :=
  match p with
  | RawInput piped => released (rawInput t piped keys)
  | SlashMenu => released (showSlashMenu t keys)
  | BoxSelect title subtitle items footer =>
      released (boxSelect title subtitle items footer t keys)
  | BoxTextInput title subtitle placeholder =>
      released (boxTextInput title subtitle placeholder t keys)
  | AgentsKeyWait => released (showAgentsDialog_action t keys)
  end.

(** The terminal each call of a succession finds and the one it leaves,
    up to the first call that does not resolve on its keys. *)
Fixpoint successive (t : Terminal) (calls : list (Primitive * list string))
  : list (Terminal * Terminal) :=
  match calls with
  | [] => []
  | (p, keys) :: rest =>
      match acquire p t keys with
      | Some t' => (t, t') :: successive t' rest
      | None => []
      end
  end.

(** ** Vocabulary of the statements *)

Section Rounds.
Context {RT : Runtime}.

(** The tool calls for which [dispatchTool] returns a result: a
    [tool_run] call whose arguments are neither null nor undefined, a
    [tool_edit] call whose [filepath] and [content] are strings, and
    every call of another name.  ([dispatchTool_completes] below.) *)
Definition completes (tc : ToolCall) : bool :=
  let args := parseArguments (function_arguments tc) in
  if String.eqb (function_name tc) "tool_run" then
    match getProperty args "command" with
    | Normal _ => true
    | Throws _ => false
    end
  else if String.eqb (function_name tc) "tool_edit" then
    match getProperty args "filepath", getProperty args "content" with
    | Normal (Some (JStr _)), Normal (Some (JStr _)) => true
    | _, _ => false
    end
  else true.

(** A response after which the loop asks the model again: its first
    choice carries tool calls, each of them completes, and the finish
    reason is not a stop. *)
Definition toolRound (d : Data) : bool :=
  match choices d with
  | [] => false
  | choice :: _ =>
      match msg_tool_calls (message choice) with
      | [] => false
      | tcs => forallb completes tcs && negb (isStop (finish_reason choice))
      end
  end.

(** A response whose first choice carries no tool call *)
Definition finalAnswer (d : Data) : bool :=
  match choices d with
  | [] => false
  | choice :: _ =>
      match msg_tool_calls (message choice) with
      | [] => true
      | _ => false
      end
  end.

(** A transport failure, a timeout or a non-2xx response *)
Definition failed (f : FetchOutcome) : bool :=
  match f with
  | Rejected _ | NotOk _ _ => true
  | Json _ => false
  end.

(** The [err.message] that [chat] logs for a failed fetch *)
Definition errorMessage (f : FetchOutcome) : string :=
  match f with
  | Rejected errMessage => errMessage
  | NotOk status errText => "API " ++ Text.decimal status ++ ": " ++ errText
  | Json _ => EmptyString
  end.

End Rounds.

(** The tool-role entries [entries] answer the tool calls [tcs]: one
    entry per call, in the order of the calls, each with the id of its
    call. *)
Definition answers (tcs : list ToolCall) (entries : list ApiMessage) : Prop :=
  Forall2 (fun tc e => exists out, e = ToolEntry out (tc_id tc)) tcs entries.

Definition request (config : Config) (apiMessages : list ApiMessage) : Request :=
  {| req_model := model config; req_messages := apiMessages |}.

(** The catalog entries whose name starts with the text typed, and the
    entry whose name is the text typed. *)
Definition candidates (typed : string) : list SlashCommand :=
  filter (fun c => Text.startsWith (name c) typed) SLASH_COMMANDS.

Definition exact (typed : string) : option SlashCommand :=
  find (fun c => String.eqb (name c) typed) SLASH_COMMANDS.

(** While a primitive listens the terminal stays as [during]; when it
    resolves, the terminal is [final]. *)
Definition scoped {S R : Type} (during final : Terminal) (s : Step S R) : Prop :=
  match s with
  | Listening _ t => t = during
  | Resolved _ t => t = final
  end.

(** ** Sample inputs *)

Module Sample.

Definition CR : string := String (ascii_of_nat 13) EmptyString.
Definition ESC : string := String (ascii_of_nat 27) EmptyString.
Definition CTRL_C : string := String (ascii_of_nat 3) EmptyString.
Definition DOWN : string := String (ascii_of_nat 27) "[B".

(** A runtime whose user types [line] at every question, whose shell
    echoes the command and whose file system accepts every write. *)
Definition runtime (line : string) : Runtime := {|
  JSON_parse := fun _ => None;
  typed := fun _ => line;
  execSync := fun _ cmd => Completed ("ran " ++ cmd);
  invalidCommand := fun _ => "invalid command";
  toText := fun _ => "undefined";
  path_resolve := fun fp => "/work/" ++ fp;
  fs_write := fun _ _ _ => None;
|}.

Definition world : World :=
  {| console := []; prompts := 0; executed := []; written := [];
     requests := [] |}.

Definition config : Config :=
  {| apiKey := "sk"; model := "deepseek/deepseek-r1-0528";
     baseUrl := "https://openrouter.ai/api/v1" |}.

Definition session : Session :=
  {| messages := []; totalTokens := 0; promptTokens := 0;
     completionTokens := 0 |}.

Definition msg (n : nat) : Msg :=
  {| role := "user"; content := Text.decimal n |}.

Definition ls : ToolCall :=
  {| tc_id := "call_1"; function_name := "tool_run";
     function_arguments := ArgValue (Some (JObj [("command", JStr "ls")])) |}.

Definition pwd : ToolCall :=
  {| tc_id := "call_2"; function_name := "tool_run";
     function_arguments := ArgValue (Some (JObj [("command", JStr "pwd")])) |}.

(** A [tool_edit] call whose arguments broke off, as [JSON.parse] will
    not have them. *)
Definition broken_edit : ToolCall :=
  {| tc_id := "call_3"; function_name := "tool_edit";
     function_arguments := ArgText "{" |}.

Definition usageOf (p c t : Z) : option Usage :=
  Some {| prompt_tokens := Some p; completion_tokens := Some c;
          total_tokens := Some t |}.

Definition response (text : option string) (tcs : list ToolCall)
  (reason : option string) (u : option Usage) : Data :=
  {| choices := [{| message := {| msg_content := text; msg_tool_calls := tcs |};
                    finish_reason := reason |}];
     usage := u |}.

Definition tty (raw : bool) : Terminal := {| isTTY := true; isRaw := raw |}.
Definition pipe (raw : bool) : Terminal := {| isTTY := false; isRaw := raw |}.

End Sample.

(** ** Further vocabulary *)

(** What a run has done to the machine: commands run and files written. *)
Definition effects (w : World) : nat :=
  length (executed w) + length (written w).

(** From [w] to [w'] no more effects were added than confirmation
    questions were asked. *)
Definition accounted (w w' : World) : Prop :=
  prompts w <= prompts w'
  /\ effects w' + prompts w <= effects w + prompts w'.


(** The Session [repl] holds when a turn is over, however it ended. *)
Definition sessionOf (o : TurnOutcome) : Session :=
  match o with
  | TurnDone ctx => ctx
  | TurnEscaped _ ctx => ctx
  | TurnAwaiting ctx => ctx
  end.

(** Backspace, as a terminal sends it *)
Definition BACKSPACE : string := String (ascii_of_nat 127) EmptyString.

(** The two capability names [dispatchTool] knows *)
Definition knownTool (name : string) : bool :=
  String.eqb name "tool_run" || String.eqb name "tool_edit".

(** The tool-role entry [dispatchTool] yields for a call of another name *)
Definition unknownEntry (tc : ToolCall) : ApiMessage :=
  ToolEntry ("Unknown tool: " ++ function_name tc) (tc_id tc).

(** ** Multi-line input

    [readLine] hands out the lines of standard input one by one and
    null at its end; [stdin] is the list of the lines still to come.  The
    functions return the lines left unread with their result. *)

Definition FENCE : string := "```".

(** The [while (true)] loop of [getMultilineInput] *)
Fixpoint getMultilineInput_loop (stdin lines : list string)
  : option string * list string :=
  match stdin with
  | [] => (None, [])
  | line :: rest =>
      if String.eqb (Text.trim line) FENCE
      then (Some (Text.join LF lines), rest)
      else getMultilineInput_loop rest (lines ++ [line])%list
  end.

Definition getMultilineInput (stdin : list string)
  : option string * list string :=
  getMultilineInput_loop stdin [].

(** The "Multi-line mode" step of [repl]: the text that goes on to the
    conversation, [None] when the iteration is given up ([continue]). *)
Definition repl_userText (text : string) (stdin : list string)
  : option string * list string :=
  if String.eqb text FENCE then
    match getMultilineInput stdin with
    | (Some multi, rest) =>
        if nonEmpty multi then (Some multi, rest) else (None, rest)
    | (None, rest) => (None, rest)
    end
  else (Some text, stdin).

(** ** The settings file [~/.chalk/.env]

    [saveEnvValue] on the content of the file, [None] when the file does
    not exist; the result is the content written.

    The key is interpolated into the source of a regular expression and
    the value into a replacement text.  The embedding takes the key
    literally and the value verbatim, which is what JavaScript does for a
    key made of letters, digits and underscores ([literalKey]) and a
    value without "$" ([verbatim]); the keys the program saves are
    OPENROUTER_API_KEY and CHALK_MODEL. *)
Module Env.

(** The line terminators below 256: with the [m] flag, [^] matches
    behind one and [$] before one; [.] matches neither. *)
Definition isLineTerminator (c : ascii) : bool :=
  let n := N_of_ascii c in ((n =? 10) || (n =? 13))%N.

(** what [.*] consumes: up to the first line terminator *)
Fixpoint lineRest (s : string) : string :=
  match s with
  | EmptyString => EmptyString
  | String c s' =>
      if isLineTerminator c then EmptyString else String c (lineRest s')
  end.

(** what is left behind [.*]: from the first line terminator on *)
Fixpoint lineEnd (s : string) : string :=
  match s with
  | EmptyString => EmptyString
  | String c s' => if isLineTerminator c then s else lineEnd s'
  end.

(** [content.replace(/^key=.*$/m, key=value)]: the first line that
    starts with [key=] is replaced; [None] when [regex.test(content)] is
    false.  [bol] tells whether the scan stands at the beginning of a
    line. *)
Fixpoint replaceKeyLine (bol : bool) (key value s : string) : option string :=
  if bol && Text.startsWith s (key ++ "=") then
    Some (key ++ "=" ++ value
          ++ lineEnd (Text.sliceFrom (String.length (key ++ "=")) s))
  else
    match s with
    | EmptyString => None
    | String c s' =>
        option_map (String c) (replaceKeyLine (isLineTerminator c) key value s')
    end.

Definition saveEnvValue (key value : string) (file : option string) : string :=
  match file with
  | Some content =>
      match replaceKeyLine true key value content with
      | Some replaced => replaced
      | None => Text.trimEnd content ++ LF ++ key ++ "=" ++ value ++ LF
      end
  | None => key ++ "=" ++ value ++ LF
  end.

(** What the first line matched by [/^key=.*$/m] holds behind the
    equals sign *)
Fixpoint keyLine (bol : bool) (key s : string) : option string :=
  if bol && Text.startsWith s (key ++ "=") then
    Some (lineRest (Text.sliceFrom (String.length (key ++ "=")) s))
  else
    match s with
    | EmptyString => None
    | String c s' => keyLine (isLineTerminator c) key s'
    end.

Definition readEnv (key : string) (file : option string) : option string :=
  match file with
  | Some content => keyLine true key content
  | None => None
  end.

Definition isWordChar (c : ascii) : bool :=
  let n := N_of_ascii c in
  (((48 <=? n) && (n <=? 57)) || ((65 <=? n) && (n <=? 90))
   || ((97 <=? n) && (n <=? 122)) || (n =? 95))%N.

Fixpoint literalKey (key : string) : bool :=
  match key with
  | EmptyString => true
  | String c key' => isWordChar c && literalKey key'
  end.

(** no line terminator in [s] *)
Fixpoint singleLine (s : string) : bool :=
  match s with
  | EmptyString => true
  | String c s' => negb (isLineTerminator c) && singleLine s'
  end.

(** no "$" in [s] *)
Fixpoint verbatim (s : string) : bool :=
  match s with
  | EmptyString => true
  | String c s' => negb (Ascii.eqb c "$") && verbatim s'
  end.

End Env.

(** ** Custom agents *)

Record Agent : Type := {
  agent_name : string;
  agent_description : string;
  agent_model : string;
  agent_tools : list string;
  agent_createdAt : string;
}.

(** [s.replace(/\s+/g, "-")]: every run of white space becomes one
    dash; [inRun] tells whether the scan stands inside a run. *)
Fixpoint dashRuns (inRun : bool) (s : string) : string :=
  match s with
  | EmptyString => EmptyString
  | String c s' =>
      if Text.isWhiteSpace c then
        if inRun then dashRuns true s' else String "-" (dashRuns true s')
      else String c (dashRuns false s')
  end.

(** [agent.name.toLowerCase().replace(/\s+/g, "-")] *)
Definition agentSlug (name : string) : string :=
  dashRuns false (Text.toLowerCase name).

(** The file name [saveAgent] writes to *)
Definition agentFilename (name : string) : string := agentSlug name ++ ".json".

Fixpoint noWhiteSpace (s : string) : bool :=
  match s with
  | EmptyString => true
  | String c s' => negb (Text.isWhiteSpace c) && noWhiteSpace s'
  end.

(** [feed] that also hands back the chunks it has not read: they are
    there for the primitive that listens next. *)
Fixpoint feedRest {S R : Type} (onKey : S -> Terminal -> string -> Step S R)
  (st : S) (t : Terminal) (keys : list string) : Step S R * list string :=
  match keys with
  | [] => (Listening st t, [])
  | data :: rest =>
      match onKey st t data with
      | Listening st' t' => feedRest onKey st' t' rest
      | Resolved r t' => (Resolved r t', rest)
      end
  end.

Definition boxSelect_then (title subtitle : string) (items : list string)
  (footer : string) (t : Terminal) (keys : list string)
  : Step Selector Z * list string :=
  if negb (isTTY t) then (Resolved 0%Z t, keys)
  else feedRest (boxSelect_onKey items)
         {| sel_wasRaw := isRaw t; sel_selected := 0 |}
         (setRawMode true t) keys.

Definition boxTextInput_then (title subtitle placeholder : string)
  (t : Terminal) (keys : list string)
  : Step TextField (option string) * list string :=
  if negb (isTTY t) then (Resolved None t, keys)
  else feedRest boxTextInput_onKey
         {| fld_wasRaw := isRaw t; fld_buf := EmptyString |}
         (setRawMode true t) keys.

Definition showAgentsDialog_action_then (t : Terminal) (keys : list string)
  : Step bool string * list string :=
  if negb (isTTY t) then (Resolved "esc" t, keys)
  else feedRest showAgentsDialog_onKey (isRaw t) (setRawMode true t) keys.

(** How [showAgentsDialog] ends *)
Inductive DialogEnd : Type :=
| Dismissed
| Cancelled
| Created (agent : Agent) (location : string).

Inductive Dialog : Type :=
| DialogWaiting (t : Terminal)
| DialogEnded (how : DialogEnd) (t : Terminal) (rest : list string).

(** [text === null || !text.trim()] *)
Definition blank (answer : option string) : bool :=
  match answer with
  | Some s => negb (nonEmpty (Text.trim s))
  | None => true
  end.

(** [showAgentsDialog] from the key wait on: the wait for Enter, the two
    selectors, the two text fields, and the agent handed to [saveAgent].
    [now] is [new Date().toISOString()].  What the dialog prints is not
    recorded. *)
Definition showAgentsDialog (now : string) (t : Terminal) (keys : list string)
  : Dialog :=
  match showAgentsDialog_action_then t keys with
  | (Listening _ t1, _) => DialogWaiting t1
  | (Resolved action t1, keys1) =>
  if negb (String.eqb action "enter") then DialogEnded Dismissed t1 keys1 else
  match boxSelect_then "Create new agent" "Choose location"
          ["Project (.chalk/agents/)"; "Personal (~/.chalk/agents/)"]
          "Up/Down to navigate - Enter to select - Esc to go back" t1 keys1 with
  | (Listening _ t2, _) => DialogWaiting t2
  | (Resolved locIdx t2, keys2) =>
  if (locIdx =? -1)%Z then DialogEnded Cancelled t2 keys2 else
  let location := if (locIdx =? 0)%Z then "project" else "personal" in
  match boxSelect_then "Create new agent" "Creation method"
          ["Generate with Chalk (recommended)"; "Manual configuration"]
          "Up/Down to navigate - Enter to select - Esc to go back" t2 keys2 with
  | (Listening _ t3, _) => DialogWaiting t3
  | (Resolved methodIdx t3, keys3) =>
  if (methodIdx =? -1)%Z then DialogEnded Cancelled t3 keys3 else
  match boxTextInput_then "Create new agent"
          "Describe what this agent should do and when it should be used"
          "e.g., Help me write unit tests for my code..." t3 keys3 with
  | (Listening _ t4, _) => DialogWaiting t4
  | (Resolved description t4, keys4) =>
  if blank description then DialogEnded Cancelled t4 keys4 else
  match boxTextInput_then "Create new agent" "Give your agent a name"
          "e.g., Test Writer" t4 keys4 with
  | (Listening _ t5, _) => DialogWaiting t5
  | (Resolved agentName t5, keys5) =>
  if blank agentName then DialogEnded Cancelled t5 keys5 else
  DialogEnded
    (Created {| agent_name := Text.trim (orEmpty agentName);
                agent_description := Text.trim (orEmpty description);
                agent_model := "inherit";
                agent_tools := ["tool_run"; "tool_edit"];
                agent_createdAt := now |} location)
    t5 keys5
  end end end end end.


(** ** The project listing

    [scanFileTree] over a file system given by what [fs.readdirSync]
    returns for a path, [None] when it throws; [localeCompare] and
    [path.join] are the runtime's.  [Array.prototype.sort] is stable, and
    for a consistent comparator its result is the one of the insertion
    below. *)

Record Dirent : Type := {
  dirent_name : string;
  dirent_isDirectory : bool
}.

Definition MAX_TREE_DEPTH : nat := 3.
Definition MAX_TREE_FILES : nat := 200.

Definition IGNORED_DIRS : list string :=
  ["node_modules"; ".git"; ".next"; ".nuxt"; "__pycache__"; ".venv";
   "venv"; "dist"; "build"; ".cache"; ".turbo"; "target"; ".svelte-kit";
   "coverage"; ".pytest_cache"; ".mypy_cache"; "vendor"; ".idea";
   ".vscode"; ".DS_Store"; "env"; ".env"; ".tox"; "out"].

(** [IGNORED_DIRS.has(name)] *)
Definition ignored (name : string) : bool :=
  existsb (String.eqb name) IGNORED_DIRS.

Section FileTree.

Variable readdirSync : string -> option (list Dirent).
Variable localeCompare : string -> string -> Z.
Variable path_join : string -> string -> string.

(** The comparator handed to [entries.sort] *)
Definition compareEntries (a b : Dirent) : Z :=
  if dirent_isDirectory a && negb (dirent_isDirectory b) then (-1)%Z
  else if negb (dirent_isDirectory a) && dirent_isDirectory b then 1%Z
  else localeCompare (dirent_name a) (dirent_name b).

Fixpoint insertEntry (a : Dirent) (sorted : list Dirent) : list Dirent :=
  match sorted with
  | [] => [a]
  | b :: rest =>
      if (compareEntries a b <=? 0)%Z then a :: sorted
      else b :: insertEntry a rest
  end.

(** [entries.sort(...)] *)
Definition sortEntries (entries : list Dirent) : list Dirent :=
  fold_right insertEntry [] entries.

(** The [for (const entry of entries)] loop; [scan] is the call of
    [scanFileTree] one level down. *)
Fixpoint scanEntries (scan : string -> string -> list string)
  (dir prefix : string) (entries : list Dirent) (count : nat) : list string :=
  match entries with
  | [] => []
  | entry :: rest =>
      if (MAX_TREE_FILES <=? count)%nat
      then [prefix ++ "  ... (truncated)"]
      else if ignored (dirent_name entry)
      then scanEntries scan dir prefix rest count
      else if Text.startsWith (dirent_name entry) "." && dirent_isDirectory entry
      then scanEntries scan dir prefix rest count
      else if dirent_isDirectory entry
      then (prefix ++ dirent_name entry ++ "/")
             :: app (scan (path_join dir (dirent_name entry)) (prefix ++ "  "))
                    (scanEntries scan dir prefix rest (S count))
      else (prefix ++ dirent_name entry)
             :: scanEntries scan dir prefix rest (S count)
  end.

(** [scanFileTree(dir, depth, prefix)] with [levels] the number of levels
    still to be listed, [MAX_TREE_DEPTH + 1 - depth]: none when
    [depth > MAX_TREE_DEPTH]. *)
Fixpoint scanFileTree_from (levels : nat) (dir prefix : string)
  : list string :=
  match levels with
  | O => []
  | S below =>
      match readdirSync dir with
      | None => []
      | Some entries =>
          scanEntries (scanFileTree_from below) dir prefix
            (sortEntries entries) 0
      end
  end.

(** [scanFileTree(dir)] *)
Definition scanFileTree (dir : string) : list string :=
  scanFileTree_from (S MAX_TREE_DEPTH) dir "".

(** [treeStr] of [getProjectContext] *)
Definition treeStr (cwd : string) : string :=
  match scanFileTree cwd with
  | [] => "(empty directory)"
  | tree => Text.join LF tree
  end.

End FileTree.

(** The most lines [levels] levels of listing can have: per directory at
    most [MAX_TREE_FILES] entries, each with what is below it, and the
    line that tells of the cut. *)
Fixpoint treeBound (levels : nat) : Z :=
  match levels with
  | O => 0
  | S below => Z.of_nat MAX_TREE_FILES * (1 + treeBound below) + 1
  end.

(** No file comes before a directory. *)
Fixpoint dirsFirst (entries : list Dirent) : bool :=
  match entries with
  | [] => true
  | entry :: rest =>
      if dirent_isDirectory entry then dirsFirst rest
      else forallb (fun e => negb (dirent_isDirectory e)) rest
  end.

(** * Properties *)

(** ** Strings *)

Section StringFacts.

Lemma append_assoc (a b c : string) : (a ++ b) ++ c = a ++ (b ++ c).
Proof. induction a as [|x a IH]; simpl; [reflexivity | now rewrite IH]. Qed.

Lemma append_empty_r (a : string) : a ++ EmptyString = a.
Proof. induction a as [|x a IH]; simpl; [reflexivity | now rewrite IH]. Qed.

Lemma startsWith_cons (a b : ascii) (s p : string) :
  Text.startsWith (String b s) (String a p)
  = Ascii.eqb a b && Text.startsWith s p.
Proof. reflexivity. Qed.

Lemma startsWith_append (p s : string) : Text.startsWith (p ++ s) p = true.
Proof.
  induction p as [|a p IH]; simpl; [reflexivity|].
  now rewrite Ascii.eqb_refl, IH.
Qed.

Lemma startsWith_grow (s p r : string) :
  Text.startsWith s p = true -> Text.startsWith (s ++ r) p = true.
Proof.
  revert s; induction p as [|a p IH]; intros s H; simpl in *; [reflexivity|].
  destruct s as [|b s]; [discriminate|]. simpl.
  apply andb_true_iff in H as [Hab Hs]. rewrite Hab. simpl. now apply IH.
Qed.

(** A text that does not start with [q] cannot start with it once a
    text beginning with [c] is appended, when [c] is not in [q]. *)
Lemma startsWith_blocked (c : ascii) (q : string) :
  Spans.noneIs c q = true ->
  forall t r, Text.startsWith t q = false ->
              Text.startsWith (t ++ String c r) q = false.
Proof.
  induction q as [|a q IH]; intros Hq t r H; simpl in *; [discriminate|].
  apply andb_true_iff in Hq as [Hac Hq].
  destruct t as [|b t]; simpl.
  - apply negb_true_iff in Hac. now rewrite Hac.
  - destruct (Ascii.eqb a b); simpl in *; [now apply IH | reflexivity].
Qed.

Lemma indexOf_cons_None (b : ascii) (t p : string) :
  Text.indexOf (String b t) p = None ->
  Text.startsWith (String b t) p = false /\ Text.indexOf t p = None.
Proof.
  cbn [Text.indexOf].
  destruct (Text.startsWith (String b t) p); [discriminate|].
  destruct (Text.indexOf t p); [discriminate|]. now split.
Qed.

Lemma absent_append_l [p a b : string] :
  Spans.absent p (a ++ b) -> Spans.absent p a.
Proof.
  unfold Spans.absent. induction a as [|x a IH]; intros H.
  - destruct p; [destruct b; discriminate H|]. reflexivity.
  - change (String x a ++ b) with (String x (a ++ b)) in H.
    apply indexOf_cons_None in H as [Hs Hi].
    cbn [Text.indexOf].
    destruct (Text.startsWith (String x a) p) eqn:E.
    + apply startsWith_grow with (r := b) in E. simpl in E. congruence.
    + now rewrite (IH Hi).
Qed.

Lemma absent_append_r [p a b : string] :
  Spans.absent p (a ++ b) -> Spans.absent p b.
Proof.
  unfold Spans.absent. induction a as [|x a IH]; intros H; [exact H|].
  change (String x a ++ b) with (String x (a ++ b)) in H.
  apply indexOf_cons_None in H as [_ Hi]. now apply IH.
Qed.

Lemma absent_sliceFrom [p : string] (n : nat) [s : string] :
  Spans.absent p s -> Spans.absent p (Text.sliceFrom n s).
Proof.
  revert s; induction n as [|n IH]; intros s H; [exact H|].
  destruct s as [|x s]; [exact H|]. simpl.
  apply IH. unfold Spans.absent in *.
  now apply indexOf_cons_None in H as [_ Hi].
Qed.

(** Behind a text free of the pattern [String c q], the pattern is found
    right where it is appended. *)
Lemma indexOf_found (c : ascii) (q t r : string) :
  Spans.noneIs c q = true ->
  Spans.absent (String c q) t ->
  Text.indexOf (t ++ String c q ++ r) (String c q) = Some (String.length t).
Proof.
  intros Hq. unfold Spans.absent.
  induction t as [|b t IH]; intros H.
  - change (EmptyString ++ String c q ++ r) with ((String c q) ++ r).
    destruct (String c q ++ r) eqn:E; [discriminate E|]. rewrite <- E.
    unfold Text.indexOf. rewrite E. fold Text.indexOf. rewrite <- E.
    now rewrite startsWith_append.
  - apply indexOf_cons_None in H as [Hs Hi].
    change (String b t ++ String c q ++ r)
      with (String b (t ++ String c q ++ r)).
    cbn [Text.indexOf].
    assert (Hb : Text.startsWith (String b (t ++ String c q ++ r)) (String c q)
                 = false).
    { simpl in *. destruct (Ascii.eqb c b); simpl in *; [|reflexivity].
      change (String c (q ++ r)) with (String c q ++ r).
      change (String c q ++ r) with (String c (q ++ r)).
      now apply startsWith_blocked. }
    rewrite Hb, (IH Hi). reflexivity.
Qed.

End StringFacts.

(** ** The thinking strip *)

Section Thinking.
Import Spans.

Lemma noneIs_open : noneIs "<" "think>" = true.
Proof. reflexivity. Qed.

Lemma noneIs_close : noneIs "<" "/think>" = true.
Proof. reflexivity. Qed.

Lemma open_not_straddling (t r : string) :
  absent Text.OPEN t ->
  Text.startsWith (t ++ Text.OPEN ++ r) Text.OPEN = true -> t = EmptyString.
Proof.
  intros Ha Hs. destruct t as [|b t]; [reflexivity|exfalso].
  apply indexOf_cons_None in Ha as [Hb _].
  unfold Text.OPEN in Hb, Hs.
  change (String b t ++ "<think>" ++ r)
    with (String b (t ++ "<think>" ++ r)) in Hs.
  rewrite startsWith_cons in Hb, Hs.
  destruct (Ascii.eqb "<" b); cbn [andb] in Hb, Hs; [|discriminate Hs].
  assert (X : Text.startsWith (t ++ "<think>" ++ r) "think>" = false)
    by exact (startsWith_blocked "<" "think>" noneIs_open t ("think>" ++ r) Hb).
  congruence.
Qed.

Lemma removeClosed_skip (x y : string) (k : nat) :
  Text.removeClosed (String.length x + k) (x ++ y) = Text.removeClosed k y.
Proof. induction x as [|c x IH]; simpl; [reflexivity | exact IH]. Qed.

Lemma matchClosed_span (b r : string) :
  absent Text.CLOSE b ->
  Text.matchClosed (Text.OPEN ++ b ++ Text.CLOSE ++ r)
  = Some (7 + String.length b + 8).
Proof.
  intros Hb. unfold Text.matchClosed.
  rewrite startsWith_append.
  change (Text.sliceFrom 7 (Text.OPEN ++ b ++ Text.CLOSE ++ r))
    with (b ++ Text.CLOSE ++ r).
  unfold Text.CLOSE in *.
  now rewrite (indexOf_found "<" "/think>" b r noneIs_close Hb).
Qed.

(** A well-formed span behind text free of the opening delimiter is
    dropped whole, and the scan resumes behind it. *)
Lemma removeClosed_span (t b r : string) :
  absent Text.OPEN t -> absent Text.CLOSE b ->
  Text.removeClosed 0 (t ++ Text.OPEN ++ b ++ Text.CLOSE ++ r)
  = t ++ Text.removeClosed 0 r.
Proof.
  intros Ht Hb. induction t as [|c t IH].
  - change (EmptyString ++ Text.OPEN ++ b ++ Text.CLOSE ++ r)
      with (String "<" ("think>" ++ b ++ Text.CLOSE ++ r)).
    cbn [Text.removeClosed].
    change (String "<" ("think>" ++ b ++ Text.CLOSE ++ r))
      with (Text.OPEN ++ b ++ Text.CLOSE ++ r).
    rewrite (matchClosed_span b r Hb).
    change (7 + String.length b + 8) with (S (6 + String.length b + 8)).
    cbv iota beta.
    replace (6 + String.length b + 8)
      with (String.length ("think>" ++ b ++ Text.CLOSE) + 0).
    + rewrite <- (removeClosed_skip ("think>" ++ b ++ Text.CLOSE) r 0).
      now rewrite !append_assoc.
    + clear. simpl. f_equal. f_equal. f_equal. f_equal. f_equal. f_equal.
      induction b as [|c b IH]; simpl; [reflexivity|]. now rewrite IH.
  - pose proof Ht as Ht'. apply indexOf_cons_None in Ht' as [Hc Hi].
    change (String c t ++ Text.OPEN ++ b ++ Text.CLOSE ++ r)
      with (String c (t ++ Text.OPEN ++ b ++ Text.CLOSE ++ r)).
    cbn [Text.removeClosed]. unfold Text.matchClosed.
    destruct (Text.startsWith
                (String c (t ++ Text.OPEN ++ b ++ Text.CLOSE ++ r)) Text.OPEN)
      eqn:E.
    + apply (open_not_straddling (String c t)) in E; [discriminate|exact Ht].
    + cbv iota. rewrite (IH Hi). reflexivity.
Qed.

(** Nothing is dropped from a text that has no closing delimiter. *)
Lemma removeClosed_unclosed (s : string) :
  absent Text.CLOSE s -> Text.removeClosed 0 s = s.
Proof.
  induction s as [|c s IH]; intros H; [reflexivity|].
  cbn [Text.removeClosed]. unfold Text.matchClosed.
  rewrite (absent_sliceFrom 7 H : Text.indexOf _ _ = None).
  apply indexOf_cons_None in H as [_ Hi].
  destruct (Text.startsWith (String c s) Text.OPEN); now rewrite (IH Hi).
Qed.

Lemma removeClosed_plain (t : string) :
  absent Text.OPEN t -> Text.removeClosed 0 t = t.
Proof.
  induction t as [|c t IH]; intros H; [reflexivity|].
  apply indexOf_cons_None in H as [Hc Hi].
  cbn [Text.removeClosed]. unfold Text.matchClosed. rewrite Hc.
  now rewrite (IH Hi).
Qed.

Lemma absent_close_open (rest : string) :
  absent Text.CLOSE rest -> absent Text.CLOSE (Text.OPEN ++ rest).
Proof.
  unfold absent, Text.CLOSE, Text.OPEN. intros H.
  cbn. now rewrite H.
Qed.

Lemma removeClosed_openTail (t : string) (tail : option string) :
  absent Text.OPEN t ->
  (forall rest, tail = Some rest -> absent Text.CLOSE rest) ->
  Text.removeClosed 0 (t ++ openTail tail) = t ++ openTail tail.
Proof.
  intros Ht Htail. destruct tail as [rest|]; cbn [openTail].
  - specialize (Htail rest eq_refl).
    induction t as [|c t IH].
    + apply removeClosed_unclosed. now apply absent_close_open.
    + pose proof Ht as Ht'. apply indexOf_cons_None in Ht' as [Hc Hi].
      change (String c t ++ Text.OPEN ++ rest)
        with (String c (t ++ Text.OPEN ++ rest)).
      cbn [Text.removeClosed]. unfold Text.matchClosed.
      destruct (Text.startsWith (String c (t ++ Text.OPEN ++ rest)) Text.OPEN)
        eqn:E.
      * apply (open_not_straddling (String c t)) in E; [discriminate|exact Ht].
      * cbv iota. now rewrite (IH Hi).
  - rewrite append_empty_r. now apply removeClosed_plain.
Qed.

(** First replace: the well-formed spans go, the regular text stays. *)
Lemma removeClosed_render (spans : list (string * string)) :
  forall (t0 : string) (tail : option string),
    absent Text.OPEN (visible t0 spans) ->
    Forall (fun sp => absent Text.CLOSE (fst sp)) spans ->
    (forall rest, tail = Some rest -> absent Text.CLOSE rest) ->
    Text.removeClosed 0 (render t0 spans tail) = visible t0 spans ++ openTail tail.
Proof.
  induction spans as [|[body after] more IH]; intros t0 tail Hv Hb Htail.
  - unfold render, visible in *. simpl in *. rewrite append_empty_r in *.
    now apply removeClosed_openTail.
  - unfold render, visible in *. cbn [renderSpans visibleSpans] in *.
    inversion Hb as [|? ? Hbody Hmore]; subst. simpl in Hbody.
    rewrite removeClosed_span;
      [|exact (absent_append_l Hv) | exact Hbody].
    specialize (IH after tail (absent_append_r Hv) Hmore Htail).
    unfold render, visible in IH. rewrite IH.
    now rewrite !append_assoc.
Qed.

(** Second replace: an opening delimiter left over goes with its tail. *)
Lemma removeOpen_openTail (v : string) (tail : option string) :
  absent Text.OPEN v -> Text.removeOpen (v ++ openTail tail) = v.
Proof.
  intros Hv. induction v as [|c v IH].
  - destruct tail; reflexivity.
  - pose proof Hv as Hv'. apply indexOf_cons_None in Hv' as [Hc Hi].
    change (String c v ++ openTail tail) with (String c (v ++ openTail tail)).
    cbn [Text.removeOpen].
    destruct (Text.startsWith (String c (v ++ openTail tail)) Text.OPEN) eqn:E.
    + destruct tail as [rest|]; simpl in E.
      * apply (open_not_straddling (String c v)) in E;
          [discriminate|exact Hv].
      * rewrite append_empty_r in E. unfold Text.OPEN in *. simpl in Hc.
        congruence.
    + now rewrite (IH Hi).
Qed.

End Thinking.

Section ThinkingClaim.
Import Spans.

(** C4, as amended.  For a content made of regular text, well-formed
    thinking spans and possibly a final opening delimiter that is never
    closed, [stripThinking] returns the regular text, in order, with the
    white space at its two ends trimmed, provided the regular text put
    together does not itself spell an opening delimiter. *)
Theorem stripThinking_keeps_regular_text
  (t0 : string) (spans : list (string * string)) (tail : option string) :
  absent Text.OPEN (visible t0 spans) ->
  Forall (fun sp => absent Text.CLOSE (fst sp)) spans ->
  unclosed tail ->
  Text.stripThinking (render t0 spans tail) = Text.trim (visible t0 spans).
Proof.
  intros Hv Hb Ht. unfold Text.stripThinking.
  rewrite removeClosed_render; [|exact Hv|exact Hb|].
  - now rewrite removeOpen_openTail.
  - intros rest ->. exact Ht.
Qed.

Lemma stripThinking_keeps_regular_text_witness :
  absent Text.OPEN
    (visible " Sure. " [("plan <think> more", "Run it."); ("a", " ok ")]) /\
  Text.stripThinking
    " Sure. <think>plan <think> more</think>Run it.<think>a</think> ok <think>tail"
  = "Sure. Run it. ok".
Proof.
  split; [reflexivity|].
  apply (stripThinking_keeps_regular_text " Sure. "
           [("plan <think> more", "Run it."); ("a", " ok ")] (Some "tail"));
    [reflexivity | repeat constructor | reflexivity].
Defined.

(** C4 as stated fails: the regular text around a span is not kept
    verbatim, the white space at the ends of the result is trimmed. *)
Lemma stripThinking_not_verbatim :
  absent Text.OPEN (visible "Done. " [("plan", EmptyString)]) /\
  Forall (fun sp => absent Text.CLOSE (fst sp)) [("plan", EmptyString)] /\
  render "Done. " [("plan", EmptyString)] None = "Done. <think>plan</think>" /\
  Text.stripThinking (render "Done. " [("plan", EmptyString)] None) = "Done." /\
  Text.stripThinking (render "Done. " [("plan", EmptyString)] None)
  <> visible "Done. " [("plan", EmptyString)].
Proof.
  repeat split.
  - repeat constructor.
  - discriminate.
Qed.

(** Regular text that spells an opening delimiter once a span is taken
    out of its middle is dropped by the second replace. *)
Lemma stripThinking_joined_delimiter :
  Text.stripThinking "<thi<think>x</think>nk>rest" = EmptyString.
Proof. reflexivity. Qed.

End ThinkingClaim.

(** ** The tool dispatcher *)

Section ToolClaims.
Context {RT : Runtime}.

Lemma denied_spec (answer : string) :
  denied answer = true <-> answer = "n" \/ answer = "no".
Proof.
  unfold denied. rewrite orb_true_iff, !String.eqb_eq. reflexivity.
Qed.

Lemma ask_answer (question : string) (w : World) :
  fst (ask question w) = Text.toLowerCase (Text.trim (typed (prompts w))).
Proof. reflexivity. Qed.

(** C7.  The answer to the confirmation of a shell command is trimmed
    and lower-cased.  When it is "n" or "no" the command is not run and
    the result is the fixed denial with [success = false]; with any other
    answer the command is handed to the shell, and the result succeeds
    exactly when the shell completes. *)
Theorem execToolRun_confirmation (command : value) (w : World) :
  let answer := Text.toLowerCase (Text.trim (typed (prompts w))) in
  let r := fst (execToolRun command w) in
  let w' := snd (execToolRun command w) in
  (answer = "n" \/ answer = "no" ->
   r = {| output := "User denied command execution."; success := false |}
   /\ executed w' = executed w)
  /\
  (answer <> "n" -> answer <> "no" ->
   forall cmd, command = Some (JStr cmd) ->
     executed w' = (executed w ++ [cmd])%list
     /\ success r = match execSync (executed w) cmd with
                    | Completed _ => true
                    | Failed _ _ _ => false
                    end).
Proof.
  cbv zeta. unfold execToolRun.
  destruct (ask "  Run this command? (Y/n) "
              (println (LF ++ "  $ " ++ interpolate command) w))
    as [answer w2] eqn:E.
  assert (Ha : answer
               = Text.toLowerCase (Text.trim (typed (prompts w))))
    by (injection E as <- _; reflexivity).
  assert (Hw : executed w2 = executed w) by (injection E as _ <-; reflexivity).
  rewrite <- Ha. split.
  - intros Hd. apply denied_spec in Hd. rewrite Hd. now split.
  - intros Hn Hno cmd ->.
    destruct (denied answer) eqn:Hd.
    + apply denied_spec in Hd as [->| ->]; contradiction.
    + rewrite Hw. destruct (execSync (executed w) cmd); simpl;
        [destruct (nonEmpty (Text.trim stdout))|]; now split.
Qed.

End ToolClaims.

Lemma execToolRun_confirmation_witness :
  (fst (execToolRun (RT := Sample.runtime " No ") (Some (JStr "ls")) Sample.world)
   = {| output := "User denied command execution."; success := false |}
   /\ executed (snd (execToolRun (RT := Sample.runtime " No ")
                       (Some (JStr "ls")) Sample.world)) = [])
  /\
  (executed (snd (execToolRun (RT := Sample.runtime EmptyString)
                    (Some (JStr "ls")) Sample.world)) = ["ls"]
   /\ success (fst (execToolRun (RT := Sample.runtime EmptyString)
                      (Some (JStr "ls")) Sample.world)) = true).
Proof.
  split.
  - apply (proj1 (execToolRun_confirmation (RT := Sample.runtime " No ")
                    (Some (JStr "ls")) Sample.world)).
    right. reflexivity.
  - apply (proj2 (execToolRun_confirmation (RT := Sample.runtime EmptyString)
                    (Some (JStr "ls")) Sample.world));
      [discriminate | discriminate | reflexivity].
Defined.

(** ** Slash commands *)

Section SlashClaims.

Lemma lastN_split {A : Type} (n : nat) (l : list A) :
  n <= length l ->
  l = (firstn (length l - n) l ++ lastN n l)%list /\ length (lastN n l) = n.
Proof.
  intros H. unfold lastN. split.
  - symmetry. apply firstn_skipn.
  - rewrite length_skipn. lia.
Qed.

(** C6.  [/compact] acts only on a Session of more than 6 messages: the
    last 4 stay, in their order, the earlier ones go, and the counters
    are untouched.  With 6 messages or fewer the Session is unchanged and
    the already-short notice is printed. *)
Theorem compact_keeps_last_four (ctx : Session) (w : World) :
  (6 < length (messages ctx) ->
   exists dropped kept,
     messages ctx = (dropped ++ kept)%list /\ length kept = 4 /\
     handleSlashCommand "/compact" ctx w
     = (Continue (setMessages ctx kept),
        println "  Compacted. Kept last 4 messages." w))
  /\
  (length (messages ctx) <= 6 ->
   handleSlashCommand "/compact" ctx w
   = (Continue ctx, println "  Conversation is already short." w)).
Proof.
  unfold handleSlashCommand.
  change (String.eqb "/compact" "/help") with false.
  change (String.eqb "/compact" "/clear") with false.
  change (String.eqb "/compact" "/agents") with false.
  change (String.eqb "/compact" "/config") with false.
  change (String.eqb "/compact" "/model") with false.
  change (String.eqb "/compact" "/tree") with false.
  change (String.eqb "/compact" "/cost") with false.
  change (String.eqb "/compact" "/compact") with true.
  cbv iota. split; intros H.
  - destruct (lastN_split 4 (messages ctx)) as [Hsplit Hlen]; [lia|].
    exists (firstn (length (messages ctx) - 4) (messages ctx)),
           (lastN 4 (messages ctx)).
    repeat split; [exact Hsplit | exact Hlen |].
    apply Nat.ltb_lt in H. rewrite H, Hlen. reflexivity.
  - apply Nat.ltb_ge in H. rewrite H. reflexivity.
Qed.

Lemma compact_keeps_last_four_witness :
  (exists dropped kept,
     map Sample.msg [1; 2; 3; 4; 5; 6; 7] = (dropped ++ kept)%list /\
     length kept = 4 /\
     handleSlashCommand "/compact"
       (setMessages Sample.session (map Sample.msg [1; 2; 3; 4; 5; 6; 7]))
       Sample.world
     = (Continue (setMessages
                    (setMessages Sample.session
                       (map Sample.msg [1; 2; 3; 4; 5; 6; 7])) kept),
        println "  Compacted. Kept last 4 messages." Sample.world))
  /\
  handleSlashCommand "/compact"
    (setMessages Sample.session (map Sample.msg [1; 2; 3; 4; 5; 6]))
    Sample.world
  = (Continue (setMessages Sample.session (map Sample.msg [1; 2; 3; 4; 5; 6])),
     println "  Conversation is already short." Sample.world).
Proof.
  split.
  - apply (proj1 (compact_keeps_last_four
                    (setMessages Sample.session
                       (map Sample.msg [1; 2; 3; 4; 5; 6; 7]))
                    Sample.world)).
    simpl; lia.
  - apply (proj2 (compact_keeps_last_four
                    (setMessages Sample.session
                       (map Sample.msg [1; 2; 3; 4; 5; 6]))
                    Sample.world)).
    simpl; lia.
Defined.

(** The first listing resolves a partial name as C5 says: one candidate
    is dispatched, several are reported as ambiguous and none is
    dispatched, no candidate is reported as unknown. *)
Lemma listing1_resolves_partial_names (input : string) (ctx : Session) (w : World) :
  exact input = None ->
  (forall c, candidates input = [c] ->
     Listing1.repl_slash input ctx w
     = Listing1.handleSlashCommand (name c) ctx w)
  /\
  (2 <= length (candidates input) ->
     Listing1.repl_slash input ctx w
     = (Continue ctx,
        println ("  Ambiguous. Did you mean: "
                 ++ Text.join ", " (map name (candidates input)) ++ "?") w))
  /\
  (candidates input = [] ->
     Listing1.repl_slash input ctx w
     = (Continue ctx,
        println ("  Unknown command: " ++ input
                 ++ ". Type / to see all commands.") w)).
Proof.
  unfold exact, candidates, Listing1.repl_slash. intros ->.
  repeat split.
  - intros c ->. reflexivity.
  - intros H.
    destruct (filter (fun c => Text.startsWith (name c) input) SLASH_COMMANDS)
      as [|c1 [|c2 more]]; simpl in H; try lia. reflexivity.
  - intros ->. reflexivity.
Qed.

(** The second listing dispatches a single candidate and reports
    everything else as unknown. *)
Lemma repl_slash_partial_names (text : string) (ctx : Session) (w : World) :
  exact text = None ->
  (forall c, candidates text = [c] ->
     repl_slash text ctx w = handleSlashCommand (name c) ctx w)
  /\
  (length (candidates text) <> 1 ->
     repl_slash text ctx w
     = (Continue ctx,
        println ("  Unknown command: " ++ text ++ ". Type / to see all.") w)).
Proof.
  unfold exact, candidates, repl_slash. intros ->. split.
  - intros c ->. reflexivity.
  - intros H.
    destruct (filter (fun c => Text.startsWith (name c) text) SLASH_COMMANDS)
      as [|c1 [|c2 more]]; simpl in H; try lia; reflexivity.
Qed.

(** C5 at the input [/c], which line input delivers on a terminal when
    it is typed behind a blank or arrives in one chunk, as pasted text
    does: the text is not the lone "/" that opens the palette, so [repl]
    takes its typed-slash branch.  Four entries start with it.  The
    [repl] of the second listing prints the unknown-command report; the
    [repl] of the first listing prints the ambiguity report with the
    candidates.  Neither runs a handler: the Session is unchanged and the
    world is only extended by the report. *)
Theorem repl_slash_ambiguous_prefix (ctx : Session) (w : World) :
  rawInput (Sample.tty false) None [" "; "/"; "c"; Sample.CR]
  = Resolved (Some {| text := "/c"; isSlash := false |}) (Sample.tty false) /\
  rawInput (Sample.tty false) None ["/c"; Sample.CR]
  = Resolved (Some {| text := "/c"; isSlash := false |}) (Sample.tty false) /\
  Text.startsWith "/c" "/" = true /\
  exact "/c" = None /\
  map name (candidates "/c") = ["/clear"; "/config"; "/cost"; "/compact"] /\
  repl_slash "/c" ctx w
  = (Continue ctx, println "  Unknown command: /c. Type / to see all." w) /\
  Listing1.repl_slash "/c" ctx w
  = (Continue ctx,
     println "  Ambiguous. Did you mean: /clear, /config, /cost, /compact?" w).
Proof. repeat split. Qed.

End SlashClaims.

(** ** The chat loop *)

Section ChatFacts.
Context {RT : Runtime}.

Ltac split_cases :=
  repeat match goal with
         | |- context [match ?x with _ => _ end] => destruct x
         | |- context [if ?b then _ else _] => destruct b
         end.

Lemma execToolRun_requests (command : value) (w : World) :
  requests (snd (execToolRun command w)) = requests w.
Proof. unfold execToolRun, ask. cbn [fst snd]. split_cases; reflexivity. Qed.

Lemma execToolEdit_requests (filepath content : value) (w : World) :
  requests (snd (execToolEdit filepath content w)) = requests w.
Proof. unfold execToolEdit, ask. split_cases; reflexivity. Qed.

Lemma dispatchTool_requests (name : string) (args : value) (w : World) :
  requests (snd (dispatchTool name args w)) = requests w.
Proof.
  unfold dispatchTool.
  destruct (String.eqb name "tool_run").
  - destruct (getProperty args "command") as [command|]; [|reflexivity].
    pose proof (execToolRun_requests command w) as H.
    destruct (execToolRun command w). exact H.
  - destruct (String.eqb name "tool_edit"); [|reflexivity].
    destruct (getProperty args "filepath"); [|reflexivity].
    destruct (getProperty args "content"); [|reflexivity].
    apply execToolEdit_requests.
Qed.

(** The [for] loop only appends, one entry per call, in order, each
    with the id of its call, and sends nothing. *)
Lemma executeTools_entries (tcs : list ToolCall) :
  forall apiMessages w apiMessages' w',
    executeTools tcs apiMessages w = (Normal apiMessages', w') ->
    exists entries,
      apiMessages' = (apiMessages ++ entries)%list /\ answers tcs entries.
Proof.
  induction tcs as [|tc rest IH]; intros msgs w msgs' w' H; simpl in H.
  - injection H as <- _. exists []. split; [now rewrite app_nil_r|constructor].
  - destruct (dispatchTool (function_name tc)
                (parseArguments (function_arguments tc)) w)
      as [[result|site] w1]; [|discriminate].
    apply IH in H as (entries & -> & Hans).
    exists (ToolEntry (output result) (tc_id tc) :: entries). split.
    + now rewrite <- app_assoc.
    + constructor; [now exists (output result)|exact Hans].
Qed.

Lemma executeTools_requests (tcs : list ToolCall) :
  forall apiMessages w,
    requests (snd (executeTools tcs apiMessages w)) = requests w.
Proof.
  induction tcs as [|tc rest IH]; intros msgs w; simpl; [reflexivity|].
  pose proof (dispatchTool_requests (function_name tc)
                (parseArguments (function_arguments tc)) w) as H.
  destruct (dispatchTool (function_name tc)
              (parseArguments (function_arguments tc)) w)
    as [[result|site] w1]; simpl in H.
  - now rewrite IH.
  - exact H.
Qed.

(** [dispatchTool] returns a result for the calls that [completes]
    singles out. *)
Lemma dispatchTool_completes (tc : ToolCall) (w : World) :
  completes tc = true ->
  exists result w',
    dispatchTool (function_name tc) (parseArguments (function_arguments tc)) w
    = (Normal result, w').
Proof.
  unfold completes, dispatchTool.
  destruct (String.eqb (function_name tc) "tool_run").
  - destruct (getProperty _ "command") as [command|]; [|discriminate].
    intros _. destruct (execToolRun command w) as [r w']. now exists r, w'.
  - destruct (String.eqb (function_name tc) "tool_edit").
    + destruct (getProperty _ "filepath") as [[[| | |fp| |]|]|];
        try discriminate.
      destruct (getProperty _ "content") as [[[| | |text| |]|]|];
        try discriminate.
      intros _. unfold execToolEdit.
      destruct (ask _ _) as [answer w2].
      destruct (denied answer); [eauto|].
      destruct (fs_write _ _ _); eauto.
    + intros _. eauto.
Qed.

(** ... and for no other call. *)
Lemma dispatchTool_throws (tc : ToolCall) (w : World) :
  completes tc = false ->
  exists site,
    dispatchTool (function_name tc) (parseArguments (function_arguments tc)) w
    = (Throws site, w).
Proof.
  unfold completes, dispatchTool.
  destruct (String.eqb (function_name tc) "tool_run").
  - destruct (getProperty _ "command") as [command|site]; [discriminate|].
    intros _. now exists site.
  - destruct (String.eqb (function_name tc) "tool_edit"); [|discriminate].
    destruct (getProperty _ "filepath") as [filepath|site];
      [|intros _; now exists site].
    destruct (getProperty _ "content") as [content|site];
      [|intros _; now exists site].
    unfold execToolEdit.
    destruct filepath as [[| | |fp| |]|]; try solve [intros _; eauto].
    destruct content as [[| | |text| |]|]; try solve [intros _; eauto].
    intros H. discriminate H.
Qed.

Lemma executeTools_completes (tcs : list ToolCall) :
  forallb completes tcs = true ->
  forall apiMessages w,
  exists apiMessages' w',
    executeTools tcs apiMessages w = (Normal apiMessages', w').
Proof.
  induction tcs as [|tc rest IH]; intros H msgs w; simpl.
  - eauto.
  - simpl in H. apply andb_true_iff in H as [Htc Hrest].
    destruct (dispatchTool_completes tc w Htc) as (r & w1 & ->).
    apply IH. exact Hrest.
Qed.

(** The [for] loop over a list in two parts: the second part runs from
    where the first one ends, unless the first one throws. *)
Lemma executeTools_app (done after : list ToolCall) :
  forall apiMessages w,
    executeTools (done ++ after)%list apiMessages w
    = match executeTools done apiMessages w with
      | (Normal apiMessages', w') => executeTools after apiMessages' w'
      | (Throws site, w') => (Throws site, w')
      end.
Proof.
  induction done as [|tc done IH]; intros msgs w; [reflexivity|].
  cbn [app executeTools].
  destruct (dispatchTool (function_name tc)
              (parseArguments (function_arguments tc)) w)
    as [[result|site] w1]; [apply IH|reflexivity].
Qed.

(** The world in which the tools of a round run: the request is sent
    and the text that came with the calls, if any, is printed. *)
Lemma round_start_requests (config : Config) (content : option string)
  (apiMessages : list ApiMessage) (w : World) :
  requests (match orNull content with
            | Some text => printReply (Text.stripThinking text)
                             (send config apiMessages w)
            | None => send config apiMessages w
            end)
  = (requests w ++ [request config apiMessages])%list.
Proof.
  destruct (orNull content); [|reflexivity].
  unfold printReply. now destruct (nonEmpty _).
Qed.

Lemma printReply_requests (cleaned : string) (w : World) :
  requests (printReply cleaned w) = requests w.
Proof. unfold printReply. now destruct (nonEmpty cleaned). Qed.

(** Every pass of the loop sends the transcript it holds first. *)
Lemma chatLoop_first_request (config : Config) (script : list FetchOutcome) :
  forall apiMessages w,
  exists later,
    requests (snd (chatLoop config script apiMessages w))
    = (requests w ++ request config apiMessages :: later)%list.
Proof.
  induction script as [|f rest IH]; intros msgs w.
  - exists []. reflexivity.
  - destruct f as [errMessage|status errText|d]; try (exists []; reflexivity).
    cbn [chatLoop].
    destruct (choices d) as [|choice others]; [exists []; reflexivity|].
    destruct (msg_tool_calls (message choice)) as [|tc tcs] eqn:Etcs.
    + exists []. cbn [snd]. now rewrite printReply_requests.
    + set (w1 := match orNull (msg_content (message choice)) with
                 | Some text => printReply (Text.stripThinking text)
                                  (send config msgs w)
                 | None => send config msgs w
                 end).
      assert (Hw1 : requests w1 = (requests w ++ [request config msgs])%list).
      { subst w1. destruct (orNull _); [apply printReply_requests|reflexivity]. }
      pose proof (executeTools_requests (tc :: tcs)
                    (msgs ++ [AssistantCalls (orNull (msg_content (message choice)))
                                (tc :: tcs)]) w1) as Hreq.
      destruct (executeTools (tc :: tcs) _ w1) as [[msgs2|site] w2];
        cbn [snd] in Hreq.
      * destruct (isStop (finish_reason choice)).
        -- exists []. cbn [snd]. now rewrite Hreq, Hw1.
        -- destruct (IH msgs2 w2) as (later & ->).
           exists (request config msgs2 :: later).
           rewrite Hreq, Hw1, <- app_assoc. reflexivity.
      * exists []. cbn [snd]. now rewrite Hreq, Hw1.
Qed.

(** After a tool round the loop goes on with the next fetch outcome. *)
Lemma chatLoop_toolRound (config : Config) (d : Data) (rest : list FetchOutcome)
  (apiMessages : list ApiMessage) (w : World) :
  toolRound d = true ->
  exists apiMessages' w',
    chatLoop config (Json d :: rest) apiMessages w
    = chatLoop config rest apiMessages' w'.
Proof.
  unfold toolRound. cbn [chatLoop].
  destruct (choices d) as [|choice others]; [discriminate|].
  destruct (msg_tool_calls (message choice)) as [|tc tcs]; [discriminate|].
  intros H. apply andb_true_iff in H as [Hc Hs].
  apply negb_true_iff in Hs. rewrite Hs.
  match goal with
  | |- context [executeTools ?l ?m ?v] =>
      destruct (executeTools_completes l Hc m v) as (msgs2 & w2 & ->)
  end.
  now exists msgs2, w2.
Qed.

Lemma chatLoop_toolRounds (config : Config) (rounds : list Data)
  (rest : list FetchOutcome) :
  forallb toolRound rounds = true ->
  forall apiMessages w,
  exists apiMessages' w',
    chatLoop config (map Json rounds ++ rest) apiMessages w
    = chatLoop config rest apiMessages' w'.
Proof.
  induction rounds as [|d rounds IH]; intros H msgs w.
  - now exists msgs, w.
  - simpl in H. apply andb_true_iff in H as [Hd Hrounds].
    change (map Json (d :: rounds) ++ rest)%list
      with (Json d :: (map Json rounds ++ rest))%list.
    destruct (chatLoop_toolRound config d (map Json rounds ++ rest) msgs w Hd)
      as (msgs1 & w1 & ->).
    apply IH. exact Hrounds.
Qed.

(** After any other response the loop is over: what the script holds
    behind it is never fetched. *)
Lemma chatLoop_ends_unless_toolRound (config : Config) (d : Data)
  (rest rest' : list FetchOutcome) (apiMessages : list ApiMessage) (w : World) :
  toolRound d = false ->
  chatLoop config (Json d :: rest) apiMessages w
  = chatLoop config (Json d :: rest') apiMessages w.
Proof.
  unfold toolRound. cbn [chatLoop].
  destruct (choices d) as [|choice others]; [reflexivity|].
  destruct (msg_tool_calls (message choice)) as [|tc tcs] eqn:Etcs;
    [reflexivity|].
  intros H.
  match goal with
  | |- context [executeTools ?l ?m ?v] =>
      destruct (executeTools l m v) as [[msgs2|site] w2] eqn:Eexec
  end; [|reflexivity].
  destruct (isStop (finish_reason choice)); [reflexivity|].
  rewrite andb_true_r in H.
  exfalso. clear - H Eexec.
  remember (tc :: tcs) as calls eqn:Hcalls. clear Hcalls tc tcs.
  match type of Eexec with
  | executeTools _ ?m ?v = _ => remember m as before; remember v as w1
  end.
  clear Heqbefore Heqw1.
  revert before w1 Eexec.
  induction calls as [|tc calls IH]; intros before w1 Eexec;
    [discriminate|].
  simpl in H. apply andb_false_iff in H as [Htc|Hcalls].
  - simpl in Eexec.
    destruct (dispatchTool_throws tc w1 Htc) as (site & Hthrow).
    rewrite Hthrow in Eexec. discriminate.
  - simpl in Eexec.
    destruct (dispatchTool _ _ w1) as [[r|site] w'']; [|discriminate].
    exact (IH Hcalls _ _ Eexec).
Qed.

(** A failed fetch ends the loop with null and one more console line. *)
Lemma chatLoop_failed (config : Config) (f : FetchOutcome)
  (rest : list FetchOutcome) (apiMessages : list ApiMessage) (w : World) :
  failed f = true ->
  chatLoop config (f :: rest) apiMessages w
  = (Returned None,
     println (LF ++ "  [error] " ++ errorMessage f) (send config apiMessages w)).
Proof. destruct f; [reflexivity|reflexivity|discriminate]. Qed.

(** A response without tool calls ends the loop with a result. *)
Lemma chatLoop_final (config : Config) (d : Data) (choice : Choice)
  (others : list Choice) (rest : list FetchOutcome)
  (apiMessages : list ApiMessage) (w : World) :
  choices d = choice :: others ->
  msg_tool_calls (message choice) = [] ->
  chatLoop config (Json d :: rest) apiMessages w
  = (Returned (Some {|
       res_content := Text.stripThinking (orEmpty (msg_content (message choice)));
       res_promptTokens := usageOr0 prompt_tokens (usage d);
       res_completionTokens := usageOr0 completion_tokens (usage d);
       res_totalTokens := usageOr0 total_tokens (usage d) |}),
     printReply (Text.stripThinking (orEmpty (msg_content (message choice))))
       (send config apiMessages w)).
Proof. intros Hd Htcs. cbn [chatLoop]. rewrite Hd, Htcs. reflexivity. Qed.

End ChatFacts.

Section ChatClaims.
Context {RT : Runtime}.

(** C1.  A response whose first choice carries N >= 1 tool calls.
    When the dispatcher returns for every call, the round appends to the
    transcript, behind the assistant entry, exactly one tool-role entry
    per call, in the order of the calls, each with the id of its call; no
    request is sent meanwhile; and unless the finish reason is a stop the
    loop goes on with that transcript, so that the next request carries
    the assistant entry and all N tool-role entries.
    When the dispatcher throws for a call, as it does for a [tool_edit]
    call whose arguments hold no file path, the exception leaves [chat]:
    only the calls before it have got their entry, fewer than N, the
    calls behind it are not run, and no request follows. *)
Theorem tool_round_answers_every_call (config : Config) (d : Data)
  (choice : Choice) (others : list Choice) (rest : list FetchOutcome)
  (apiMessages : list ApiMessage) (w : World) :
  choices d = choice :: others ->
  msg_tool_calls (message choice) <> [] ->
  let tcs := msg_tool_calls (message choice) in
  let assistant := AssistantCalls (orNull (msg_content (message choice))) tcs in
  let w1 :=
    match orNull (msg_content (message choice)) with
    | Some text => printReply (Text.stripThinking text)
                     (send config apiMessages w)
    | None => send config apiMessages w
    end in
  (forallb completes tcs = true ->
   exists entries w2 later,
     executeTools tcs (apiMessages ++ [assistant])%list w1
     = (Normal (apiMessages ++ assistant :: entries)%list, w2)
     /\ answers tcs entries
     /\ length entries = length tcs
     /\ requests w2 = (requests w ++ [request config apiMessages])%list
     /\ chatLoop config (Json d :: rest) apiMessages w
        = (if isStop (finish_reason choice) then (Returned None, w2)
           else chatLoop config rest (apiMessages ++ assistant :: entries)%list
                  w2)
     /\ requests (snd (chatLoop config (Json d :: rest) apiMessages w))
        = (requests w
           ++ request config apiMessages
              :: (if isStop (finish_reason choice) then []
                  else request config (apiMessages ++ assistant :: entries)
                         :: later))%list)
  /\
  (forall done tc after,
     tcs = (done ++ tc :: after)%list ->
     forallb completes done = true ->
     completes tc = false ->
     exists entries site w2,
       executeTools done (apiMessages ++ [assistant])%list w1
       = (Normal (apiMessages ++ assistant :: entries)%list, w2)
       /\ answers done entries
       /\ length entries < length tcs
       /\ executeTools tcs (apiMessages ++ [assistant])%list w1
          = (Throws site, w2)
       /\ chatLoop config (Json d :: rest) apiMessages w = (Escaped site, w2)
       /\ requests w2 = (requests w ++ [request config apiMessages])%list).
Proof.
  intros Hd Htcs tcs assistant w1.
  assert (Hw1 : requests w1 = (requests w ++ [request config apiMessages])%list)
    by apply round_start_requests.
  assert (Hloop : chatLoop config (Json d :: rest) apiMessages w
                  = match executeTools tcs (apiMessages ++ [assistant])%list w1
                    with
                    | (Normal apiMessages2, w2) =>
                        if isStop (finish_reason choice) then (Returned None, w2)
                        else chatLoop config rest apiMessages2 w2
                    | (Throws site, w2) => (Escaped site, w2)
                    end).
  { subst tcs assistant w1. cbn [chatLoop]. rewrite Hd.
    destruct (msg_tool_calls (message choice)) as [|tc more];
      [contradiction|reflexivity]. }
  split.
  - intros Hall.
    destruct (executeTools_completes tcs Hall (apiMessages ++ [assistant])%list w1)
      as (msgs2 & w2 & Eexec).
    pose proof (executeTools_requests tcs (apiMessages ++ [assistant])%list w1)
      as Hreq.
    rewrite Eexec in Hreq, Hloop. cbn [snd] in Hreq.
    destruct (executeTools_entries tcs _ _ _ _ Eexec) as (entries & -> & Hans).
    rewrite <- app_assoc in Eexec, Hloop. cbn [app] in Eexec, Hloop.
    destruct (chatLoop_first_request config rest
                (apiMessages ++ assistant :: entries)%list w2) as (later & Hnext).
    exists entries, w2, later.
    refine (conj Eexec (conj Hans (conj _ (conj _ (conj Hloop _))))).
    + symmetry. exact (Forall2_length Hans).
    + now rewrite Hreq, Hw1.
    + rewrite Hloop. destruct (isStop (finish_reason choice)).
      * cbn [snd]. now rewrite Hreq, Hw1.
      * rewrite Hnext, Hreq, Hw1, <- app_assoc. reflexivity.
  - intros done tc after Hsplit Hdone Htc.
    destruct (executeTools_completes done Hdone (apiMessages ++ [assistant])%list
                w1) as (msgs2 & w2 & Edone).
    pose proof (executeTools_requests done (apiMessages ++ [assistant])%list w1)
      as Hreq.
    rewrite Edone in Hreq. cbn [snd] in Hreq.
    destruct (executeTools_entries done _ _ _ _ Edone) as (entries & -> & Hans).
    destruct (dispatchTool_throws tc w2 Htc) as (site & Hthrow).
    assert (Eexec : executeTools tcs (apiMessages ++ [assistant])%list w1
                    = (Throws site, w2)).
    { rewrite Hsplit, executeTools_app, Edone. cbn [executeTools].
      now rewrite Hthrow. }
    rewrite Eexec in Hloop.
    rewrite <- app_assoc in Edone. cbn [app] in Edone.
    exists entries, site, w2.
    refine (conj Edone (conj Hans (conj _ (conj Eexec (conj Hloop _))))).
    + rewrite <- (Forall2_length Hans), Hsplit, length_app. cbn [length]. lia.
    + now rewrite Hreq, Hw1.
Qed.

(** C2, as amended.  When the first choice of a response carries no
    tool call, [chat] is done: it returns the content with the thinking
    spans stripped and the ends trimmed, together with the prompt,
    completion and total token counts of the usage metadata, each zero
    when absent, and prints the content when it is not empty. *)
Theorem final_answer_is_returned (config : Config) (d : Data)
  (choice : Choice) (others : list Choice) (rest : list FetchOutcome)
  (apiMessages : list ApiMessage) (w : World) :
  choices d = choice :: others ->
  msg_tool_calls (message choice) = [] ->
  let cleaned := Text.stripThinking (orEmpty (msg_content (message choice))) in
  chatLoop config (Json d :: rest) apiMessages w
  = (Returned (Some {|
       res_content := cleaned;
       res_promptTokens := usageOr0 prompt_tokens (usage d);
       res_completionTokens := usageOr0 completion_tokens (usage d);
       res_totalTokens := usageOr0 total_tokens (usage d) |}),
     if nonEmpty cleaned
     then println (LF ++ "Chalk: " ++ cleaned) (send config apiMessages w)
     else send config apiMessages w).
Proof.
  intros Hd Htcs cleaned.
  rewrite (chatLoop_final config d choice others rest apiMessages w Hd Htcs).
  reflexivity.
Qed.

(** C3.  When a fetch fails, at the first request of a turn or after
    any number of tool rounds, [chat] logs the error and returns null,
    and the Session that [repl] holds afterwards is the one before the
    turn with the user message appended: no assistant message, the three
    counters unchanged. *)
Theorem failed_fetch_leaves_session (config : Config)
  (systemPrompt userText : string) (rounds : list Data) (f : FetchOutcome)
  (rest : list FetchOutcome) (ctx : Session) (w : World) :
  forallb toolRound rounds = true ->
  failed f = true ->
  let script := (map Json rounds ++ f :: rest)%list in
  let ctx1 :=
    setMessages ctx
      (messages ctx ++ [{| role := "user"; content := userText |}]) in
  exists w',
    chat config systemPrompt (messages ctx1) script w = (Returned None, w')
    /\ repl_message config systemPrompt userText script ctx w
       = (TurnDone ctx1, w')
    /\ exists before,
         console w'
         = (before ++ [Line (LF ++ "  [error] " ++ errorMessage f)])%list.
Proof.
  intros Hrounds Hf script ctx1.
  unfold repl_message. fold ctx1. unfold chat. subst script.
  destruct (chatLoop_toolRounds config rounds (f :: rest) Hrounds
              (Plain "system" systemPrompt
               :: map (fun m => Plain (role m) (content m)) (messages ctx1)) w)
    as (msgs' & w1 & ->).
  rewrite (chatLoop_failed config f rest msgs' w1 Hf).
  eexists. repeat split. now exists (console w1).
Qed.

(** C10.  In a turn made of tool rounds and a final answer, the token
    counts [chat] returns are those of the final response (zero where
    absent), and the Session counters grow by exactly these: the usage of
    the earlier responses, whatever it is, is not added. *)
Theorem only_final_usage_is_counted (config : Config)
  (systemPrompt userText : string) (rounds : list Data) (final : Data)
  (rest : list FetchOutcome) (ctx : Session) (w : World) :
  forallb toolRound rounds = true ->
  finalAnswer final = true ->
  let script := (map Json rounds ++ Json final :: rest)%list in
  let ctx1 :=
    setMessages ctx
      (messages ctx ++ [{| role := "user"; content := userText |}]) in
  exists result ctx' w',
    chat config systemPrompt (messages ctx1) script w
    = (Returned (Some result), w')
    /\ res_promptTokens result = usageOr0 prompt_tokens (usage final)
    /\ res_completionTokens result = usageOr0 completion_tokens (usage final)
    /\ res_totalTokens result = usageOr0 total_tokens (usage final)
    /\ repl_message config systemPrompt userText script ctx w
       = (TurnDone ctx', w')
    /\ promptTokens ctx'
       = (promptTokens ctx + usageOr0 prompt_tokens (usage final))%Z
    /\ completionTokens ctx'
       = (completionTokens ctx + usageOr0 completion_tokens (usage final))%Z
    /\ totalTokens ctx'
       = (totalTokens ctx + usageOr0 total_tokens (usage final))%Z.
Proof.
  intros Hrounds Hfinal script ctx1.
  unfold repl_message. fold ctx1. unfold chat. subst script.
  destruct (chatLoop_toolRounds config rounds (Json final :: rest) Hrounds
              (Plain "system" systemPrompt
               :: map (fun m => Plain (role m) (content m)) (messages ctx1)) w)
    as (msgs' & w1 & ->).
  unfold finalAnswer in Hfinal.
  destruct (choices final) as [|choice others] eqn:Hd; [discriminate|].
  destruct (msg_tool_calls (message choice)) eqn:Htcs; [|discriminate].
  rewrite (chatLoop_final config final choice others rest msgs' w1 Hd Htcs).
  do 3 eexists. repeat split.
Qed.

End ChatClaims.

Lemma tool_round_answers_every_call_witness :
  let RT := Sample.runtime "y" in
  let transcript := [Plain "user" "list files"] in
  let final := Sample.response (Some "Done.") [] (Some "stop") None in
  (exists entries later,
     answers [Sample.ls; Sample.pwd] entries
     /\ length entries = 2
     /\ requests
          (snd (chatLoop Sample.config
                  [Json (Sample.response (Some "On it.")
                           [Sample.ls; Sample.pwd] None None);
                   Json final]
                  transcript Sample.world))
        = request Sample.config transcript
          :: request Sample.config
               (transcript
                ++ AssistantCalls (Some "On it.") [Sample.ls; Sample.pwd]
                   :: entries)%list
          :: later)
  /\
  (exists site w2,
     chatLoop Sample.config
       [Json (Sample.response None [Sample.ls; Sample.broken_edit] None None);
        Json final]
       transcript Sample.world
     = (Escaped site, w2)
     /\ requests w2 = [request Sample.config transcript]).
Proof.
  intros RT transcript final. split.
  - destruct (tool_round_answers_every_call (RT := RT) Sample.config
                (Sample.response (Some "On it.") [Sample.ls; Sample.pwd] None None)
                {| message := {| msg_content := Some "On it.";
                                 msg_tool_calls := [Sample.ls; Sample.pwd] |};
                   finish_reason := None |}
                [] [Json final] transcript Sample.world
                eq_refl ltac:(discriminate))
      as [Hall _].
    destruct (Hall eq_refl)
      as (entries & w2 & later & _ & Hans & Hlen & _ & _ & Hreq).
    exists entries, later. exact (conj Hans (conj Hlen Hreq)).
  - destruct (tool_round_answers_every_call (RT := RT) Sample.config
                (Sample.response None [Sample.ls; Sample.broken_edit] None None)
                {| message := {| msg_content := None;
                                 msg_tool_calls := [Sample.ls; Sample.broken_edit] |};
                   finish_reason := None |}
                [] [Json final] transcript Sample.world
                eq_refl ltac:(discriminate))
      as [_ Hthrows].
    destruct (Hthrows [Sample.ls] Sample.broken_edit [] eq_refl eq_refl eq_refl)
      as (entries & site & w2 & _ & _ & _ & _ & Hloop & Hreq).
    exists site, w2. exact (conj Hloop Hreq).
Defined.

Lemma final_answer_is_returned_witness :
  chatLoop (RT := Sample.runtime EmptyString) Sample.config
    [Json (Sample.response (Some " <think>hm</think>Hello ") [] (Some "stop")
             (Some {| prompt_tokens := Some 12%Z; completion_tokens := None;
                      total_tokens := Some 15%Z |}))]
    [Plain "user" "hi"] Sample.world
  = (Returned (Some {| res_content := "Hello"; res_promptTokens := 12;
                       res_completionTokens := 0; res_totalTokens := 15 |}),
     println (LF ++ "Chalk: Hello")
       (send Sample.config [Plain "user" "hi"] Sample.world)).
Proof.
  apply (final_answer_is_returned (RT := Sample.runtime EmptyString)
           Sample.config
           (Sample.response (Some " <think>hm</think>Hello ") [] (Some "stop")
              (Some {| prompt_tokens := Some 12%Z; completion_tokens := None;
                       total_tokens := Some 15%Z |}))
           {| message := {| msg_content := Some " <think>hm</think>Hello ";
                            msg_tool_calls := [] |};
              finish_reason := Some "stop" |}
           [] [] [Plain "user" "hi"] Sample.world eq_refl eq_refl).
Defined.

(** C2 as stated fails: a response whose finish reason is a stop and
    that carries a tool call ends the loop, and [chat] returns null, not
    the content with the token counts. *)
Lemma stop_with_tool_calls_returns_null :
  let d := Sample.response (Some "Done.") [Sample.ls] (Some "stop")
             (Sample.usageOf 5 7 12) in
  isStop (Some "stop") = true /\
  fst (chat (RT := Sample.runtime EmptyString) Sample.config "system" []
         [Json d] Sample.world)
  = Returned None /\
  fst (chat (RT := Sample.runtime EmptyString) Sample.config "system" []
         [Json d] Sample.world)
  <> Returned (Some {| res_content := "Done."; res_promptTokens := 5;
                       res_completionTokens := 7; res_totalTokens := 12 |}).
Proof. repeat split. discriminate. Qed.

Lemma failed_fetch_leaves_session_witness :
  let round := Sample.response None [Sample.ls] (Some "tool_calls")
                 (Sample.usageOf 100 50 150) in
  let ctx := {| messages := [Sample.msg 1]; totalTokens := 30;
                promptTokens := 20; completionTokens := 10 |} in
  exists w',
    chat (RT := Sample.runtime EmptyString) Sample.config "system"
      [Sample.msg 1; {| role := "user"; content := "next" |}]
      [Json round; NotOk 500 "overloaded"] Sample.world
    = (Returned None, w')
    /\ repl_message (RT := Sample.runtime EmptyString) Sample.config "system"
         "next" [Json round; NotOk 500 "overloaded"] ctx Sample.world
       = (TurnDone {| messages := [Sample.msg 1;
                                   {| role := "user"; content := "next" |}];
                      totalTokens := 30; promptTokens := 20;
                      completionTokens := 10 |}, w')
    /\ exists before,
         console w'
         = (before ++ [Line (LF ++ "  [error] API 500: overloaded")])%list.
Proof.
  intros round ctx.
  apply (failed_fetch_leaves_session (RT := Sample.runtime EmptyString)
           Sample.config "system" "next" [round] (NotOk 500 "overloaded") []
           ctx Sample.world eq_refl eq_refl).
Defined.

Lemma only_final_usage_is_counted_witness :
  let round := Sample.response None [Sample.ls] (Some "tool_calls")
                 (Sample.usageOf 100 50 150) in
  let final := Sample.response (Some "Done.") [] (Some "stop")
                 (Sample.usageOf 7 3 10) in
  let ctx := {| messages := []; totalTokens := 30; promptTokens := 20;
                completionTokens := 10 |} in
  exists result ctx' w',
    chat (RT := Sample.runtime EmptyString) Sample.config "system"
      [{| role := "user"; content := "go" |}] [Json round; Json final]
      Sample.world
    = (Returned (Some result), w')
    /\ res_promptTokens result = 7%Z
    /\ res_completionTokens result = 3%Z
    /\ res_totalTokens result = 10%Z
    /\ repl_message (RT := Sample.runtime EmptyString) Sample.config "system"
         "go" [Json round; Json final] ctx Sample.world
       = (TurnDone ctx', w')
    /\ promptTokens ctx' = 27%Z
    /\ completionTokens ctx' = 13%Z
    /\ totalTokens ctx' = 40%Z.
Proof.
  intros round final ctx.
  apply (only_final_usage_is_counted (RT := Sample.runtime EmptyString)
           Sample.config "system" "go" [round] final [] ctx Sample.world
           eq_refl eq_refl).
Defined.

(** ** Raw-terminal primitives *)

Section TerminalClaims.

Lemma restore_entered (t : Terminal) :
  isTTY t = true -> restore (isRaw t) (setRawMode true t) = t.
Proof. destruct t as [tty raw]. simpl. now intros ->. Qed.

Lemma feed_scoped {S R : Type} (onKey : S -> Terminal -> string -> Step S R)
  (inv : S -> Prop) (during final : Terminal) :
  (forall st data, inv st ->
     match onKey st during data with
     | Listening st' t' => inv st' /\ t' = during
     | Resolved _ t' => t' = final
     end) ->
  forall keys st, inv st -> scoped during final (feed onKey st during keys).
Proof.
  intros Hstep keys. induction keys as [|data keys IH]; intros st Hst.
  - reflexivity.
  - simpl. specialize (Hstep st data Hst).
    destruct (onKey st during data) as [st' t'|r t'].
    + destruct Hstep as [Hinv ->]. now apply IH.
    + exact Hstep.
Qed.

Lemma scoped_resolved {S R : Type} (during final : Terminal) (s : Step S R) :
  scoped during final s -> resolved s = true -> terminalOf s = final.
Proof. destruct s; [discriminate|]. now intros H _. Qed.

Ltac key_cases :=
  repeat match goal with
         | |- context [if ?b then _ else _] => destruct b
         end.

Lemma showSlashMenu_scoped (t : Terminal) (keys : list string) :
  isTTY t = true ->
  scoped (setRawMode true t) t
    (feed showSlashMenu_onKey
       {| menu_wasRaw := isRaw t; menu_filter := EmptyString;
          menu_selected := 0; menu_filtered := SLASH_COMMANDS |}
       (setRawMode true t) keys).
Proof.
  intros Htty.
  apply feed_scoped with (inv := fun m => menu_wasRaw m = isRaw t);
    [|reflexivity].
  intros m data Hm. unfold showSlashMenu_onKey. rewrite Hm.
  rewrite (restore_entered t Htty).
  key_cases; auto.
Qed.

Lemma boxSelect_scoped (items : list string) (t : Terminal)
  (keys : list string) :
  isTTY t = true ->
  scoped (setRawMode true t) t
    (feed (boxSelect_onKey items)
       {| sel_wasRaw := isRaw t; sel_selected := 0 |}
       (setRawMode true t) keys).
Proof.
  intros Htty.
  apply feed_scoped with (inv := fun st => sel_wasRaw st = isRaw t);
    [|reflexivity].
  intros st data Hst. unfold boxSelect_onKey. rewrite Hst.
  rewrite (restore_entered t Htty).
  key_cases; auto.
Qed.

Lemma boxTextInput_scoped (t : Terminal) (keys : list string) :
  isTTY t = true ->
  scoped (setRawMode true t) t
    (feed boxTextInput_onKey
       {| fld_wasRaw := isRaw t; fld_buf := EmptyString |}
       (setRawMode true t) keys).
Proof.
  intros Htty.
  apply feed_scoped with (inv := fun st => fld_wasRaw st = isRaw t);
    [|reflexivity].
  intros st data Hst. unfold boxTextInput_onKey. rewrite Hst.
  rewrite (restore_entered t Htty).
  key_cases; auto.
Qed.

Lemma showAgentsDialog_scoped (t : Terminal) (keys : list string) :
  isTTY t = true ->
  scoped (setRawMode true t) t
    (feed showAgentsDialog_onKey (isRaw t) (setRawMode true t) keys).
Proof.
  intros Htty.
  apply feed_scoped with (inv := fun wasRaw => wasRaw = isRaw t);
    [|reflexivity].
  intros wasRaw data ->. unfold showAgentsDialog_onKey.
  apply (restore_entered t Htty).
Qed.

Lemma rawInput_scoped (t : Terminal) (keys : list string) :
  isTTY t = true ->
  scoped (setRawMode true t) (setRawMode false t)
    (feed rawInput_onKey EmptyString (setRawMode true t) keys).
Proof.
  intros Htty.
  apply feed_scoped with (inv := fun _ : string => True); [|exact I].
  intros buf data _. unfold rawInput_onKey, rawInput_cleanup.
  cbn [isTTY setRawMode isRaw]. rewrite Htty.
  key_cases; auto.
Qed.

(** Line input sets non-raw mode on every path on which it resolves. *)
Lemma rawInput_leaves_cooked (t : Terminal) (piped : option string)
  (keys : list string) :
  resolved (rawInput t piped keys) = true ->
  terminalOf (rawInput t piped keys)
  = if isTTY t then setRawMode false t else t.
Proof.
  unfold rawInput.
  destruct (isTTY t) eqn:Htty; cbn [negb]; [|reflexivity].
  apply scoped_resolved with (during := setRawMode true t).
  now apply rawInput_scoped.
Qed.

Lemma showSlashMenu_releases (t : Terminal) (keys : list string) :
  resolved (showSlashMenu t keys) = true ->
  terminalOf (showSlashMenu t keys) = t.
Proof.
  unfold showSlashMenu.
  destruct (isTTY t) eqn:Htty; cbn [negb]; [|reflexivity].
  apply scoped_resolved with (during := setRawMode true t).
  now apply showSlashMenu_scoped.
Qed.

Lemma boxSelect_releases (title subtitle : string) (items : list string)
  (footer : string) (t : Terminal) (keys : list string) :
  resolved (boxSelect title subtitle items footer t keys) = true ->
  terminalOf (boxSelect title subtitle items footer t keys) = t.
Proof.
  unfold boxSelect.
  destruct (isTTY t) eqn:Htty; cbn [negb]; [|reflexivity].
  apply scoped_resolved with (during := setRawMode true t).
  now apply boxSelect_scoped.
Qed.

Lemma boxTextInput_releases (title subtitle placeholder : string)
  (t : Terminal) (keys : list string) :
  resolved (boxTextInput title subtitle placeholder t keys) = true ->
  terminalOf (boxTextInput title subtitle placeholder t keys) = t.
Proof.
  unfold boxTextInput.
  destruct (isTTY t) eqn:Htty; cbn [negb]; [|reflexivity].
  apply scoped_resolved with (during := setRawMode true t).
  now apply boxTextInput_scoped.
Qed.

Lemma showAgentsDialog_action_releases (t : Terminal) (keys : list string) :
  resolved (showAgentsDialog_action t keys) = true ->
  terminalOf (showAgentsDialog_action t keys) = t.
Proof.
  unfold showAgentsDialog_action.
  destruct (isTTY t) eqn:Htty; cbn [negb]; [|reflexivity].
  apply scoped_resolved with (during := setRawMode true t).
  now apply showAgentsDialog_scoped.
Qed.

Lemma rawInput_releases (t : Terminal) (piped : option string)
  (keys : list string) :
  isRaw t = false ->
  resolved (rawInput t piped keys) = true ->
  terminalOf (rawInput t piped keys) = t.
Proof.
  intros Hmode Hres. rewrite (rawInput_leaves_cooked t piped keys Hres).
  destruct t as [tty raw]. cbn in *. subst raw. now destruct tty.
Qed.

Lemma released_spec {S R : Type} (s : Step S R) (t' : Terminal) :
  released s = Some t' -> resolved s = true /\ terminalOf s = t'.
Proof. destruct s; [discriminate|]. intros [= <-]. now split. Qed.

(** Entered in non-raw mode, every primitive leaves the terminal as it
    found it. *)
Lemma acquire_releases (p : Primitive) (t t' : Terminal) (keys : list string) :
  isRaw t = false -> acquire p t keys = Some t' -> t' = t.
Proof.
  intros Hmode H.
  destruct p; cbn [acquire] in H; apply released_spec in H as [Hres <-].
  - now apply rawInput_releases.
  - now apply showSlashMenu_releases.
  - now apply boxSelect_releases.
  - now apply boxTextInput_releases.
  - now apply showAgentsDialog_action_releases.
Qed.

(** C8.  The slash palette, the two boxed dialogs and the key wait of
    the agents screen leave the terminal, on every path on which they
    resolve, whatever the keys were, in the mode they found it in,
    whichever that was.  Line input is entered in non-raw mode, the mode
    of a terminal at the start of the program, and leaves the terminal
    in that mode on every path on which it resolves.  So from the start
    of the program on, however the primitives follow one another, each of
    them finds the terminal in non-raw mode and leaves it as it found
    it. *)
Theorem raw_mode_is_released :
  (forall t keys,
     resolved (showSlashMenu t keys) = true ->
     terminalOf (showSlashMenu t keys) = t)
  /\
  (forall title subtitle items footer t keys,
     resolved (boxSelect title subtitle items footer t keys) = true ->
     terminalOf (boxSelect title subtitle items footer t keys) = t)
  /\
  (forall title subtitle placeholder t keys,
     resolved (boxTextInput title subtitle placeholder t keys) = true ->
     terminalOf (boxTextInput title subtitle placeholder t keys) = t)
  /\
  (forall t keys,
     resolved (showAgentsDialog_action t keys) = true ->
     terminalOf (showAgentsDialog_action t keys) = t)
  /\
  (forall t piped keys,
     isRaw t = false ->
     resolved (rawInput t piped keys) = true ->
     terminalOf (rawInput t piped keys) = t)
  /\
  (forall t calls,
     isRaw t = false ->
     Forall (fun ends => fst ends = t /\ snd ends = t) (successive t calls)).
Proof.
  refine (conj showSlashMenu_releases
           (conj boxSelect_releases
             (conj boxTextInput_releases
               (conj showAgentsDialog_action_releases
                 (conj rawInput_releases _))))).
  intros t calls Hmode.
  induction calls as [|[p keys] calls IH]; [constructor|].
  cbn [successive].
  destruct (acquire p t keys) as [t'|] eqn:Hp; [|constructor].
  apply (acquire_releases p t t' keys Hmode) in Hp. subst t'.
  constructor; [now split|exact IH].
Qed.

Lemma raw_mode_is_released_witness :
  terminalOf (showSlashMenu (Sample.tty true) ["c"; Sample.DOWN; Sample.CR])
  = Sample.tty true
  /\ terminalOf (boxSelect "Agents" "" ["Project"; "Personal"] ""
                   (Sample.tty true) [Sample.DOWN; Sample.CR])
     = Sample.tty true
  /\ terminalOf (boxTextInput "Name" "" "" (Sample.tty true)
                   ["a"; Sample.ESC])
     = Sample.tty true
  /\ terminalOf (showAgentsDialog_action (Sample.tty true) [Sample.CR])
     = Sample.tty true
  /\ terminalOf (rawInput (Sample.tty false) None ["h"; "i"; Sample.CR])
     = Sample.tty false
  /\ Forall (fun ends => fst ends = Sample.tty false
                         /\ snd ends = Sample.tty false)
       (successive (Sample.tty false)
          [(RawInput None, ["/"]);
           (SlashMenu, ["a"; "g"; Sample.CR]);
           (AgentsKeyWait, [Sample.CR]);
           (BoxSelect "Create new agent" "Choose location"
              ["Project"; "Personal"] "", [Sample.DOWN; Sample.CR]);
           (BoxTextInput "Create new agent" "Describe" "", [Sample.ESC]);
           (RawInput None, [Sample.CTRL_C]);
           (RawInput None, [String (ascii_of_nat 4) EmptyString])]).
Proof.
  destruct raw_mode_is_released
    as (Hmenu & Hselect & Hfield & Hwait & Hline & Hall).
  refine (conj _ (conj _ (conj _ (conj _ (conj _ _))))).
  - apply Hmenu. reflexivity.
  - apply Hselect. reflexivity.
  - apply Hfield. reflexivity.
  - apply Hwait. reflexivity.
  - apply Hline; reflexivity.
  - apply Hall. reflexivity.
Defined.

(** C9.  On an input stream that is not a terminal the boxed list
    selector resolves at once with index 0, the first item, whatever the
    items and the keys; the slash palette and the boxed text input
    resolve at once with null, their cancelled value.  The cancelled
    value of the selector, which Escape yields on a terminal, is -1. *)
Theorem selector_defaults_to_first_item
  (title subtitle footer placeholder : string) (items : list string)
  (t : Terminal) (keys : list string) :
  isTTY t = false ->
  boxSelect title subtitle items footer t keys = Resolved 0%Z t
  /\ showSlashMenu t keys = Resolved None t
  /\ boxTextInput title subtitle placeholder t keys = Resolved None t
  /\ forall raw,
       boxSelect title subtitle items footer
         {| isTTY := true; isRaw := raw |} (Sample.ESC :: keys)
       = Resolved (-1)%Z {| isTTY := true; isRaw := raw |}.
Proof.
  intros Htty. unfold boxSelect, showSlashMenu, boxTextInput.
  rewrite Htty. cbn [negb]. repeat split.
Qed.

Lemma selector_defaults_to_first_item_witness :
  boxSelect "Location" "" ["Project"; "Personal"] "" (Sample.pipe false) []
  = Resolved 0%Z (Sample.pipe false)
  /\ showSlashMenu (Sample.pipe false) [] = Resolved None (Sample.pipe false)
  /\ boxTextInput "Location" "" "" (Sample.pipe false) []
     = Resolved None (Sample.pipe false).
Proof.
  destruct (selector_defaults_to_first_item "Location" "" "" ""
              ["Project"; "Personal"] (Sample.pipe false) [] eq_refl)
    as (Hselect & Hmenu & Hfield & _).
  exact (conj Hselect (conj Hmenu Hfield)).
Defined.

End TerminalClaims.

(** ** The model at work *)

Section Examples.

Example strip_nested_open :
  Text.stripThinking "<think>a<think>b</think>c</think>" = "c</think>".
Proof. reflexivity. Qed.

Example strip_unterminated :
  Text.stripThinking "  <think>a</think>  hello <think>b" = "hello".
Proof. reflexivity. Qed.

Example palette_filter_and_arrow :
  showSlashMenu (Sample.tty false) ["c"; "o"; Sample.DOWN; Sample.CR]
  = Resolved (Some "/config") (Sample.tty false).
Proof. reflexivity. Qed.

Example selector_clamps_at_last_item :
  boxSelect "Location" "" ["Project"; "Personal"] "" (Sample.tty false)
    [Sample.DOWN; Sample.DOWN; Sample.DOWN; Sample.CR]
  = Resolved 1%Z (Sample.tty false).
Proof. reflexivity. Qed.

Example instant_slash_trigger :
  rawInput (Sample.tty false) None ["/"; "h"; Sample.CR]
  = Resolved (Some {| text := "/"; isSlash := true |}) (Sample.tty false).
Proof. reflexivity. Qed.

Example one_tool_round_then_answer :
  let round := Sample.response (Some "Listing.") [Sample.ls] None
                 (Sample.usageOf 100 50 150) in
  let final := Sample.response (Some "Done.") [] (Some "stop")
                 (Sample.usageOf 7 3 10) in
  let run := chat (RT := Sample.runtime "y") Sample.config "system"
               [{| role := "user"; content := "list files" |}]
               [Json round; Json final] Sample.world in
  fst run
  = Returned (Some {| res_content := "Done."; res_promptTokens := 7;
                      res_completionTokens := 3; res_totalTokens := 10 |})
  /\ executed (snd run) = ["ls"]
  /\ map req_messages (requests (snd run))
     = [[Plain "system" "system"; Plain "user" "list files"];
        [Plain "system" "system"; Plain "user" "list files";
         AssistantCalls (Some "Listing.") [Sample.ls];
         ToolEntry "ran ls" "call_1"]].
Proof. repeat split. Qed.

Example malformed_edit_arguments_escape :
  fst (dispatchTool (RT := Sample.runtime "y") "tool_edit"
         (parseArguments (RT := Sample.runtime "y") (ArgText "{not json"))
         Sample.world)
  = Throws "path.resolve(filepath)".
Proof. reflexivity. Qed.

End Examples.

(** * Further properties of the embedded code *)

(** ** The thinking strip, for every content *)

Section StripAlways.
Import Spans.

Lemma trimStart_suffix (s : string) :
  exists blank, s = blank ++ Text.trimStart s.
Proof.
  induction s as [|c s [blank IH]].
  - now exists EmptyString.
  - simpl. destruct (Text.isWhiteSpace c).
    + exists (String c blank). simpl. now rewrite <- IH.
    + now exists EmptyString.
Qed.

Lemma trimEnd_prefix (s : string) :
  exists blank, s = Text.trimEnd s ++ blank.
Proof.
  induction s as [|c s [blank IH]].
  - now exists EmptyString.
  - simpl. destruct (Text.trimEnd s) as [|d t] eqn:E.
    + destruct (Text.isWhiteSpace c).
      * now exists (String c s).
      * exists s. reflexivity.
    + exists blank. simpl. now rewrite IH at 1.
Qed.

Lemma trimStart_head (s : string) :
  Text.trimStart s = EmptyString
  \/ exists c r, Text.trimStart s = String c r /\ Text.isWhiteSpace c = false.
Proof.
  induction s as [|c s IH]; [now left|].
  simpl. destruct (Text.isWhiteSpace c) eqn:E; [exact IH|].
  right. now exists c, s.
Qed.

Lemma trimEnd_idempotent (s : string) :
  Text.trimEnd (Text.trimEnd s) = Text.trimEnd s.
Proof.
  induction s as [|c s IH]; [reflexivity|].
  simpl. destruct (Text.trimEnd s) as [|d t] eqn:E.
  - destruct (Text.isWhiteSpace c) eqn:W; [reflexivity|].
    simpl. now rewrite W.
  - change (Text.trimEnd (String c (String d t)))
      with (match Text.trimEnd (String d t) with
            | EmptyString =>
                if Text.isWhiteSpace c then EmptyString
                else String c EmptyString
            | String x u => String c (String x u)
            end).
    now rewrite IH.
Qed.

Lemma trim_idempotent (s : string) : Text.trim (Text.trim s) = Text.trim s.
Proof.
  unfold Text.trim.
  destruct (trimStart_head s) as [E|(c & r & E & W)]; rewrite E.
  - reflexivity.
  - assert (H : exists u, Text.trimEnd (String c r) = String c u).
    { simpl. destruct (Text.trimEnd r); [rewrite W|]; eauto. }
    destruct H as [u Hu]. rewrite Hu.
    change (Text.trimStart (String c u))
      with (if Text.isWhiteSpace c then Text.trimStart u else String c u).
    rewrite W, <- Hu. apply trimEnd_idempotent.
Qed.

Lemma trim_absent (p s : string) : absent p s -> absent p (Text.trim s).
Proof.
  intros H. unfold Text.trim.
  destruct (trimStart_suffix s) as [b1 H1].
  destruct (trimEnd_prefix (Text.trimStart s)) as [b2 H2].
  rewrite H1 in H. apply absent_append_r in H.
  rewrite H2 in H. now apply absent_append_l in H.
Qed.

Lemma removeOpen_prefix (s : string) :
  exists cut, s = Text.removeOpen s ++ cut.
Proof.
  induction s as [|c s [cut IH]].
  - now exists EmptyString.
  - cbn [Text.removeOpen].
    destruct (Text.startsWith (String c s) Text.OPEN).
    + now exists (String c s).
    + exists cut. simpl. now rewrite IH at 1.
Qed.

Lemma removeOpen_absent (s : string) : absent Text.OPEN (Text.removeOpen s).
Proof.
  unfold absent. induction s as [|c s IH]; [reflexivity|].
  cbn [Text.removeOpen].
  destruct (Text.startsWith (String c s) Text.OPEN) eqn:E; [reflexivity|].
  cbn [Text.indexOf]. rewrite IH.
  destruct (Text.startsWith (String c (Text.removeOpen s)) Text.OPEN) eqn:F;
    [|reflexivity].
  destruct (removeOpen_prefix s) as [cut Hcut].
  apply startsWith_grow with (r := cut) in F.
  change (String c (Text.removeOpen s) ++ cut)
    with (String c (Text.removeOpen s ++ cut)) in F.
  rewrite <- Hcut in F. congruence.
Qed.

(** X1.  Whatever the content, the text [chat] displays and returns holds
    no opening thinking delimiter. *)
Theorem stripThinking_leaves_no_opening (content : string) :
  absent Text.OPEN (Text.stripThinking content).
Proof.
  unfold Text.stripThinking. apply trim_absent. apply removeOpen_absent.
Qed.

(** X2.  Stripping is idempotent: a text that [chat] returned, sent
    through the strip again, comes back unchanged. *)
Theorem stripThinking_idempotent (content : string) :
  Text.stripThinking (Text.stripThinking content) = Text.stripThinking content.
Proof.
  pose proof (removeOpen_absent (Text.removeClosed 0 content)) as H.
  apply trim_absent in H.
  unfold Text.stripThinking at 1.
  fold (Text.stripThinking content) in H.
  rewrite (removeClosed_plain _ H).
  rewrite <- (append_empty_r (Text.stripThinking content)) at 1.
  change EmptyString with (openTail None) at 1.
  rewrite (removeOpen_openTail _ None H).
  unfold Text.stripThinking. apply trim_idempotent.
Qed.

End StripAlways.

(** ** The tool dispatcher, further *)

Section ToolFacts.
Context {RT : Runtime}.

Ltac tool_cases :=
  repeat match goal with
         | |- context [match ?x with _ => _ end] => destruct x
         | |- context [if ?b then _ else _] => destruct b
         end.

(** X3.  A round whose calls all name tools the dispatcher does not know
    asks nothing, runs nothing and writes nothing: the world is left as it
    was, whatever the arguments of the calls are, and the transcript gets
    one "Unknown tool" entry per call, in order, under the id of the
    call. *)
Theorem unknown_tools_change_nothing (tcs : list ToolCall) :
  Forall (fun tc => knownTool (function_name tc) = false) tcs ->
  forall apiMessages w,
    executeTools tcs apiMessages w
    = (Normal (apiMessages ++ map unknownEntry tcs)%list, w).
Proof.
  induction 1 as [|tc tcs Htc _ IH]; intros msgs w; simpl.
  - now rewrite app_nil_r.
  - unfold knownTool in Htc. apply orb_false_iff in Htc as [Hrun Hedit].
    unfold dispatchTool. rewrite Hrun, Hedit. cbn [output].
    rewrite IH, <- app_assoc. reflexivity.
Qed.

Lemma accounted_refl (w : World) : accounted w w.
Proof. unfold accounted. lia. Qed.

Lemma accounted_trans (a b c : World) :
  accounted a b -> accounted b c -> accounted a c.
Proof. unfold accounted. lia. Qed.

Lemma accounted_same (a b c : World) :
  prompts c = prompts b -> executed c = executed b -> written c = written b ->
  accounted a b -> accounted a c.
Proof. unfold accounted, effects. intros -> -> ->. trivial. Qed.

Lemma execToolRun_accounted (command : value) (w : World) :
  accounted w (snd (execToolRun command w)).
Proof.
  unfold execToolRun, ask, accounted, effects. cbn [fst snd].
  tool_cases; cbn; rewrite ?length_app; cbn; lia.
Qed.

Lemma execToolEdit_accounted (filepath content : value) (w : World) :
  accounted w (snd (execToolEdit filepath content w)).
Proof.
  unfold execToolEdit, ask, accounted, effects.
  tool_cases; cbn; rewrite ?length_app; cbn; lia.
Qed.

Lemma dispatchTool_accounted (name : string) (args : value) (w : World) :
  accounted w (snd (dispatchTool name args w)).
Proof.
  unfold dispatchTool.
  destruct (String.eqb name "tool_run").
  - destruct (getProperty args "command") as [command|];
      [|apply accounted_refl].
    pose proof (execToolRun_accounted command w) as H.
    destruct (execToolRun command w). exact H.
  - destruct (String.eqb name "tool_edit"); [|apply accounted_refl].
    destruct (getProperty args "filepath"); [|apply accounted_refl].
    destruct (getProperty args "content"); [|apply accounted_refl].
    apply execToolEdit_accounted.
Qed.

Lemma executeTools_accounted (tcs : list ToolCall) :
  forall apiMessages w, accounted w (snd (executeTools tcs apiMessages w)).
Proof.
  induction tcs as [|tc rest IH]; intros msgs w; simpl;
    [apply accounted_refl|].
  pose proof (dispatchTool_accounted (function_name tc)
                (parseArguments (function_arguments tc)) w) as H.
  destruct (dispatchTool (function_name tc)
              (parseArguments (function_arguments tc)) w)
    as [[result|site] w1]; cbn [snd] in *.
  - eapply accounted_trans; [exact H|apply IH].
  - exact H.
Qed.

Lemma printReply_accounted (a : World) (cleaned : string) (w : World) :
  accounted a w -> accounted a (printReply cleaned w).
Proof.
  unfold printReply. destruct (nonEmpty cleaned); [|trivial].
  now apply accounted_same.
Qed.

Lemma chatLoop_accounted (config : Config) (script : list FetchOutcome) :
  forall apiMessages w,
    accounted w (snd (chatLoop config script apiMessages w)).
Proof.
  induction script as [|f rest IH]; intros msgs w.
  - apply accounted_same with (b := w); try reflexivity. apply accounted_refl.
  - assert (Hsend : accounted w (send config msgs w))
      by (apply accounted_same with (b := w); try reflexivity;
          apply accounted_refl).
    destruct f as [errMessage|status errText|d];
      try (apply accounted_same with (b := w); try reflexivity;
           apply accounted_refl).
    cbn [chatLoop].
    destruct (choices d) as [|choice others];
      [apply accounted_same with (b := w); try reflexivity;
       apply accounted_refl|].
    destruct (msg_tool_calls (message choice)) as [|tc tcs].
    + cbn [snd]. now apply printReply_accounted.
    + set (w1 := match orNull (msg_content (message choice)) with
                 | Some text => printReply (Text.stripThinking text)
                                  (send config msgs w)
                 | None => send config msgs w
                 end).
      assert (Hw1 : accounted w w1).
      { subst w1. destruct (orNull _); [now apply printReply_accounted|].
        exact Hsend. }
      match goal with
      | |- context [executeTools ?l ?m ?v] =>
          pose proof (executeTools_accounted l m v) as Hexec;
          destruct (executeTools l m v) as [[msgs2|site] w2]
      end; cbn [snd] in Hexec.
      * destruct (isStop (finish_reason choice)); cbn [snd].
        -- eapply accounted_trans; eassumption.
        -- eapply accounted_trans; [|apply IH].
           eapply accounted_trans; eassumption.
      * cbn [snd]. eapply accounted_trans; eassumption.
Qed.

(** X4.  Over a whole call of [chat], whatever the model answers, the
    commands run and files written never outnumber the confirmation
    questions asked: nothing touches the machine without a question put
    to the user first. *)
Theorem chat_effects_are_confirmed (config : Config) (systemPrompt : string)
  (messages : list Msg) (script : list FetchOutcome) (w : World) :
  let w' := snd (chat config systemPrompt messages script w) in
  prompts w <= prompts w'
  /\ length (executed w') + length (written w') + prompts w
     <= length (executed w) + length (written w) + prompts w'.
Proof. apply chatLoop_accounted. Qed.

(** X5.  The confirmation of a file write.  On "n" or "no" (trimmed,
    lower-cased) nothing is written and the result is the fixed denial;
    on any other answer the resolved path is written with the full
    content, and the result reports success with the path and the line
    count, or, when the file system refuses, the failure with its
    message and nothing recorded as written. *)
Theorem execToolEdit_confirmation (fp text : string) (w : World) :
  let answer := Text.toLowerCase (Text.trim (typed (prompts w))) in
  let resolved := path_resolve fp in
  let run := execToolEdit (Some (JStr fp)) (Some (JStr text)) w in
  (answer = "n" \/ answer = "no" ->
   fst run = Normal {| output := "User denied file write."; success := false |}
   /\ written (snd run) = written w)
  /\
  (answer <> "n" -> answer <> "no" ->
   match fs_write (written w) resolved text with
   | None =>
       fst run
       = Normal {| output := "File written: " ++ resolved ++ " ("
                             ++ Text.decimal (Text.lineCount text) ++ " lines)";
                   success := true |}
       /\ written (snd run) = (written w ++ [(resolved, text)])%list
   | Some errMessage =>
       fst run
       = Normal {| output := "Failed to write: " ++ errMessage;
                   success := false |}
       /\ written (snd run) = written w
   end).
Proof.
  cbv zeta. unfold execToolEdit.
  match goal with
  | |- context [ask ?q ?v] => destruct (ask q v) as [answer w2] eqn:E
  end.
  assert (Ha : answer = Text.toLowerCase (Text.trim (typed (prompts w))))
    by (injection E as <- _; reflexivity).
  assert (Hw : written w2 = written w) by (injection E as _ <-; reflexivity).
  rewrite <- Ha. split.
  - intros Hd. apply denied_spec in Hd. rewrite Hd. now split.
  - intros Hn Hno. destruct (denied answer) eqn:Hd.
    + apply denied_spec in Hd as [->| ->]; contradiction.
    + rewrite Hw. destruct (fs_write (written w) (path_resolve fp) text);
        now split.
Qed.

(** X6.  A tool result that reports success never has an empty output:
    a command that printed nothing yields the "(completed, no output)"
    marker. *)
Theorem successful_output_is_not_empty (name : string) (args : value)
  (w w' : World) (r : ToolResult) :
  dispatchTool name args w = (Normal r, w') ->
  success r = true ->
  output r <> EmptyString.
Proof.
  unfold dispatchTool.
  destruct (String.eqb name "tool_run").
  - destruct (getProperty args "command") as [command|]; [|discriminate].
    unfold execToolRun.
    match goal with
    | |- context [ask ?q ?v] => destruct (ask q v) as [answer w2]
    end.
    destruct (denied answer); [intros [= <- _]; discriminate|].
    destruct command as [[| | |cmd| |]|];
      try (intros [= <- _]; discriminate).
    destruct (execSync (executed w2) cmd) as [result|out err message];
      [|intros [= <- _]; discriminate].
    intros [= <- _] _. cbn [output]. unfold orElse.
    destruct (Text.trim result) eqn:T; cbn; discriminate.
  - destruct (String.eqb name "tool_edit"); [|intros [= <- _]; discriminate].
    destruct (getProperty args "filepath") as [filepath|]; [|discriminate].
    destruct (getProperty args "content") as [content|]; [|discriminate].
    unfold execToolEdit.
    destruct filepath as [[| | |fp| |]|]; try discriminate.
    destruct content as [[| | |text| |]|]; try discriminate.
    match goal with
    | |- context [ask ?q ?v] => destruct (ask q v) as [answer w2]
    end.
    destruct (denied answer); [intros [= <- _]; discriminate|].
    destruct (fs_write _ _ _); intros [= <- _]; discriminate.
Qed.

End ToolFacts.

Lemma unknown_tools_change_nothing_witness :
  executeTools (RT := Sample.runtime "y")
    [{| tc_id := "call_9"; function_name := "web_search";
        function_arguments := ArgValue None |}]
    [Plain "user" "hi"] Sample.world
  = (Normal [Plain "user" "hi"; ToolEntry "Unknown tool: web_search" "call_9"],
     Sample.world).
Proof.
  apply (unknown_tools_change_nothing (RT := Sample.runtime "y")
           [{| tc_id := "call_9"; function_name := "web_search";
               function_arguments := ArgValue None |}]).
  repeat constructor.
Defined.

Lemma execToolEdit_confirmation_witness :
  (fst (execToolEdit (RT := Sample.runtime "NO") (Some (JStr "a.txt"))
          (Some (JStr "x")) Sample.world)
   = Normal {| output := "User denied file write."; success := false |}
   /\ written (snd (execToolEdit (RT := Sample.runtime "NO")
                      (Some (JStr "a.txt")) (Some (JStr "x")) Sample.world))
      = [])
  /\
  (fst (execToolEdit (RT := Sample.runtime "yes") (Some (JStr "a.txt"))
          (Some (JStr "x")) Sample.world)
   = Normal {| output := "File written: /work/a.txt (1 lines)";
               success := true |}
   /\ written (snd (execToolEdit (RT := Sample.runtime "yes")
                      (Some (JStr "a.txt")) (Some (JStr "x")) Sample.world))
      = [("/work/a.txt", "x")]).
Proof.
  split.
  - apply (proj1 (execToolEdit_confirmation (RT := Sample.runtime "NO")
                    "a.txt" "x" Sample.world)).
    right. reflexivity.
  - apply (proj2 (execToolEdit_confirmation (RT := Sample.runtime "yes")
                    "a.txt" "x" Sample.world)); discriminate.
Defined.

Lemma successful_output_is_not_empty_witness :
  output {| output := "ran ls"; success := true |} <> EmptyString.
Proof.
  apply (successful_output_is_not_empty (RT := Sample.runtime "y")
           "tool_run" (Some (JObj [("command", JStr "ls")])) Sample.world
           (snd (dispatchTool (RT := Sample.runtime "y") "tool_run"
                   (Some (JObj [("command", JStr "ls")])) Sample.world))
           {| output := "ran ls"; success := true |});
    reflexivity.
Defined.

(** ** The chat loop and the Session, further *)

Section ChatMore.
Context {RT : Runtime}.



(** X8.  Whatever the model answers and however the turn ends, [repl]
    keeps the whole history and appends the user message, followed by at
    most one assistant message, whose content is never empty: an empty
    reply is not recorded. *)
Theorem turn_appends_to_history (config : Config)
  (systemPrompt userText : string) (script : list FetchOutcome)
  (ctx : Session) (w : World) :
  let ctx' :=
    sessionOf (fst (repl_message config systemPrompt userText script ctx w)) in
  let user := {| role := "user"; content := userText |} in
  messages ctx' = (messages ctx ++ [user])%list
  \/ exists reply,
       reply <> EmptyString
       /\ messages ctx'
          = (messages ctx ++ [user; {| role := "assistant"; content := reply |}])%list.
Proof.
  cbv zeta. unfold repl_message.
  destruct (chat _ _ _ _ _) as [[[result|]|site|] w']; cbn; try now left.
  destruct (res_content result) as [|c r] eqn:E; cbn; [now left|].
  right. exists (String c r). split; [discriminate|].
  now rewrite <- app_assoc.
Qed.

End ChatMore.

(** ** Slash commands, further *)

Section SlashMore.

Lemma handleSlashCommand_compact (ctx : Session) (w : World) :
  handleSlashCommand "/compact" ctx w
  = if (6 <? length (messages ctx))%nat
    then (Continue (setMessages ctx (lastN 4 (messages ctx))),
          println ("  Compacted. Kept last "
                   ++ Text.decimal (length (lastN 4 (messages ctx)))
                   ++ " messages.") w)
    else (Continue ctx, println "  Conversation is already short." w).
Proof. reflexivity. Qed.

(** X9.  [/compact] is idempotent on the Session: after one [/compact],
    whatever the Session was, a second one changes nothing and prints the
    already-short notice; the token counters survive both. *)
Theorem compact_twice_is_compact_once (ctx : Session) (w : World) :
  exists ctx1 w1,
    handleSlashCommand "/compact" ctx w = (Continue ctx1, w1)
    /\ handleSlashCommand "/compact" ctx1 w1
       = (Continue ctx1, println "  Conversation is already short." w1)
    /\ totalTokens ctx1 = totalTokens ctx
    /\ promptTokens ctx1 = promptTokens ctx
    /\ completionTokens ctx1 = completionTokens ctx.
Proof.
  rewrite handleSlashCommand_compact.
  destruct (6 <? length (messages ctx))%nat eqn:E.
  - do 2 eexists. split; [reflexivity|]. split; [|now repeat split].
    rewrite handleSlashCommand_compact. cbn [messages setMessages].
    apply Nat.ltb_lt in E.
    destruct (lastN_split 4 (messages ctx)) as [_ Hlen]; [lia|].
    rewrite Hlen. reflexivity.
  - exists ctx. eexists. split; [reflexivity|]. split; [|now repeat split].
    rewrite handleSlashCommand_compact. cbn [console println log].
    now rewrite E.
Qed.

Ltac not_the_default :=
  let H := fresh in
  intros H; injection H; intros;
  repeat match goal with
         | E : (_ ++ [_])%list = (_ ++ [_])%list |- _ =>
             apply app_inv_head in E
         end;
  try discriminate; try congruence.

(** X10.  Every entry of the catalog has a case of its own in
    [handleSlashCommand]: typed in full, the name of an entry runs that
    case and never falls to the unknown-command default. *)
Theorem every_catalog_entry_is_handled (c : SlashCommand) (ctx : Session)
  (w : World) :
  In c SLASH_COMMANDS ->
  repl_slash (name c) ctx w = handleSlashCommand (name c) ctx w
  /\ handleSlashCommand (name c) ctx w
     <> (Continue ctx, println ("  Unknown command: " ++ name c) w).
Proof.
  intros Hin. simpl in Hin.
  repeat (destruct Hin as [<-|Hin]); try contradiction;
    (split; [reflexivity|]); cbn [name];
    try rewrite handleSlashCommand_compact;
    try (destruct (6 <? length (messages ctx))%nat);
    not_the_default.
Qed.

Lemma handleSlashCommand_local (command : string) (ctx : Session) (w : World) :
  let out := handleSlashCommand command ctx w in
  requests (snd out) = requests w
  /\ executed (snd out) = executed w
  /\ written (snd out) = written w
  /\ prompts (snd out) = prompts w
  /\ match fst out with
     | Continue ctx' =>
         exists dropped, messages ctx = (dropped ++ messages ctx')%list
     | Exit _ => True
     end.
Proof.
  cbv zeta. unfold handleSlashCommand.
  repeat match goal with
         | |- context [if String.eqb command ?s then _ else _] =>
             destruct (String.eqb command s)
         end;
    try (repeat split; now exists []).
  - destruct (6 <? length (messages ctx))%nat; repeat split.
    + exists (firstn (length (messages ctx) - 4) (messages ctx)).
      symmetry. apply firstn_skipn.
    + now exists [].
  - repeat split. exists (messages ctx). now rewrite app_nil_r.
Qed.

Lemma startsWith_refl (s : string) : Text.startsWith s s = true.
Proof.
  induction s as [|c s IH]; [reflexivity|].
  simpl. now rewrite Ascii.eqb_refl.
Qed.

(** X11.  A text typed behind the command prefix stays local: it sends
    no request to the model, runs no command, writes no file through the
    tools and asks no confirmation; the Session keeps a final part of its
    messages and never gains one.  What runs, if anything, is the handler
    of a catalog entry whose name starts with the text typed; otherwise
    the unknown-command report is printed and the Session is unchanged. *)
Theorem typed_slash_stays_local (text : string) (ctx : Session) (w : World) :
  let out := repl_slash text ctx w in
  requests (snd out) = requests w
  /\ executed (snd out) = executed w
  /\ written (snd out) = written w
  /\ prompts (snd out) = prompts w
  /\ match fst out with
     | Continue ctx' =>
         exists dropped, messages ctx = (dropped ++ messages ctx')%list
     | Exit _ => True
     end
  /\ ((exists c, In c SLASH_COMMANDS
                 /\ Text.startsWith (name c) text = true
                 /\ out = handleSlashCommand (name c) ctx w)
      \/ out = (Continue ctx,
                println ("  Unknown command: " ++ text
                         ++ ". Type / to see all.") w)).
Proof.
  cbv zeta. unfold repl_slash.
  destruct (find (fun c => String.eqb (name c) text) SLASH_COMMANDS)
    as [found|] eqn:Efind.
  - apply find_some in Efind as [Hin Heq]. apply String.eqb_eq in Heq.
    pose proof (handleSlashCommand_local (name found) ctx w) as H.
    cbv zeta in H. destruct H as (H1 & H2 & H3 & H4 & H5).
    repeat split; try assumption.
    left. exists found. repeat split; [exact Hin|].
    rewrite <- Heq. apply startsWith_refl.
  - destruct (filter (fun c => Text.startsWith (name c) text) SLASH_COMMANDS)
      as [|only [|second more]] eqn:Efilter;
      try (repeat split; [now exists []|now right]).
    assert (Hin : In only (filter (fun c => Text.startsWith (name c) text)
                             SLASH_COMMANDS))
      by (rewrite Efilter; now left).
    apply filter_In in Hin as [Hin Hstarts].
    pose proof (handleSlashCommand_local (name only) ctx w) as H.
    cbv zeta in H. destruct H as (H1 & H2 & H3 & H4 & H5).
    repeat split; try assumption.
    left. now exists only.
Qed.

End SlashMore.

Lemma every_catalog_entry_is_handled_witness :
  repl_slash "/cost" Sample.session Sample.world
  = (Continue Sample.session,
     println "  Session tokens: 0 (prompt: 0, completion: 0)" Sample.world).
Proof.
  apply (proj1 (every_catalog_entry_is_handled
                  {| name := "/cost";
                     description := "Show token usage this session" |}
                  Sample.session Sample.world
                  ltac:(simpl; tauto))).
Defined.

(** ** Raw-terminal primitives, further *)

Section TerminalMore.

Lemma feed_invariant {S R : Type} (onKey : S -> Terminal -> string -> Step S R)
  (inv : S -> Prop) (post : R -> Prop) :
  (forall st t data, inv st ->
     match onKey st t data with
     | Listening st' _ => inv st'
     | Resolved r _ => post r
     end) ->
  forall keys st t, inv st ->
    match feed onKey st t keys with
    | Listening st' _ => inv st'
    | Resolved r _ => post r
    end.
Proof.
  intros Hstep keys. induction keys as [|data keys IH]; intros st t Hst.
  - exact Hst.
  - simpl. specialize (Hstep st t data Hst).
    destruct (onKey st t data) as [st' t'|r t']; [now apply IH|exact Hstep].
Qed.

Lemma at_In {A : Type} (l : list A) (i : Z) (a : A) :
  at_ l i = Some a -> In a l.
Proof.
  unfold at_. destruct (i <? 0)%Z; [discriminate|]. apply nth_error_In.
Qed.

Ltac menu_cases :=
  repeat match goal with
         | |- context [if ?b then _ else _] => destruct b
         end.

(** X12.  Whatever is typed into the slash palette, it resolves with
    null or with the name of an entry of the catalog: it never hands
    [handleSlashCommand] a name the catalog does not hold. *)
Theorem palette_selects_from_catalog (t : Terminal) (keys : list string)
  (chosen : string) :
  resultOf (showSlashMenu t keys) = Some (Some chosen) ->
  exists c, In c SLASH_COMMANDS /\ name c = chosen.
Proof.
  unfold showSlashMenu.
  destruct (negb (isTTY t)); [discriminate|].
  pose proof (feed_invariant showSlashMenu_onKey
                (fun m => incl (menu_filtered m) SLASH_COMMANDS)
                (fun r => forall n, r = Some n ->
                          exists c, In c SLASH_COMMANDS /\ name c = n))
    as H.
  match goal with
  | |- context [feed showSlashMenu_onKey ?m ?v keys] =>
      specialize (fun Hs => H Hs keys m v (incl_refl _))
  end.
  match type of H with
  | ?P -> _ => assert (Hstep : P); [|specialize (H Hstep)]
  end.
  { clear. intros m t data Hm. unfold showSlashMenu_onKey.
    assert (Hupd : forall f, incl (menu_filtered (updateFilter m f))
                               SLASH_COMMANDS).
    { intros f. unfold updateFilter. cbn [menu_filtered].
      intros x Hx. now apply filter_In in Hx. }
    menu_cases; try discriminate; auto.
    intros n Hn.
    destruct (at_ (menu_filtered m) (menu_selected m)) as [c|] eqn:E;
      [|discriminate].
    injection Hn as <-. exists c. split; [|reflexivity].
    apply Hm. now apply at_In in E. }
  destruct (feed showSlashMenu_onKey _ _ keys) as [m' t'|r t'];
    [discriminate|].
  intros [= ->]. now apply H.
Qed.

Lemma arrow_in_range (data : string) (count : nat) (selected : Z) :
  (0 < Z.of_nat count)%Z ->
  (0 <= selected < Z.of_nat count)%Z ->
  (0 <= arrow data count selected < Z.of_nat count)%Z.
Proof.
  unfold arrow. intros Hc Hs.
  destruct (isByte (byteAt 2 data) 65), (isByte (byteAt 2 data) 66); lia.
Qed.

(** X13.  Over a list that is not empty, the boxed selector resolves
    with -1, its cancelled value, or with the index of an item: the
    arrows never move the highlight off the list. *)
Theorem selector_index_is_in_range (title subtitle : string)
  (items : list string) (footer : string) (t : Terminal) (keys : list string)
  (r : Z) :
  items <> [] ->
  resultOf (boxSelect title subtitle items footer t keys) = Some r ->
  r = (-1)%Z \/ exists item, nth_error items (Z.to_nat r) = Some item /\ (0 <= r)%Z.
Proof.
  intros Hitems. unfold boxSelect.
  assert (Hlen : (0 < Z.of_nat (length items))%Z)
    by (destruct items; [contradiction|cbn [length]; lia]).
  assert (Hpost : forall i, (0 <= i < Z.of_nat (length items))%Z ->
            exists item, nth_error items (Z.to_nat i) = Some item /\ (0 <= i)%Z).
  { intros i Hi. destruct (nth_error items (Z.to_nat i)) as [item|] eqn:E.
    - exists item. split; [reflexivity|lia].
    - apply nth_error_None in E. lia. }
  destruct (negb (isTTY t)).
  - intros [= <-]. right. apply Hpost. lia.
  - pose proof (feed_invariant (boxSelect_onKey items)
                  (fun st =>
                     (0 <= sel_selected st < Z.of_nat (length items))%Z)
                  (fun i =>
                     i = (-1)%Z \/ (0 <= i < Z.of_nat (length items))%Z)) as H.
    match goal with
    | |- context [feed (boxSelect_onKey items) ?st ?v keys] =>
        specialize (fun Hs => H Hs keys st v)
    end.
    match type of H with
    | ?P -> _ => assert (Hstep : P); [|specialize (H Hstep)]
    end.
    { intros st t' data Hst. unfold boxSelect_onKey.
      menu_cases; auto. cbn [sel_selected]. now apply arrow_in_range. }
    cbn [sel_selected] in H. specialize (H ltac:(lia)).
    destruct (feed (boxSelect_onKey items) _ _ keys) as [st' t'|i t'];
      [discriminate|].
    intros [= ->]. destruct H as [->|H]; [now left|right; now apply Hpost].
Qed.

(** X14.  Line input delivers a line on a terminal only: on a piped
    input it resolves with null, whatever the input holds.  The text of
    a line it delivers carries no white space at its ends, and the slash
    trigger is only reported with the text "/". *)
Theorem line_input_is_trimmed (t : Terminal) (piped : option string)
  (keys : list string) :
  (isTTY t = false -> rawInput t piped keys = Resolved None t)
  /\
  (forall line,
     resultOf (rawInput t piped keys) = Some (Some line) ->
     isTTY t = true
     /\ Text.trim (text line) = text line
     /\ (isSlash line = true -> text line = "/")).
Proof.
  unfold rawInput. destruct (isTTY t) eqn:Htty; cbn [negb].
  - split; [discriminate|]. intros line.
    pose proof (feed_invariant rawInput_onKey
                  (fun _ : string => True)
                  (fun r => forall li, r = Some li ->
                            Text.trim (text li) = text li
                            /\ (isSlash li = true -> text li = "/"))) as H.
    match goal with
    | |- context [feed rawInput_onKey ?st ?v keys] =>
        specialize (fun Hs => H Hs keys st v I)
    end.
    match type of H with
    | ?P -> _ => assert (Hstep : P); [|specialize (H Hstep)]
    end.
    { clear. intros buf t data _. unfold rawInput_onKey.
      menu_cases; auto; intros li [= <-]; cbn [text isSlash];
        try (split; [reflexivity|discriminate]);
        try (split; [reflexivity|reflexivity]).
      split; [apply trim_idempotent|discriminate]. }
    destruct (feed rawInput_onKey _ _ keys) as [st' t'|r t']; [discriminate|].
    intros [= ->]. destruct (H line eq_refl) as [Htrim Hslash].
    split; [reflexivity|]. split; [exact Htrim|exact Hslash].
  - split.
    + intros _. now destruct piped.
    + intros line. destruct piped; discriminate.
Qed.

Lemma dropLast_append (buf : string) (c : ascii) :
  Text.dropLast (buf ++ String c EmptyString) = buf.
Proof.
  induction buf as [|b buf IH]; [reflexivity|].
  change (String b buf ++ String c EmptyString)
    with (String b (buf ++ String c EmptyString)).
  cbn [Text.dropLast]. rewrite IH.
  destruct buf; reflexivity.
Qed.

Lemma nonEmpty_append (buf : string) (c : ascii) :
  nonEmpty (buf ++ String c EmptyString) = true.
Proof. destruct buf; reflexivity. Qed.

Lemma printable_is_no_control (n : nat) :
  printable (Some n) = true ->
  isByte (Some n) 4 = false /\ isByte (Some n) 3 = false
  /\ isByte (Some n) 13 = false /\ isByte (Some n) 127 = false
  /\ isByte (Some n) 8 = false /\ isByte (Some n) 27 = false
  /\ isByte (Some n) 9 = false.
Proof.
  unfold printable, isByte. intros H.
  apply andb_true_iff in H as [H1 H2].
  apply Nat.leb_le in H1. apply Nat.ltb_lt in H2.
  repeat split; apply Nat.eqb_neq; lia.
Qed.

(** X15.  Backspace undoes a typed character.  In line input and in the
    boxed text field, a printable character followed by a backspace
    leaves the buffer as it was and resolves nothing, unless the
    character is the "/" that triggers the palette on an empty line. *)
Theorem backspace_undoes_a_character (c : ascii) (buf : string)
  (field : TextField) (t : Terminal) :
  printable (Some (nat_of_ascii c)) = true ->
  buf ++ String c EmptyString <> "/" ->
  feed rawInput_onKey buf t [String c EmptyString; BACKSPACE]
  = Listening buf t
  /\ feed boxTextInput_onKey field t [String c EmptyString; BACKSPACE]
     = Listening field t.
Proof.
  intros Hp Hslash.
  destruct (printable_is_no_control _ Hp)
    as (H4 & H3 & H13 & H127 & H8 & H27 & H9).
  apply String.eqb_neq in Hslash.
  split.
  - cbn [feed]. unfold rawInput_onKey at 1. cbn [byteAt].
    rewrite H4, H3, H13, H127, H8, H27, H9, Hp, Hslash. cbn [orb].
    unfold rawInput_onKey. cbn [byteAt BACKSPACE].
    change (isByte (Some (nat_of_ascii (ascii_of_nat 127))) 4) with false.
    change (isByte (Some (nat_of_ascii (ascii_of_nat 127))) 3) with false.
    change (isByte (Some (nat_of_ascii (ascii_of_nat 127))) 13) with false.
    change (isByte (Some (nat_of_ascii (ascii_of_nat 127))) 127) with true.
    cbn [orb]. now rewrite nonEmpty_append, dropLast_append.
  - cbn [feed]. unfold boxTextInput_onKey at 1. cbn [byteAt].
    rewrite H27, H3, H13, H127, H8, Hp. cbn [orb andb].
    unfold boxTextInput_onKey. cbn [byteAt BACKSPACE fld_buf fld_wasRaw].
    change (isByte (Some (nat_of_ascii (ascii_of_nat 127))) 27) with false.
    change (isByte (Some (nat_of_ascii (ascii_of_nat 127))) 3) with false.
    change (isByte (Some (nat_of_ascii (ascii_of_nat 127))) 13) with false.
    change (isByte (Some (nat_of_ascii (ascii_of_nat 127))) 127) with true.
    cbn [orb andb]. rewrite nonEmpty_append, dropLast_append.
    now destruct field.
Qed.

End TerminalMore.

Lemma palette_selects_from_catalog_witness :
  exists c, In c SLASH_COMMANDS /\ name c = "/config".
Proof.
  apply (palette_selects_from_catalog (Sample.tty false)
           ["c"; "o"; Sample.DOWN; Sample.CR]).
  reflexivity.
Defined.

Lemma selector_index_is_in_range_witness :
  1%Z = (-1)%Z
  \/ exists item,
       nth_error ["Project"; "Personal"] (Z.to_nat 1) = Some item /\ (0 <= 1)%Z.
Proof.
  apply (selector_index_is_in_range "Create new agent" "Choose location"
           ["Project"; "Personal"] "" (Sample.tty false)
           [Sample.DOWN; Sample.DOWN; Sample.CR]);
    [discriminate|reflexivity].
Defined.

Lemma line_input_is_trimmed_witness :
  rawInput (Sample.pipe false) (Some "fix it") [] = Resolved None (Sample.pipe false)
  /\ (true = true
      /\ Text.trim "fix it" = "fix it"
      /\ (false = true -> "fix it" = "/")).
Proof.
  split.
  - apply (proj1 (line_input_is_trimmed (Sample.pipe false) (Some "fix it") [])).
    reflexivity.
  - apply (proj2 (line_input_is_trimmed (Sample.tty false) None
                    [" "; "fix it"; " "; Sample.CR])
             {| text := "fix it"; isSlash := false |}).
    reflexivity.
Defined.

Lemma backspace_undoes_a_character_witness :
  feed rawInput_onKey "ls" (Sample.tty true) ["x"; BACKSPACE]
  = Listening "ls" (Sample.tty true)
  /\ feed boxTextInput_onKey {| fld_wasRaw := false; fld_buf := "Test" |}
       (Sample.tty true) ["x"; BACKSPACE]
     = Listening {| fld_wasRaw := false; fld_buf := "Test" |} (Sample.tty true).
Proof.
  apply (backspace_undoes_a_character "x" "ls"
           {| fld_wasRaw := false; fld_buf := "Test" |} (Sample.tty true));
    [reflexivity|discriminate].
Defined.

(** ** Multi-line input *)

Section MultiLine.

Lemma getMultilineInput_loop_fenced (lines : list string) :
  forall collected fence rest,
    Forall (fun l => Text.trim l <> FENCE) lines ->
    Text.trim fence = FENCE ->
    getMultilineInput_loop (lines ++ fence :: rest) collected
    = (Some (Text.join LF (collected ++ lines)), rest).
Proof.
  induction lines as [|l lines IH]; intros collected fence rest Hl Hf.
  - cbn [app getMultilineInput_loop]. rewrite Hf, String.eqb_refl.
    now rewrite app_nil_r.
  - inversion Hl as [|? ? Hhead Htail]; subst.
    cbn [app getMultilineInput_loop].
    apply String.eqb_neq in Hhead. rewrite Hhead.
    rewrite (IH _ fence rest Htail Hf), <- app_assoc. reflexivity.
Qed.

Lemma getMultilineInput_loop_eof (lines : list string) :
  forall collected,
    Forall (fun l => Text.trim l <> FENCE) lines ->
    getMultilineInput_loop lines collected = (None, []).
Proof.
  induction lines as [|l lines IH]; intros collected Hl; [reflexivity|].
  inversion Hl as [|? ? Hhead Htail]; subst.
  cbn [getMultilineInput_loop].
  apply String.eqb_neq in Hhead. rewrite Hhead. now apply IH.
Qed.

(** X16.  Multi-line mode returns the lines typed before the first line
    that is a fence once trimmed, joined by line feeds and otherwise
    untouched; the fence is consumed and what follows it is left unread.
    When the input ends before a fence the block is given up, whatever
    was typed. *)
Theorem multiline_block_is_returned_verbatim (lines : list string)
  (fence : string) (rest : list string) :
  Forall (fun l => Text.trim l <> FENCE) lines ->
  Text.trim fence = FENCE ->
  getMultilineInput (lines ++ fence :: rest) = (Some (Text.join LF lines), rest)
  /\ getMultilineInput lines = (None, []).
Proof.
  intros Hl Hf. split.
  - apply (getMultilineInput_loop_fenced lines [] fence rest Hl Hf).
  - now apply getMultilineInput_loop_eof.
Qed.

End MultiLine.

Lemma multiline_block_is_returned_verbatim_witness :
  getMultilineInput ["def f():"; "  return 1 "; " ``` "; "next"]
  = (Some (Text.join LF ["def f():"; "  return 1 "]), ["next"])
  /\ getMultilineInput ["def f():"; "  return 1 "] = (None, []).
Proof.
  apply (multiline_block_is_returned_verbatim ["def f():"; "  return 1 "]
           " ``` " ["next"]).
  - repeat constructor; discriminate.
  - reflexivity.
Defined.

(** ** The settings file *)

Section EnvFile.
Import Env.

Lemma some_eq {A : Type} (a b : A) : Some a = Some b -> a = b.
Proof. now intros [= ->]. Qed.

Ltac reduce_if :=
  repeat match goal with
         | |- context C [if true then ?a else ?b] =>
             let g := context C [a] in change g
         | |- context C [if false then ?a else ?b] =>
             let g := context C [b] in change g
         end.

Lemma replaceKeyLine_eq (bol : bool) (key value s : string) :
  replaceKeyLine bol key value s
  = if bol && Text.startsWith s (key ++ "=") then
      Some (key ++ "=" ++ value
            ++ lineEnd (Text.sliceFrom (String.length (key ++ "=")) s))
    else
      match s with
      | EmptyString => None
      | String c s' =>
          option_map (String c)
            (replaceKeyLine (isLineTerminator c) key value s')
      end.
Proof. destruct s; reflexivity. Qed.

Lemma keyLine_eq (bol : bool) (key s : string) :
  keyLine bol key s
  = if bol && Text.startsWith s (key ++ "=") then
      Some (lineRest (Text.sliceFrom (String.length (key ++ "=")) s))
    else
      match s with
      | EmptyString => None
      | String c s' => keyLine (isLineTerminator c) key s'
      end.
Proof. destruct s; reflexivity. Qed.

Lemma sliceFrom_append (p r : string) :
  Text.sliceFrom (String.length p) (p ++ r) = r.
Proof. induction p as [|c p IH]; [now destruct r|exact IH]. Qed.

Lemma assignment_found (key value y : string) :
  Text.startsWith (key ++ "=" ++ value ++ y) (key ++ "=") = true
  /\ Text.sliceFrom (String.length (key ++ "=")) (key ++ "=" ++ value ++ y)
     = value ++ y.
Proof.
  rewrite <- (append_assoc key "=" (value ++ y)). split.
  - apply startsWith_append.
  - apply sliceFrom_append.
Qed.

Lemma startsWith_split (s p : string) :
  Text.startsWith s p = true ->
  s = p ++ Text.sliceFrom (String.length p) s.
Proof.
  revert s. induction p as [|a p IH]; intros s H.
  - now destruct s.
  - destruct s as [|b s]; [discriminate|].
    rewrite startsWith_cons in H. apply andb_true_iff in H as [Hab Hs].
    apply Ascii.eqb_eq in Hab. subst b. cbn. f_equal. now apply IH.
Qed.

Lemma singleLine_append (a b : string) :
  singleLine (a ++ b) = singleLine a && singleLine b.
Proof.
  induction a as [|c a IH]; [reflexivity|].
  cbn. rewrite IH. now rewrite andb_assoc.
Qed.

Lemma isWordChar_not_terminator (c : ascii) :
  isWordChar c = true -> isLineTerminator c = false.
Proof.
  unfold isWordChar, isLineTerminator. cbv zeta.
  destruct (N_of_ascii c =? 10)%N eqn:E10;
    [apply N.eqb_eq in E10; rewrite E10; discriminate|].
  destruct (N_of_ascii c =? 13)%N eqn:E13;
    [apply N.eqb_eq in E13; rewrite E13; discriminate|].
  reflexivity.
Qed.

Lemma isWordChar_not_equals (c : ascii) :
  isWordChar c = true -> Ascii.eqb c "=" = false.
Proof.
  intros H. destruct (Ascii.eqb_spec c "="); [subst; discriminate|reflexivity].
Qed.

Lemma literalKey_assignment (key : string) :
  literalKey key = true -> singleLine (key ++ "=") = true.
Proof.
  induction key as [|c key IH]; [reflexivity|].
  cbn. intros H. apply andb_true_iff in H as [Hc Hk].
  now rewrite (isWordChar_not_terminator _ Hc), IH.
Qed.

Lemma lineEnd_head (s : string) :
  lineEnd s = EmptyString
  \/ exists c r, lineEnd s = String c r /\ isLineTerminator c = true.
Proof.
  induction s as [|c s IH]; [now left|].
  cbn. destruct (isLineTerminator c) eqn:E; [|exact IH].
  right. now exists c, s.
Qed.

Lemma lineRest_lineEnd (s : string) : s = lineRest s ++ lineEnd s.
Proof.
  induction s as [|c s IH]; [reflexivity|].
  cbn. destruct (isLineTerminator c); [reflexivity|].
  cbn. now rewrite <- IH.
Qed.

Lemma singleLine_lineRest (s : string) : singleLine (lineRest s) = true.
Proof.
  induction s as [|c s IH]; [reflexivity|].
  cbn. destruct (isLineTerminator c) eqn:E; [reflexivity|].
  cbn. now rewrite E, IH.
Qed.

(** Behind a text without terminators, the line ends where the text
    behind it starts, if that starts a new line or is empty. *)
Lemma lineRest_closed (v y : string) :
  singleLine v = true ->
  (y = EmptyString
   \/ exists c r, y = String c r /\ isLineTerminator c = true) ->
  lineRest (v ++ y) = v /\ lineEnd (v ++ y) = y.
Proof.
  intros Hv Hy. induction v as [|c v IH].
  - destruct Hy as [->|(c & r & -> & Hc)]; [now split|].
    cbn. now rewrite Hc.
  - cbn in Hv. apply andb_true_iff in Hv as [Hc Hv].
    apply negb_true_iff in Hc. cbn. rewrite Hc.
    destruct (IH Hv) as [-> ->]. now split.
Qed.

Lemma startsWith_terminator (c : ascii) (s p : string) :
  isLineTerminator c = true -> singleLine p = true -> p <> EmptyString ->
  Text.startsWith (String c s) p = false.
Proof.
  intros Hc Hp Hne. destruct p as [|a p]; [contradiction|].
  rewrite startsWith_cons. cbn in Hp.
  apply andb_true_iff in Hp as [Ha _]. apply negb_true_iff in Ha.
  destruct (Ascii.eqb_spec a c); [congruence|reflexivity].
Qed.

Lemma singleLine_noneIs (q : string) :
  singleLine q = true -> Spans.noneIs (ascii_of_nat 10) q = true.
Proof.
  induction q as [|a q IH]; cbn [singleLine Spans.noneIs]; intros H;
    [reflexivity|].
  apply andb_true_iff in H as [Ha Hq]. rewrite (IH Hq), andb_true_r.
  apply negb_true_iff in Ha. apply negb_true_iff.
  destruct (Ascii.eqb_spec a (ascii_of_nat 10)); [subst; discriminate Ha|].
  reflexivity.
Qed.

(** A replacement leaves every comparison with a one-line text as it
    was, up to the line it replaces. *)
Lemma replaceKeyLine_agrees (key value p : string) :
  forall s r c,
    replaceKeyLine (isLineTerminator c) key value s = Some r ->
    singleLine p = true ->
    Text.startsWith (String c s) p = Text.startsWith (String c r) p.
Proof.
  induction p as [|a p IH]; intros s r c Hr Hp; [reflexivity|].
  rewrite !startsWith_cons.
  cbn in Hp. apply andb_true_iff in Hp as [Ha Hp]. apply negb_true_iff in Ha.
  destruct (Ascii.eqb_spec a c) as [->|Hne]; [|reflexivity].
  cbn [andb]. rewrite Ha in Hr. rewrite replaceKeyLine_eq in Hr. cbn [andb] in Hr.
  destruct s as [|d s]; [discriminate|].
  destruct (replaceKeyLine (isLineTerminator d) key value s) as [r'|] eqn:E;
    [|discriminate].
  apply some_eq in Hr; subst r. destruct p as [|b p]; [reflexivity|].
  apply (IH s r' d E Hp).
Qed.

Lemma matching_is_value_blind (key v1 v2 : string) :
  forall s bol,
    replaceKeyLine bol key v1 s = None -> replaceKeyLine bol key v2 s = None.
Proof.
  induction s as [|c s IH]; intros bol H; rewrite replaceKeyLine_eq in *;
    destruct (bol && Text.startsWith _ (key ++ "=")); try discriminate;
    [reflexivity|].
  destruct (replaceKeyLine (isLineTerminator c) key v1 s) eqn:E;
    [discriminate|]. now rewrite (IH _ E).
Qed.

(** Replacing twice is replacing once with the later value. *)
Lemma replaceKeyLine_again (key v1 v2 : string) :
  singleLine (key ++ "=") = true -> singleLine v1 = true ->
  forall s bol r,
    replaceKeyLine bol key v1 s = Some r ->
    replaceKeyLine bol key v2 r = replaceKeyLine bol key v2 s.
Proof.
  intros Hk Hv. induction s as [|c s IH]; intros bol r Hr.
  - rewrite replaceKeyLine_eq in Hr.
    destruct (bol && Text.startsWith EmptyString (key ++ "=")) eqn:E;
      [|discriminate].
    apply andb_true_iff in E as [_ E]. destruct key; discriminate E.
  - rewrite replaceKeyLine_eq in Hr. rewrite (replaceKeyLine_eq bol key v2 (String c s)).
    destruct (bol && Text.startsWith (String c s) (key ++ "=")) eqn:E.
    + apply some_eq in Hr; subst r. apply andb_true_iff in E as [-> E].
      reduce_if. rewrite replaceKeyLine_eq. cbn [andb].
      destruct (assignment_found key v1
                  (lineEnd (Text.sliceFrom (String.length (key ++ "="))
                              (String c s)))) as [-> ->].
      destruct (lineRest_closed v1 _ Hv (lineEnd_head
                  (Text.sliceFrom (String.length (key ++ "=")) (String c s))))
        as [_ ->].
      reflexivity.
    + destruct (replaceKeyLine (isLineTerminator c) key v1 s) as [r'|] eqn:E';
        [|discriminate].
      apply some_eq in Hr; subst r. rewrite replaceKeyLine_eq.
      destruct bol; cbn [andb] in *.
      * rewrite <- (replaceKeyLine_agrees key v1 (key ++ "=") s r' c E' Hk).
        rewrite E. now rewrite (IH _ _ E').
      * now rewrite (IH _ _ E').
Qed.

(** Behind a content without a line for the key, the appended line is
    the one a later save replaces. *)
Lemma replaceKeyLine_appended (key v1 v2 : string) :
  singleLine (key ++ "=") = true -> singleLine v1 = true ->
  forall t w bol,
    replaceKeyLine bol key v1 (t ++ w) = None ->
    replaceKeyLine bol key v2 (t ++ LF ++ key ++ "=" ++ v1 ++ LF)
    = Some (t ++ LF ++ key ++ "=" ++ v2 ++ LF).
Proof.
  intros Hk Hv.
  assert (Hne : key ++ "=" <> EmptyString) by (destruct key; discriminate).
  assert (Hline : replaceKeyLine true key v2 (key ++ "=" ++ v1 ++ LF)
                  = Some (key ++ "=" ++ v2 ++ LF)).
  { rewrite replaceKeyLine_eq. cbn [andb].
    destruct (assignment_found key v1 LF) as [-> ->].
    destruct (lineRest_closed v1 LF Hv) as [_ ->]; [|reflexivity].
    right. now exists (ascii_of_nat 10), EmptyString. }
  induction t as [|c t IH]; intros w bol Hnone.
  - change (EmptyString ++ LF ++ key ++ "=" ++ v1 ++ LF)
      with (String (ascii_of_nat 10) (key ++ "=" ++ v1 ++ LF)).
    rewrite replaceKeyLine_eq.
    rewrite (startsWith_terminator (ascii_of_nat 10) _ (key ++ "=")
               eq_refl Hk Hne).
    rewrite andb_false_r.
    change (isLineTerminator (ascii_of_nat 10)) with true.
    now rewrite Hline.
  - change (String c t ++ w) with (String c (t ++ w)) in Hnone.
    rewrite replaceKeyLine_eq in Hnone.
    destruct (bol && Text.startsWith (String c (t ++ w)) (key ++ "=")) eqn:E;
      [discriminate|].
    destruct (replaceKeyLine (isLineTerminator c) key v1 (t ++ w)) eqn:E';
      [discriminate|].
    change (String c t ++ LF ++ key ++ "=" ++ v1 ++ LF)
      with (String c (t ++ LF ++ key ++ "=" ++ v1 ++ LF)).
    rewrite replaceKeyLine_eq.
    assert (Hc : bol && Text.startsWith
                         (String c (t ++ LF ++ key ++ "=" ++ v1 ++ LF))
                         (key ++ "=") = false).
    { destruct bol; [|reflexivity]. cbn [andb] in *.
      destruct (Text.startsWith (String c t) (key ++ "=")) eqn:F.
      - apply startsWith_grow with (r := w) in F.
        change (String c t ++ w) with (String c (t ++ w)) in F. congruence.
      - change (String c (t ++ LF ++ key ++ "=" ++ v1 ++ LF))
          with (String c t ++ String (ascii_of_nat 10) (key ++ "=" ++ v1 ++ LF)).
        apply startsWith_blocked; [|exact F].
        now apply singleLine_noneIs. }
    rewrite Hc, (IH w _ E'). reflexivity.
Qed.

Lemma replaceKeyLine_read (key value : string) :
  singleLine (key ++ "=") = true -> singleLine value = true ->
  forall s bol r,
    replaceKeyLine bol key value s = Some r -> keyLine bol key r = Some value.
Proof.
  intros Hk Hv. induction s as [|c s IH]; intros bol r Hr.
  - rewrite replaceKeyLine_eq in Hr.
    destruct (bol && Text.startsWith EmptyString (key ++ "=")) eqn:E;
      [|discriminate].
    apply andb_true_iff in E as [_ E]. destruct key; discriminate E.
  - rewrite replaceKeyLine_eq in Hr.
    destruct (bol && Text.startsWith (String c s) (key ++ "=")) eqn:E.
    + apply some_eq in Hr; subst r. apply andb_true_iff in E as [-> E].
      rewrite keyLine_eq. cbn [andb].
      destruct (assignment_found key value
                  (lineEnd (Text.sliceFrom (String.length (key ++ "="))
                              (String c s)))) as [-> ->].
      destruct (lineRest_closed value _ Hv (lineEnd_head
                  (Text.sliceFrom (String.length (key ++ "=")) (String c s))))
        as [-> _].
      reflexivity.
    + destruct (replaceKeyLine (isLineTerminator c) key value s) as [r'|] eqn:E';
        [|discriminate].
      apply some_eq in Hr; subst r. rewrite keyLine_eq.
      destruct bol; cbn [andb] in *.
      * rewrite <- (replaceKeyLine_agrees key value (key ++ "=") s r' c E' Hk).
        rewrite E. now apply IH.
      * now apply IH.
Qed.

(** X17.  What is saved is read back: in the content [saveEnvValue]
    writes, whether the file existed or not and whether it held the key
    or not, the first line for the key holds the value saved. *)
Theorem saved_value_is_read_back (key value : string) (file : option string) :
  literalKey key = true ->
  singleLine value = true ->
  verbatim value = true ->
  readEnv key (Some (saveEnvValue key value file)) = Some value.
Proof.
  intros Hkey Hv _. pose proof (literalKey_assignment key Hkey) as Hk.
  assert (Hnew : forall t w bol,
             replaceKeyLine bol key value (t ++ w) = None ->
             keyLine bol key (t ++ LF ++ key ++ "=" ++ value ++ LF)
             = Some value).
  { intros t w bol Hnone.
    apply (replaceKeyLine_read key value Hk Hv
             (t ++ LF ++ key ++ "=" ++ value ++ LF) bol).
    now apply (replaceKeyLine_appended key value value Hk Hv t w). }
  unfold readEnv, saveEnvValue. destruct file as [content|].
  - destruct (replaceKeyLine true key value content) as [r|] eqn:E.
    + exact (replaceKeyLine_read key value Hk Hv content true r E).
    + destruct (trimEnd_prefix content) as [blank Hb].
      apply (Hnew (Text.trimEnd content) blank). now rewrite <- Hb.
  - rewrite keyLine_eq. cbn [andb].
    destruct (assignment_found key value LF) as [-> ->].
    destruct (lineRest_closed value LF Hv) as [-> _]; [|reflexivity].
    right. now exists (ascii_of_nat 10), EmptyString.
Qed.

(** X18.  The last save wins and nothing piles up: saving a key, then
    saving it again, writes the very content that the second save alone
    would have written.  In particular saving the same value twice
    changes nothing the second time. *)
Theorem last_save_wins (key v1 v2 : string) (file : option string) :
  literalKey key = true ->
  singleLine v1 = true ->
  verbatim v1 = true -> verbatim v2 = true ->
  saveEnvValue key v2 (Some (saveEnvValue key v1 file))
  = saveEnvValue key v2 file.
Proof.
  intros Hkey Hv _ _. pose proof (literalKey_assignment key Hkey) as Hk.
  unfold saveEnvValue. destruct file as [content|].
  - destruct (replaceKeyLine true key v1 content) as [r|] eqn:E.
    + rewrite (replaceKeyLine_again key v1 v2 Hk Hv content true r E).
      destruct (replaceKeyLine true key v2 content) eqn:E2; [reflexivity|].
      apply (matching_is_value_blind key v2 v1) in E2. congruence.
    + rewrite (matching_is_value_blind key v1 v2 content true E).
      destruct (trimEnd_prefix content) as [blank Hb].
      rewrite (replaceKeyLine_appended key v1 v2 Hk Hv
                 (Text.trimEnd content) blank true); [reflexivity|].
      now rewrite <- Hb.
  - rewrite replaceKeyLine_eq. cbn [andb].
    destruct (assignment_found key v1 LF) as [-> ->].
    destruct (lineRest_closed v1 LF Hv) as [_ ->]; [|reflexivity].
    right. now exists (ascii_of_nat 10), EmptyString.
Qed.

End EnvFile.

Lemma saved_value_is_read_back_witness :
  Env.readEnv "CHALK_MODEL"
    (Some (Env.saveEnvValue "CHALK_MODEL" "arcee/trinity"
             (Some "OPENROUTER_API_KEY=sk-1")))
  = Some "arcee/trinity".
Proof.
  apply (saved_value_is_read_back "CHALK_MODEL" "arcee/trinity"
           (Some "OPENROUTER_API_KEY=sk-1")); reflexivity.
Defined.

Lemma last_save_wins_witness :
  Env.saveEnvValue "CHALK_MODEL" "b"
    (Some (Env.saveEnvValue "CHALK_MODEL" "a" (Some "X=1  ")))
  = Env.saveEnvValue "CHALK_MODEL" "b" (Some "X=1  ").
Proof.
  apply (last_save_wins "CHALK_MODEL" "a" "b" (Some "X=1  ")); reflexivity.
Defined.
Section EnvOtherKeys.
Import Env.

Lemma keyLine_skip (key u y : string) :
  singleLine u = true -> keyLine false key (u ++ y) = keyLine false key y.
Proof.
  induction u as [|c u IH]; intros Hu; [reflexivity|].
  cbn in Hu. apply andb_true_iff in Hu as [Hc Hu]. apply negb_true_iff in Hc.
  change (String c u ++ y) with (String c (u ++ y)).
  rewrite keyLine_eq. cbn [andb]. rewrite Hc. now apply IH.
Qed.

Lemma keyLine_skip_first (bol : bool) (key u y : string) :
  u <> EmptyString -> singleLine u = true ->
  Text.startsWith (u ++ y) (key ++ "=") = false ->
  keyLine bol key (u ++ y) = keyLine false key y.
Proof.
  intros Hne Hu Hs. destruct u as [|c u]; [contradiction|].
  cbn in Hu. apply andb_true_iff in Hu as [Hc Hu]. apply negb_true_iff in Hc.
  rewrite keyLine_eq, Hs, andb_false_r.
  change (String c u ++ y) with (String c (u ++ y)). cbv iota.
  rewrite Hc. now apply keyLine_skip.
Qed.

Lemma keys_differ (key : string) :
  forall other y,
    literalKey key = true -> literalKey other = true -> key <> other ->
    Text.startsWith (key ++ "=" ++ y) (other ++ "=") = false.
Proof.
  induction key as [|c key IH]; intros other y Hk Ho Hne.
  - destruct other as [|a other]; [contradiction|].
    cbn in Ho. apply andb_true_iff in Ho as [Ha _].
    change (EmptyString ++ "=" ++ y) with (String "=" y).
    change (String a other ++ "=") with (String a (other ++ "=")).
    rewrite startsWith_cons, (isWordChar_not_equals a Ha). reflexivity.
  - cbn in Hk. apply andb_true_iff in Hk as [Hc Hk].
    change (String c key ++ "=" ++ y) with (String c (key ++ "=" ++ y)).
    destruct other as [|a other].
    + change (EmptyString ++ "=") with (String "=" EmptyString).
      rewrite startsWith_cons, Ascii.eqb_sym, (isWordChar_not_equals c Hc).
      reflexivity.
    + cbn in Ho. apply andb_true_iff in Ho as [Ha Ho].
      change (String a other ++ "=") with (String a (other ++ "=")).
      rewrite startsWith_cons.
      destruct (Ascii.eqb_spec a c) as [->|]; [|reflexivity].
      cbn [andb]. apply IH; [assumption|assumption|congruence].
Qed.

Lemma no_match_no_line (key value : string) :
  forall s bol, replaceKeyLine bol key value s = None -> keyLine bol key s = None.
Proof.
  induction s as [|c s IH]; intros bol H;
    rewrite replaceKeyLine_eq in H; rewrite keyLine_eq;
    destruct (bol && Text.startsWith _ (key ++ "=")); try discriminate;
    [reflexivity|].
  destruct (replaceKeyLine (isLineTerminator c) key value s) eqn:E;
    [discriminate|]. now apply IH.
Qed.

(** A replacement further down leaves the line at hand as it is. *)
Lemma replaceKeyLine_lineRest (key value : string) :
  forall s r c,
    replaceKeyLine (isLineTerminator c) key value s = Some r ->
    lineRest (String c r) = lineRest (String c s).
Proof.
  induction s as [|d s IH]; intros r c Hr; cbn [lineRest];
    destruct (isLineTerminator c) eqn:Hc; try reflexivity.
  - rewrite (replaceKeyLine_eq false key value EmptyString) in Hr.
    discriminate Hr.
  - rewrite (replaceKeyLine_eq false key value (String d s)) in Hr.
    cbn [andb] in Hr.
    destruct (replaceKeyLine (isLineTerminator d) key value s) as [r'|] eqn:E;
      [|discriminate].
    apply some_eq in Hr; subst r. f_equal. now apply IH.
Qed.

Lemma replaceKeyLine_value (key value p : string) :
  forall s r c,
    replaceKeyLine (isLineTerminator c) key value s = Some r ->
    singleLine p = true ->
    Text.startsWith (String c s) p = true ->
    lineRest (Text.sliceFrom (String.length p) (String c r))
    = lineRest (Text.sliceFrom (String.length p) (String c s)).
Proof.
  induction p as [|a p IH]; intros s r c Hr Hp Hs.
  - exact (replaceKeyLine_lineRest key value s r c Hr).
  - rewrite startsWith_cons in Hs. apply andb_true_iff in Hs as [Hac Hs].
    apply Ascii.eqb_eq in Hac. subst a.
    cbn in Hp. apply andb_true_iff in Hp as [Hc Hp]. apply negb_true_iff in Hc.
    rewrite Hc in Hr. rewrite replaceKeyLine_eq in Hr. cbn [andb] in Hr.
    destruct s as [|d s]; [discriminate|].
    destruct (replaceKeyLine (isLineTerminator d) key value s) as [r'|] eqn:E;
      [|discriminate].
    apply some_eq in Hr; subst r.
    change (Text.sliceFrom (String.length (String c p)) (String c (String d r')))
      with (Text.sliceFrom (String.length p) (String d r')).
    change (Text.sliceFrom (String.length (String c p)) (String c (String d s)))
      with (Text.sliceFrom (String.length p) (String d s)).
    now apply IH.
Qed.

Lemma replaceKeyLine_other (key value other : string) :
  literalKey key = true -> literalKey other = true -> key <> other ->
  singleLine value = true ->
  forall s bol r,
    replaceKeyLine bol key value s = Some r ->
    keyLine bol other r = keyLine bol other s.
Proof.
  intros Hkey Hother Hne Hv.
  pose proof (literalKey_assignment key Hkey) as Hk.
  pose proof (literalKey_assignment other Hother) as Ho.
  assert (Hnonempty : forall w, key ++ "=" ++ w <> EmptyString)
    by (intros w; destruct key; discriminate).
  induction s as [|c s IH]; intros bol r Hr.
  - rewrite replaceKeyLine_eq in Hr.
    destruct (bol && Text.startsWith EmptyString (key ++ "=")) eqn:E;
      [|discriminate].
    apply andb_true_iff in E as [_ E]. destruct key; discriminate E.
  - rewrite replaceKeyLine_eq in Hr.
    destruct (bol && Text.startsWith (String c s) (key ++ "=")) eqn:E.
    + apply some_eq in Hr; subst r. apply andb_true_iff in E as [-> E].
      set (x := Text.sliceFrom (String.length (key ++ "=")) (String c s)).
      pose proof (startsWith_split _ _ E) as Hsplit. fold x in Hsplit.
      rewrite Hsplit at 1.
      rewrite (lineRest_lineEnd x) at 2.
      replace (key ++ "=" ++ value ++ lineEnd x)
        with ((key ++ "=" ++ value) ++ lineEnd x)
        by (now rewrite !append_assoc).
      replace ((key ++ "=") ++ lineRest x ++ lineEnd x)
        with ((key ++ "=" ++ lineRest x) ++ lineEnd x)
        by (now rewrite !append_assoc).
      rewrite !keyLine_skip_first; try reflexivity; try apply Hnonempty.
      * rewrite <- append_assoc, singleLine_append, Hk.
        apply singleLine_lineRest.
      * rewrite !append_assoc. now apply keys_differ.
      * now rewrite <- append_assoc, singleLine_append, Hk.
      * rewrite !append_assoc. now apply keys_differ.
    + destruct (replaceKeyLine (isLineTerminator c) key value s) as [r'|] eqn:E';
        [|discriminate].
      apply some_eq in Hr; subst r.
      rewrite (keyLine_eq bol other (String c r')),
              (keyLine_eq bol other (String c s)).
      destruct bol; cbn [andb].
      * rewrite <- (replaceKeyLine_agrees key value (other ++ "=") s r' c E' Ho).
        destruct (Text.startsWith (String c s) (other ++ "=")) eqn:F.
        -- f_equal.
           now apply (replaceKeyLine_value key value (other ++ "=") s r' c).
        -- now apply IH.
      * now apply IH.
Qed.

(** X19.  When the file already holds a line for the key, saving it
    touches that line only: every other key reads as it did before. *)
Theorem other_keys_are_kept (key value other content : string) :
  literalKey key = true -> literalKey other = true -> key <> other ->
  singleLine value = true -> verbatim value = true ->
  readEnv key (Some content) <> None ->
  readEnv other (Some (saveEnvValue key value (Some content)))
  = readEnv other (Some content).
Proof.
  intros Hkey Hother Hne Hv _ Hheld.
  unfold readEnv, saveEnvValue in *.
  destruct (replaceKeyLine true key value content) as [r|] eqn:E.
  - now apply (replaceKeyLine_other key value other Hkey Hother Hne Hv
                 content true r).
  - now apply no_match_no_line in E.
Qed.

End EnvOtherKeys.

Lemma other_keys_are_kept_witness :
  Env.readEnv "OPENROUTER_API_KEY"
    (Some (Env.saveEnvValue "CHALK_MODEL" "arcee/trinity"
             (Some ("OPENROUTER_API_KEY=sk-1" ++ LF ++ "CHALK_MODEL=old"
                    ++ LF))))
  = Env.readEnv "OPENROUTER_API_KEY"
      (Some ("OPENROUTER_API_KEY=sk-1" ++ LF ++ "CHALK_MODEL=old" ++ LF)).
Proof.
  apply (other_keys_are_kept "CHALK_MODEL" "arcee/trinity"
           "OPENROUTER_API_KEY"
           ("OPENROUTER_API_KEY=sk-1" ++ LF ++ "CHALK_MODEL=old" ++ LF));
    try reflexivity; discriminate.
Defined.

(** ** Custom agents *)

Section Agents.

Lemma lowerChar_keeps_space (c : ascii) :
  Text.isWhiteSpace (Text.lowerChar c) = Text.isWhiteSpace c.
Proof.
  destruct c as [[] [] [] [] [] [] [] []]; reflexivity.
Qed.

Lemma lowerChar_idempotent (c : ascii) :
  Text.lowerChar (Text.lowerChar c) = Text.lowerChar c.
Proof.
  destruct c as [[] [] [] [] [] [] [] []]; reflexivity.
Qed.

Lemma toLowerCase_idempotent (s : string) :
  Text.toLowerCase (Text.toLowerCase s) = Text.toLowerCase s.
Proof.
  induction s as [|c s IH]; [reflexivity|].
  cbn. now rewrite lowerChar_idempotent, IH.
Qed.

Lemma dashRuns_noWhiteSpace (s : string) :
  forall inRun, noWhiteSpace (dashRuns inRun s) = true.
Proof.
  induction s as [|c s IH]; intros inRun; [reflexivity|].
  cbn [dashRuns]. destruct (Text.isWhiteSpace c) eqn:E.
  - destruct inRun; [apply IH|]. cbn. apply IH.
  - cbn. now rewrite E, IH.
Qed.

Lemma dashRuns_fixed (s : string) :
  noWhiteSpace s = true -> forall inRun, dashRuns inRun s = s.
Proof.
  induction s as [|c s IH]; intros H inRun; [reflexivity|].
  cbn in H. apply andb_true_iff in H as [Hc Hs]. apply negb_true_iff in Hc.
  cbn [dashRuns]. rewrite Hc. now rewrite IH.
Qed.

Lemma toLowerCase_dashRuns (s : string) :
  forall inRun,
    Text.toLowerCase (dashRuns inRun (Text.toLowerCase s))
    = dashRuns inRun (Text.toLowerCase s).
Proof.
  induction s as [|c s IH]; intros inRun; [reflexivity|].
  cbn [Text.toLowerCase dashRuns].
  destruct (Text.isWhiteSpace (Text.lowerChar c)).
  - destruct inRun; [apply IH|]. cbn [Text.toLowerCase]. now rewrite IH.
  - cbn [Text.toLowerCase]. now rewrite lowerChar_idempotent, IH.
Qed.

(** X20.  The file name of an agent: it holds no white space, whatever
    the name is; it is the same for names that differ in letter case
    only, so that the later of two such agents overwrites the earlier;
    and naming an agent after a slug gives that slug again. *)
Theorem agent_file_name_is_normalised (name : string) :
  noWhiteSpace (agentSlug name) = true
  /\ agentFilename (Text.toLowerCase name) = agentFilename name
  /\ agentSlug (agentSlug name) = agentSlug name.
Proof.
  unfold agentFilename, agentSlug. repeat split.
  - apply dashRuns_noWhiteSpace.
  - now rewrite toLowerCase_idempotent.
  - rewrite toLowerCase_dashRuns. apply dashRuns_fixed.
    apply dashRuns_noWhiteSpace.
Qed.

Lemma feedRest_feed {S R : Type} (onKey : S -> Terminal -> string -> Step S R) :
  forall keys st t, fst (feedRest onKey st t keys) = feed onKey st t keys.
Proof.
  induction keys as [|data keys IH]; intros st t; [reflexivity|].
  cbn. destruct (onKey st t data); [apply IH|reflexivity].
Qed.

Lemma resolved_then {S R : Type} (s : Step S R * list string) (full : Step S R)
  (r : R) (t t' : Terminal) (rest : list string) :
  fst s = full -> s = (Resolved r t', rest) ->
  (resolved full = true -> terminalOf full = t) -> t' = t.
Proof. intros <- -> H. now apply H. Qed.

Lemma boxSelect_then_releases (title subtitle : string) (items : list string)
  (footer : string) (t t' : Terminal) (keys rest : list string) (r : Z) :
  boxSelect_then title subtitle items footer t keys = (Resolved r t', rest) ->
  t' = t.
Proof.
  unfold boxSelect_then. destruct (isTTY t) eqn:Htty; cbn [negb].
  - intros H. eapply resolved_then; [apply feedRest_feed|exact H|].
    apply scoped_resolved with (during := setRawMode true t).
    now apply boxSelect_scoped.
  - now intros [= _ <- _].
Qed.

Lemma boxTextInput_then_releases (title subtitle placeholder : string)
  (t t' : Terminal) (keys rest : list string) (r : option string) :
  boxTextInput_then title subtitle placeholder t keys = (Resolved r t', rest) ->
  t' = t.
Proof.
  unfold boxTextInput_then. destruct (isTTY t) eqn:Htty; cbn [negb].
  - intros H. eapply resolved_then; [apply feedRest_feed|exact H|].
    apply scoped_resolved with (during := setRawMode true t).
    now apply boxTextInput_scoped.
  - now intros [= _ <- _].
Qed.

Lemma action_then_releases (t t' : Terminal) (keys rest : list string)
  (r : string) :
  showAgentsDialog_action_then t keys = (Resolved r t', rest) -> t' = t.
Proof.
  unfold showAgentsDialog_action_then. destruct (isTTY t) eqn:Htty; cbn [negb].
  - intros H. eapply resolved_then; [apply feedRest_feed|exact H|].
    apply scoped_resolved with (during := setRawMode true t).
    now apply showAgentsDialog_scoped.
  - now intros [= _ <- _].
Qed.

Lemma action_then_on_pipe (t t' : Terminal) (keys rest : list string) :
  showAgentsDialog_action_then t keys = (Resolved "enter" t', rest) ->
  isTTY t = true.
Proof.
  unfold showAgentsDialog_action_then. destruct (isTTY t); [reflexivity|].
  cbn [negb]. discriminate.
Qed.

Ltac dialog_step H E t1 :=
  match type of H with
  | (match ?p with (_, _) => _ end) = _ =>
      destruct p as [[? ?|? t1] ?] eqn:E
  end;
  cbv beta match in H; [discriminate H|].

Ltac dialog_guard H :=
  match type of H with
  | (if ?b then _ else _) = _ =>
      let G := fresh "G" in destruct b eqn:G; cbv beta match in H
  end.

(** X21.  The agents dialog as a whole releases the terminal: however
    far the user goes through its five steps before it ends, dismissed,
    cancelled or with an agent created, the terminal is left exactly as
    the dialog found it. *)
Theorem agents_dialog_releases_terminal (now : string) (t t' : Terminal)
  (keys rest : list string) (how : DialogEnd) :
  showAgentsDialog now t keys = DialogEnded how t' rest -> t' = t.
Proof.
  unfold showAgentsDialog. intros H.
  dialog_step H E1 t1. apply action_then_releases in E1. subst t1.
  dialog_guard H; [now injection H as _ <- _|].
  dialog_step H E2 t2. apply boxSelect_then_releases in E2. subst t2.
  dialog_guard H; [now injection H as _ <- _|].
  dialog_step H E3 t3. apply boxSelect_then_releases in E3. subst t3.
  dialog_guard H; [now injection H as _ <- _|].
  dialog_step H E4 t4. apply boxTextInput_then_releases in E4. subst t4.
  dialog_guard H; [now injection H as _ <- _|].
  dialog_step H E5 t5. apply boxTextInput_then_releases in E5. subst t5.
  dialog_guard H; now injection H as _ <- _.
Qed.

Lemma not_blank (answer : option string) :
  blank answer = false ->
  Text.trim (orEmpty answer) <> EmptyString.
Proof.
  unfold blank, nonEmpty, orEmpty. destruct answer as [s|]; [|discriminate].
  destruct (Text.trim s); [discriminate|intros _; discriminate].
Qed.

(** X22.  An agent is created only on a terminal, and the agent handed
    to [saveAgent] always has a name and a description that are not empty
    and carry no white space at their ends, the model "inherit", the two
    tools, and one of the two locations. *)
Theorem created_agent_is_well_formed (now : string) (t t' : Terminal)
  (keys rest : list string) (agent : Agent) (location : string) :
  showAgentsDialog now t keys = DialogEnded (Created agent location) t' rest ->
  isTTY t = true
  /\ agent_name agent <> EmptyString
  /\ Text.trim (agent_name agent) = agent_name agent
  /\ agent_description agent <> EmptyString
  /\ Text.trim (agent_description agent) = agent_description agent
  /\ agent_model agent = "inherit"
  /\ agent_tools agent = ["tool_run"; "tool_edit"]
  /\ agent_createdAt agent = now
  /\ (location = "project" \/ location = "personal").
Proof.
  unfold showAgentsDialog. intros H.
  dialog_step H E1 t1. dialog_guard H; [discriminate H|].
  apply negb_false_iff, String.eqb_eq in G. subst.
  apply action_then_on_pipe in E1.
  dialog_step H E2 t2. dialog_guard H; [discriminate H|].
  dialog_step H E3 t3. dialog_guard H; [discriminate H|].
  dialog_step H E4 t4. dialog_guard H; [discriminate H|].
  dialog_step H E5 t5. dialog_guard H; [discriminate H|].
  injection H as <- <- _ _. cbn [agent_name agent_description agent_model
                                 agent_tools agent_createdAt].
  repeat split; try assumption; try apply trim_idempotent;
    try now apply not_blank.
  destruct (_ =? 0)%Z; [now left|now right].
Qed.

End Agents.

Lemma created_agent_is_well_formed_witness :
  isTTY (Sample.tty false) = true
  /\ "Test Writer" <> EmptyString
  /\ Text.trim "Test Writer" = "Test Writer"
  /\ "writes tests" <> EmptyString
  /\ Text.trim "writes tests" = "writes tests"
  /\ "inherit" = "inherit"
  /\ ["tool_run"; "tool_edit"] = ["tool_run"; "tool_edit"]
  /\ "2026-01-01T00:00:00.000Z" = "2026-01-01T00:00:00.000Z"
  /\ ("personal" = "project" \/ "personal" = "personal").
Proof.
  apply (created_agent_is_well_formed "2026-01-01T00:00:00.000Z"
           (Sample.tty false) (Sample.tty false)
           [Sample.CR; Sample.DOWN; Sample.CR; Sample.CR;
            " writes tests"; Sample.CR; "Test Writer "; Sample.CR; "x"]
           ["x"]
           {| agent_name := "Test Writer";
              agent_description := "writes tests";
              agent_model := "inherit";
              agent_tools := ["tool_run"; "tool_edit"];
              agent_createdAt := "2026-01-01T00:00:00.000Z" |}
           "personal").
  reflexivity.
Defined.

Lemma agents_dialog_releases_terminal_witness :
  Sample.tty true = Sample.tty true.
Proof.
  apply (agents_dialog_releases_terminal "2026-01-01T00:00:00.000Z"
           (Sample.tty true) (Sample.tty true)
           [Sample.CR; Sample.DOWN; Sample.CR; Sample.ESC] [] Cancelled).
  reflexivity.
Defined.


(** ** The multi-line step *)

Lemma join_nonEmpty_true (s : string) :
  nonEmpty s = true -> s <> EmptyString.
Proof. destruct s; [discriminate|intros _; discriminate]. Qed.

(** X23.  The text that goes on to the conversation is never empty: a
    line that is not empty is either taken as it is, or it is the fence
    and the block read after it is taken only when it is not empty. *)
Theorem user_text_is_never_empty (text message : string)
  (stdin rest : list string) :
  text <> EmptyString ->
  repl_userText text stdin = (Some message, rest) ->
  message <> EmptyString.
Proof.
  intros Htext. unfold repl_userText.
  destruct (String.eqb text FENCE).
  - destruct (getMultilineInput stdin) as [[multi|] rest'];
      [|discriminate].
    destruct (nonEmpty multi) eqn:Hmulti; [|discriminate].
    intros H. apply pair_equal_spec in H as [H _]. apply some_eq in H.
    subst message. now apply join_nonEmpty_true.
  - intros H. apply pair_equal_spec in H as [H _]. apply some_eq in H.
    now subst message.
Qed.

Lemma user_text_is_never_empty_witness :
  "a" ++ LF ++ "b" <> EmptyString.
Proof.
  apply (user_text_is_never_empty FENCE ("a" ++ LF ++ "b")
           ["a"; "b"; " ``` "; "c"] ["c"]).
  - discriminate.
  - reflexivity.
Defined.

(** ** The project listing *)

Section FileTreeFacts.

Variable readdirSync : string -> option (list Dirent).
Variable localeCompare : string -> string -> Z.
Variable path_join : string -> string -> string.

Lemma treeBound_nonneg (levels : nat) : (0 <= treeBound levels)%Z.
Proof.
  induction levels as [|below IH]; [reflexivity|].
  cbn [treeBound]. unfold MAX_TREE_FILES. lia.
Qed.

Lemma scanEntries_bound (scan : string -> string -> list string) (bound : Z)
  (dir prefix : string) :
  (0 <= bound)%Z ->
  (forall d p, (Z.of_nat (length (scan d p)) <= bound)%Z) ->
  forall (entries : list Dirent) (count : nat),
    (count <= MAX_TREE_FILES)%nat ->
    (Z.of_nat (length (scanEntries path_join scan dir prefix entries count))
     <= (Z.of_nat MAX_TREE_FILES - Z.of_nat count) * (1 + bound) + 1)%Z.
Proof.
  intros Hbound Hscan entries.
  induction entries as [|entry rest IH]; intros count Hcount.
  - cbn [scanEntries length]. nia.
  - cbn [scanEntries].
    destruct (MAX_TREE_FILES <=? count)%nat eqn:Hcut.
    + cbn [length]. nia.
    + apply Nat.leb_gt in Hcut.
      destruct (ignored (dirent_name entry)); [now apply IH|].
      destruct (Text.startsWith (dirent_name entry) "."
                && dirent_isDirectory entry); [now apply IH|].
      destruct (dirent_isDirectory entry).
      * cbn [length]. rewrite length_app.
        specialize (IH (S count) Hcut).
        specialize (Hscan (path_join dir (dirent_name entry))
                          (prefix ++ "  ")).
        nia.
      * cbn [length]. specialize (IH (S count) Hcut). nia.
Qed.

(** X24.  The listing is bounded whatever the directory holds: each
    directory contributes at most 200 of its entries and one line telling
    of the cut, and nothing is listed below the fourth level, so
    [scanFileTree] never returns more than 1616080401 lines. *)
Theorem listing_is_bounded (levels : nat) (dir prefix : string) :
  (Z.of_nat (length (scanFileTree_from readdirSync localeCompare path_join
                       levels dir prefix))
   <= treeBound levels)%Z
  /\ treeBound (S MAX_TREE_DEPTH) = 1616080401%Z.
Proof.
  split; [|reflexivity].
  revert dir prefix. induction levels as [|below IH]; intros dir prefix.
  - cbn. lia.
  - cbn [scanFileTree_from treeBound].
    destruct (readdirSync dir) as [entries|].
    + pose proof (scanEntries_bound
                    (scanFileTree_from readdirSync localeCompare path_join
                       below)
                    (treeBound below) dir prefix (treeBound_nonneg below) IH
                    (sortEntries localeCompare entries) 0) as H.
      unfold MAX_TREE_FILES in *. cbn [Z.of_nat] in H. lia.
    + pose proof (treeBound_nonneg below). unfold MAX_TREE_FILES.
      cbn [length]. lia.
Qed.

Lemma insertEntry_files (a : Dirent) (sorted : list Dirent) :
  forallb (fun e => negb (dirent_isDirectory e))
    (insertEntry localeCompare a sorted)
  = negb (dirent_isDirectory a)
    && forallb (fun e => negb (dirent_isDirectory e)) sorted.
Proof.
  induction sorted as [|b rest IH]; [reflexivity|].
  cbn [insertEntry].
  destruct (compareEntries localeCompare a b <=? 0)%Z; [reflexivity|].
  cbn [forallb]. rewrite IH.
  destruct (dirent_isDirectory a), (dirent_isDirectory b); reflexivity.
Qed.

Lemma insertEntry_dirsFirst (a : Dirent) (sorted : list Dirent) :
  dirsFirst sorted = true ->
  dirsFirst (insertEntry localeCompare a sorted) = true.
Proof.
  induction sorted as [|b rest IH]; intros H.
  - cbn. now destruct (dirent_isDirectory a).
  - cbn [insertEntry]. unfold compareEntries.
    cbn [dirsFirst] in H.
    destruct (dirent_isDirectory a) eqn:Ha, (dirent_isDirectory b) eqn:Hb;
      cbn [andb negb].
    + destruct (localeCompare _ _ <=? 0)%Z; cbn [dirsFirst];
        rewrite ?Ha, ?Hb; auto.
    + cbn [Z.leb Z.compare dirsFirst]. now rewrite Ha, Hb.
    + cbn [Z.leb Z.compare dirsFirst]. rewrite Hb. auto.
    + destruct (localeCompare _ _ <=? 0)%Z; cbn [dirsFirst];
        rewrite ?Ha, ?Hb.
      * cbn [forallb]. now rewrite Hb.
      * now rewrite insertEntry_files, Ha.
Qed.

(** X25.  Directories come first: in the order [scanFileTree] goes
    through the entries of a directory no file is ahead of a directory,
    whatever the order of the names is. *)
Theorem directories_are_listed_first (entries : list Dirent) :
  dirsFirst (sortEntries localeCompare entries) = true.
Proof.
  induction entries as [|a rest IH]; [reflexivity|].
  cbn [sortEntries fold_right]. now apply insertEntry_dirsFirst.
Qed.

End FileTreeFacts.
